(** * Selection engine of the roller widget and cell model of the table widget

    A shallow embedding of [src/lv_widgets/lv_roller.c] and
    [src/lv_widgets/lv_table.c].

    Conventions.
    - C integers are [Z]; every conversion to [uint16_t] / [int16_t] that the
      source performs is written out with [wrap16] / [wrap_s16], and every
      conversion of a computed value to a coordinate with [to_coord].
    - Undefined behaviour of the C program (division by zero, an access
      outside an allocated array) is the result [None]; an operation that
      completes returns [Some] of its result.
    - Geometry, styles, drawing, animation and the input devices are
      collaborators whose code is not part of these two files; what the
      functions read from them is an explicit argument or a field of the
      modelled state. *)

From Stdlib Require Import ZArith String Ascii Lia.
From stdpp Require Import base option list.

#[local] Open Scope Z_scope.

(** ** Machine integers *)

Definition wrap16 (x : Z) : Z := x mod 65536.

Definition wrap_s16 (x : Z) : Z := (x + 32768) mod 65536 - 32768.

Definition is_u16 (x : Z) : Prop := 0 <= x < 65536.

(** The coordinate type [lv_coord_t] is declared in [lv_area.h], which is not
    among the sources; it is taken as [int16_t], its declaration in the
    default configuration.  [to_coord] is the conversion of a value that is
    assigned to a coordinate; [fits_coord] says that the value is one a
    coordinate holds, which the conversion then keeps. *)
Definition to_coord (x : Z) : Z := wrap_s16 x.

Definition fits_coord (x : Z) : Prop := -32768 <= x < 32768.

(** An array access [l[i]]; outside the array it is undefined. *)
Definition load {A} (l : list A) (i : Z) : option A :=
  if 0 <=? i then l !! Z.to_nat i else None.

(** An array write [l[i] = x]; outside the array it is undefined. *)
Definition store {A} (l : list A) (i : Z) (x : A) : option (list A) :=
  if (0 <=? i) && (i <? Z.of_nat (length l))
  then Some (<[Z.to_nat i := x]> l) else None.

(** The newline character, ['\n']. *)
Definition nl : ascii := "010"%char.

(* ===================================================================== *)
(** * The roller *)
(* ===================================================================== *)

Module Roller.

Inductive lv_roller_mode_t := LV_ROLLER_MODE_NORMAL | LV_ROLLER_MODE_INFINITE.

Inductive lv_indev_type_t :=
  | LV_INDEV_TYPE_NONE
  | LV_INDEV_TYPE_POINTER
  | LV_INDEV_TYPE_KEYPAD
  | LV_INDEV_TYPE_BUTTON
  | LV_INDEV_TYPE_ENCODER.

Inductive lv_key_t :=
  | LV_KEY_UP | LV_KEY_DOWN | LV_KEY_RIGHT | LV_KEY_LEFT | LV_KEY_OTHER.

(** [lv_roller_t], together with what the roller functions read from the
    objects around it: the text of the child label, the [anim_time] style
    value and the [editing] flag of the group. *)
Record lv_roller_t := mk_roller {
  option_cnt : Z;            (* uint16_t *)
  sel_opt_id : Z;            (* uint16_t *)
  sel_opt_id_ori : Z;        (* uint16_t *)
  mode : lv_roller_mode_t;
  moved : bool;
  label_text : list ascii;   (* lv_label_get_text(get_label(obj)) *)
  anim_time : Z;             (* lv_obj_get_style_anim_time(obj, LV_PART_MAIN) *)
  editing : bool             (* lv_group_get_editing(lv_obj_get_group(obj)) *)
}.

Definition set_sel (r : lv_roller_t) (v : Z) : lv_roller_t :=
  mk_roller (option_cnt r) v (sel_opt_id_ori r) (mode r) (moved r)
            (label_text r) (anim_time r) (editing r).

Definition set_ori (r : lv_roller_t) (v : Z) : lv_roller_t :=
  mk_roller (option_cnt r) (sel_opt_id r) v (mode r) (moved r)
            (label_text r) (anim_time r) (editing r).

Definition set_cnt (r : lv_roller_t) (v : Z) : lv_roller_t :=
  mk_roller v (sel_opt_id r) (sel_opt_id_ori r) (mode r) (moved r)
            (label_text r) (anim_time r) (editing r).

Definition set_mode (r : lv_roller_t) (m : lv_roller_mode_t) : lv_roller_t :=
  mk_roller (option_cnt r) (sel_opt_id r) (sel_opt_id_ori r) m (moved r)
            (label_text r) (anim_time r) (editing r).

Definition set_moved (r : lv_roller_t) (b : bool) : lv_roller_t :=
  mk_roller (option_cnt r) (sel_opt_id r) (sel_opt_id_ori r) (mode r) b
            (label_text r) (anim_time r) (editing r).

Definition set_text (r : lv_roller_t) (t : list ascii) : lv_roller_t :=
  mk_roller (option_cnt r) (sel_opt_id r) (sel_opt_id_ori r) (mode r) (moved r)
            t (anim_time r) (editing r).

Definition set_editing (r : lv_roller_t) (b : bool) : lv_roller_t :=
  mk_roller (option_cnt r) (sel_opt_id r) (sel_opt_id_ori r) (mode r) (moved r)
            (label_text r) (anim_time r) b.

Definition is_infinite (r : lv_roller_t) : bool :=
  match mode r with LV_ROLLER_MODE_INFINITE => true | _ => false end.

Section WithPages.

(** The macro [LV_ROLLER_INF_PAGES] comes from the configuration header; the
    functions are parametric in it. *)
Variable LV_ROLLER_INF_PAGES : Z.

(** [inf_normalize]: select the middle page.  [real_id_cnt] is a divisor:
    when it is zero the C program divides by zero. *)
Definition inf_normalize (r : lv_roller_t) : option lv_roller_t :=
  if is_infinite r then
    let real_id_cnt := wrap16 (option_cnt r / LV_ROLLER_INF_PAGES) in
    if real_id_cnt =? 0 then None
    else
      let sel := wrap16 (sel_opt_id r mod real_id_cnt) in
      let sel := wrap16 (sel + (LV_ROLLER_INF_PAGES / 2) * real_id_cnt) in
      let ori := wrap16 (sel mod real_id_cnt) in
      let ori := wrap16 (ori + (LV_ROLLER_INF_PAGES / 2) * real_id_cnt) in
      Some (set_ori (set_sel r sel) ori)
  else Some r.

(** [refr_position]: without animation (or with a zero animation time) the
    normalizer runs at once; otherwise an animation is started and the
    normalizer runs from its ready callback ([scroll_anim_ready_cb]). *)
Definition refr_position (r : lv_roller_t) (anim_en : bool) : option lv_roller_t :=
  if negb anim_en || (anim_time r =? 0) then inf_normalize r else Some r.

Definition scroll_anim_ready_cb (r : lv_roller_t) : option lv_roller_t :=
  inf_normalize r.

(** [lv_roller_set_selected]; the parameter [sel_opt] is a [uint16_t]. *)
Definition lv_roller_set_selected (r : lv_roller_t) (sel_opt : Z) (anim : bool)
  : option lv_roller_t :=
  let sel_opt := wrap16 sel_opt in
  let sel_opt :=
    if is_infinite r then
      let sel_opt_signed := sel_opt in
      let page := wrap16 (sel_opt_id r / LV_ROLLER_INF_PAGES) in
      let sel_opt_signed :=
        if negb (page =? 0) then sel_opt_signed - page * LV_ROLLER_INF_PAGES
        else sel_opt_signed in
      wrap16 (page * LV_ROLLER_INF_PAGES + sel_opt_signed)
    else sel_opt in
  let id := if sel_opt <? option_cnt r then sel_opt
            else wrap16 (option_cnt r - 1) in
  refr_position (set_ori (set_sel r id) id) anim.

(** [lv_roller_get_selected] *)
Definition lv_roller_get_selected (r : lv_roller_t) : option Z :=
  if is_infinite r then
    let real_id_cnt := wrap16 (option_cnt r / LV_ROLLER_INF_PAGES) in
    if real_id_cnt =? 0 then None
    else Some (wrap16 (sel_opt_id r mod real_id_cnt))
  else Some (sel_opt_id r).

(** [lv_roller_get_option_cnt] *)
Definition lv_roller_get_option_cnt (r : lv_roller_t) : Z :=
  if is_infinite r then wrap16 (option_cnt r / LV_ROLLER_INF_PAGES)
  else option_cnt r.

(** The counting loop of [lv_roller_set_options]: one more option for every
    ['\n'], in a [uint16_t]. *)
Fixpoint count_nl (options : list ascii) (cnt : Z) : Z :=
  match options with
  | [] => cnt
  | ch :: rest =>
      count_nl rest (if Ascii.eqb ch nl then wrap16 (cnt + 1) else cnt)
  end.

(** The text built in [opt_extra]: [pages] copies of the options, each
    followed by ['\n'], the last ['\n'] overwritten by the terminator. *)
Fixpoint inf_pages_text (options : list ascii) (pages : nat) : list ascii :=
  match pages with
  | O => []
  | S O => options
  | S p => options ++ nl :: inf_pages_text options p
  end.

(** The loop that fills [opt_extra], one page per turn.  Its counter [i] is
    a [uint8_t]: with 256 pages or more it wraps to zero before it reaches
    [LV_ROLLER_INF_PAGES] and the loop does not end, which is [None] here
    (the fuel is one full round of the counter). *)
Fixpoint pages_loop (fuel : nat) (options : list ascii) (i : Z) (pages : nat)
  : option (list ascii) :=
  if i <? LV_ROLLER_INF_PAGES then
    match fuel with
    | O => None
    | S fuel => pages_loop fuel options ((i + 1) mod 256) (S pages)
    end
  else Some (inf_pages_text options pages).

(** [lv_roller_set_options] *)
Definition lv_roller_set_options (r : lv_roller_t) (options : list ascii)
    (m : lv_roller_mode_t) : option lv_roller_t :=
  let r := set_ori (set_sel r 0) 0 in
  let cnt := wrap16 (count_nl options 0 + 1) in
  let r := set_cnt r cnt in
  match m with
  | LV_ROLLER_MODE_NORMAL =>
      let r := set_text (set_mode r LV_ROLLER_MODE_NORMAL) options in
      Some (set_ori r (sel_opt_id r))
  | LV_ROLLER_MODE_INFINITE =>
      let r := set_mode r LV_ROLLER_MODE_INFINITE in
      opt_extra ← pages_loop 256 options 0 O;
      let r := set_text r opt_extra in
      let r := set_sel r (wrap16 ((LV_ROLLER_INF_PAGES / 2 + 0) * option_cnt r)) in
      let r := set_cnt r (wrap16 (option_cnt r * LV_ROLLER_INF_PAGES)) in
      r ← inf_normalize r;
      Some (set_ori r (sel_opt_id r))
  end.

(** [lv_roller_constructor] with [copy == NULL]; [anim_time] and [editing]
    are what the style and the group hold. *)
Definition default_options : list ascii :=
  list_ascii_of_string "Option 1" ++ nl ::
  list_ascii_of_string "Option 2" ++ nl ::
  list_ascii_of_string "Option 3" ++ nl ::
  list_ascii_of_string "Option 4" ++ nl ::
  list_ascii_of_string "Option 5".

Definition lv_roller_constructor (at_ : Z) (ed : bool) : option lv_roller_t :=
  lv_roller_set_options
    (mk_roller 0 0 0 LV_ROLLER_MODE_NORMAL false [] at_ ed)
    default_options LV_ROLLER_MODE_NORMAL.

(** *** [lv_roller_get_selected_str] *)

(** First loop: walk to the start of line [sel], counting ['\n'] in the
    [uint16_t] [line].  The result is the text from index [i] on. *)
Fixpoint skip_to_line (txt : list ascii) (line sel : Z) : list ascii :=
  match txt with
  | [] => []
  | ch :: rest =>
      if line =? sel then txt
      else skip_to_line rest (if Ascii.eqb ch nl then wrap16 (line + 1) else line) sel
  end.

(** Second loop: copy up to the next ['\n'], stopping early when
    [buf_size] is not zero and [c] has reached [buf_size - 1]. *)
Fixpoint copy_line (txt : list ascii) (c buf_size : Z) (buf : list ascii)
  : option (Z * list ascii) :=
  match txt with
  | [] => Some (c, buf)
  | ch :: rest =>
      if Ascii.eqb ch nl then Some (c, buf)
      else if negb (buf_size =? 0) && (buf_size - 1 <=? c) then Some (c, buf)
      else
        buf' ← store buf c ch;
        copy_line rest (c + 1) buf_size buf'
  end.

(** The function returns the terminator's index together with the buffer. *)
Definition lv_roller_get_selected_str (r : lv_roller_t) (buf : list ascii)
    (buf_size : Z) : option (Z * list ascii) :=
  let rest := skip_to_line (label_text r) 0 (sel_opt_id r) in
  '(c, buf) ← copy_line rest 0 buf_size buf;
  buf ← store buf c zero;
  Some (c, buf).

(** The line that starts a text: its bytes up to the first ['\n']. *)
Fixpoint line_of (txt : list ascii) : list ascii :=
  match txt with
  | [] => []
  | ch :: rest => if Ascii.eqb ch nl then [] else ch :: line_of rest
  end.

(** Line [n] of a text of ['\n'] separated lines, counting from zero; empty
    when the text has fewer lines. *)
Fixpoint nth_line (txt : list ascii) (n : nat) : list ascii :=
  match txt with
  | [] => []
  | ch :: rest =>
      match n with
      | O => line_of txt
      | S k => if Ascii.eqb ch nl then nth_line rest k else nth_line rest n
      end
  end.

(** *** Signals *)

(** What [release_handler] reads from the pointer and from the geometry:
    the letter under the pointer ([lv_label_get_letter_on]), the middle line
    of the roller, the predicted top of the label and the height of one
    line ([font_h + line_space]). *)
Record pointer_input := mk_pointer {
  letter_i : Z;
  mid : Z;
  label_y1 : Z;
  label_unit : Z
}.

(** The tap loop of [release_handler], for a text of one-byte letters:
    [_lv_txt_encoded_next] returns [txt[i]] and advances [i] by one; at or
    after the end of the text it returns the terminator. *)
Fixpoint tap_loop (txt : list ascii) (n : nat) (i i_prev letter_i new_opt : Z) : Z :=
  match n with
  | O => new_opt
  | S n' =>
      let letter := default zero (load txt i) in
      let i := i + 1 in
      let new_opt :=
        if Ascii.eqb letter nl && negb (i_prev =? letter_i)
        then wrap_s16 (new_opt + 1) else new_opt in
      tap_loop txt n' i i letter_i new_opt
  end.

Definition release_handler (r : lv_roller_t) (indev_type : lv_indev_type_t)
    (p : pointer_input) : option lv_roller_t :=
  let r :=
    match indev_type with
    | LV_INDEV_TYPE_ENCODER =>
        let r := set_ori r (sel_opt_id r) in
        if editing r then set_editing r false else r
    | LV_INDEV_TYPE_KEYPAD => set_ori r (sel_opt_id r)
    | _ => r
    end in
  match indev_type with
  | LV_INDEV_TYPE_POINTER | LV_INDEV_TYPE_BUTTON =>
      new_opt ←
        (if negb (moved r) then
           Some (tap_loop (label_text r) (Z.to_nat (letter_i p)) 0 0 (letter_i p) 0)
         else
           if label_unit p =? 0 then None
           else
             let id := (mid p - label_y1 p) ÷ label_unit p in
             let id := if id <? 0 then 0 else id in
             let id := if option_cnt r <=? id then option_cnt r - 1 else id in
             Some (wrap_s16 id));
      if 0 <=? new_opt then lv_roller_set_selected r new_opt true
      else Some r
  | _ => Some r
  end.

Inductive lv_signal_t :=
  | LV_SIGNAL_STYLE_CHG
  | LV_SIGNAL_COORD_CHG (size_changed : bool)
  | LV_SIGNAL_PRESSED
  | LV_SIGNAL_PRESSING (vect_y : Z)
  | LV_SIGNAL_RELEASED (indev_type : lv_indev_type_t) (p : pointer_input)
  | LV_SIGNAL_FOCUS (indev_type : lv_indev_type_t)
  | LV_SIGNAL_DEFOCUS
  | LV_SIGNAL_CONTROL (c : lv_key_t)
  | LV_SIGNAL_OTHER.

Definition lv_roller_signal (r : lv_roller_t) (sign : lv_signal_t)
  : option lv_roller_t :=
  match sign with
  | LV_SIGNAL_STYLE_CHG => refr_position r false
  | LV_SIGNAL_COORD_CHG size_changed =>
      if size_changed then refr_position r false else Some r
  | LV_SIGNAL_PRESSED => Some (set_moved r false)
  | LV_SIGNAL_PRESSING vect_y =>
      if negb (vect_y =? 0) then Some (set_moved r true) else Some r
  | LV_SIGNAL_RELEASED indev_type p => release_handler r indev_type p
  | LV_SIGNAL_FOCUS indev_type =>
      match indev_type with
      | LV_INDEV_TYPE_ENCODER =>
          if negb (editing r) then
            if negb (sel_opt_id r =? sel_opt_id_ori r)
            then refr_position (set_sel r (sel_opt_id_ori r)) true
            else Some r
          else Some (set_ori r (sel_opt_id r))
      | _ => Some (set_ori r (sel_opt_id r))
      end
  | LV_SIGNAL_DEFOCUS =>
      if negb (sel_opt_id r =? sel_opt_id_ori r)
      then refr_position (set_sel r (sel_opt_id_ori r)) true
      else Some r
  | LV_SIGNAL_CONTROL c =>
      match c with
      | LV_KEY_RIGHT | LV_KEY_DOWN =>
          if sel_opt_id r + 1 <? option_cnt r then
            let ori_id := sel_opt_id_ori r in
            r ← lv_roller_set_selected r (sel_opt_id r + 1) true;
            Some (set_ori r ori_id)
          else Some r
      | LV_KEY_LEFT | LV_KEY_UP =>
          if 0 <? sel_opt_id r then
            let ori_id := sel_opt_id_ori r in
            r ← lv_roller_set_selected r (sel_opt_id r - 1) true;
            Some (set_ori r ori_id)
          else Some r
      | LV_KEY_OTHER => Some r
      end
  | LV_SIGNAL_OTHER => Some r
  end.

(** *** Sequences of calls *)

(** The operations a host performs on a roller after [lv_roller_set_options]:
    the public setter, the signals, and the ready callback of the scroll
    animation (the wraparound normalizer). *)
Inductive roller_op :=
  | OpSetSelected (sel_opt : Z) (anim : bool)
  | OpSignal (sign : lv_signal_t)
  | OpAnimReady.

Definition run_op (r : lv_roller_t) (op : roller_op) : option lv_roller_t :=
  match op with
  | OpSetSelected sel_opt anim => lv_roller_set_selected r sel_opt anim
  | OpSignal sign => lv_roller_signal r sign
  | OpAnimReady => scroll_anim_ready_cb r
  end.

Fixpoint run_ops (r : lv_roller_t) (ops : list roller_op) : option lv_roller_t :=
  match ops with
  | [] => Some r
  | op :: ops => r ← run_op r op; run_ops r ops
  end.

(** A drag release divides by the height of a line; it is defined when that
    height is not zero. *)
Definition op_defined (op : roller_op) : bool :=
  match op with
  | OpSignal (LV_SIGNAL_RELEASED _ p) => negb (label_unit p =? 0)
  | _ => true
  end.

(** The id [lv_roller_set_selected] stores for an argument: the argument,
    or the last option when the argument is not below the count. *)
Definition clamp_id (r : lv_roller_t) (id : Z) : Z :=
  if wrap16 id <? option_cnt r then wrap16 id else wrap16 (option_cnt r - 1).

(** *** Invariant *)

(** The state invariant of a roller whose options are set: the selection and
    its snapshot index an option, the count fits its [uint16_t], and in
    infinite mode there is at least one option per page. *)
Definition roller_inv (r : lv_roller_t) : Prop :=
  is_u16 (option_cnt r)
  /\ 0 <= sel_opt_id r < option_cnt r
  /\ 0 <= sel_opt_id_ori r < option_cnt r
  /\ (is_infinite r = true -> LV_ROLLER_INF_PAGES <= option_cnt r).

(** What no operation after [lv_roller_set_options] changes. *)
Definition same_options (r r' : lv_roller_t) : Prop :=
  option_cnt r' = option_cnt r /\ mode r' = mode r
  /\ label_text r' = label_text r /\ anim_time r' = anim_time r.

(** The absolute id of the option [sel_opt_id] on the middle page. *)
Definition middle_page_id (r : lv_roller_t) : Z :=
  let real_id_cnt := option_cnt r / LV_ROLLER_INF_PAGES in
  sel_opt_id r mod real_id_cnt + (LV_ROLLER_INF_PAGES / 2) * real_id_cnt.

End WithPages.

(** Example inputs: the options ["A\nB\nC"], a roller before its options are
    set, and the roller [lv_roller_set_options] makes of them in infinite
    mode with five pages. *)
Definition abc_options : list ascii :=
  ["A"; nl; "B"; nl; "C"]%char.

Definition blank_roller : lv_roller_t :=
  mk_roller 0 0 0 LV_ROLLER_MODE_NORMAL false [] 200 false.

Definition abc_infinite : lv_roller_t :=
  mk_roller 15 6 6 LV_ROLLER_MODE_INFINITE false
            (inf_pages_text abc_options 5) 200 false.

(** The roller [lv_roller_set_options] makes of the same options in normal
    mode. *)
Definition abc_normal : lv_roller_t :=
  mk_roller 3 0 0 LV_ROLLER_MODE_NORMAL false abc_options 200 false.

(** A sequence of operations on a roller. *)
Definition example_ops : list roller_op :=
  [OpSetSelected 14 true; OpSignal (LV_SIGNAL_CONTROL LV_KEY_RIGHT); OpAnimReady;
   OpSetSelected 1 false; OpSignal LV_SIGNAL_DEFOCUS].

(** [lv_roller_get_options] *)
Definition lv_roller_get_options (r : lv_roller_t) : list ascii := label_text r.

(** The number of ['\n'] in a text. *)
Fixpoint nl_count (txt : list ascii) : Z :=
  match txt with
  | [] => 0
  | ch :: rest => (if Ascii.eqb ch nl then 1 else 0) + nl_count rest
  end.

(** When the position refresh is animated, or the roller is not infinite,
    the refresh leaves the selection state as it is. *)
Definition keeps_ids (r : lv_roller_t) : Prop :=
  is_infinite r = false \/ anim_time r <> 0.

(** The id a key selects: one further for right and down, one back for left
    and up, staying at the last and at the first option. *)
Definition key_target (r : lv_roller_t) (c : lv_key_t) : Z :=
  match c with
  | LV_KEY_RIGHT | LV_KEY_DOWN => Z.min (sel_opt_id r + 1) (option_cnt r - 1)
  | LV_KEY_LEFT | LV_KEY_UP => Z.max (sel_opt_id r - 1) 0
  | LV_KEY_OTHER => sel_opt_id r
  end.

(** A sequence of [LV_SIGNAL_CONTROL] signals, one for every key. *)
Definition control_ops (keys : list lv_key_t) : list roller_op :=
  map (fun c => OpSignal (LV_SIGNAL_CONTROL c)) keys.

(** A [LV_SIGNAL_CONTROL] signal, or, where [ready] allows it, the ready
    callback of the scroll animation. *)
Definition key_or_ready (ready : bool) (op : roller_op) : bool :=
  match op with
  | OpSignal (LV_SIGNAL_CONTROL _) => true
  | OpAnimReady => ready
  | _ => false
  end.

(** Keys with a ready callback between them. *)
Definition example_key_ops : list roller_op :=
  [OpSignal (LV_SIGNAL_CONTROL LV_KEY_RIGHT); OpAnimReady;
   OpSignal (LV_SIGNAL_CONTROL LV_KEY_DOWN); OpAnimReady].

(** The line a release after a drag finds at the middle of the roller,
    brought into the range of the options. *)
Definition drag_target (r : lv_roller_t) (p : pointer_input) : Z :=
  Z.max 0 (Z.min (option_cnt r - 1) ((mid p - label_y1 p) ÷ label_unit p)).

(** The line of the letter under the pointer, for a text of one-byte
    letters: the number of ['\n'] before that letter, or the last option when
    the label has more lines than options. *)
Definition tap_target (r : lv_roller_t) (p : pointer_input) : Z :=
  Z.min (nl_count (take (Z.to_nat (letter_i p)) (label_text r))) (option_cnt r - 1).

(** The example roller with a style that has no animation time. *)
Definition abc_unanimated : lv_roller_t :=
  mk_roller 15 6 6 LV_ROLLER_MODE_INFINITE false
            (inf_pages_text abc_options 5) 0 false.

(** A pointer whose release after a drag finds line 5 at the middle. *)
Definition drag_pointer : pointer_input := mk_pointer 0 50 0 10.

(** A pointer whose release without a drag finds letter 3 under it. *)
Definition tap_pointer : pointer_input := mk_pointer 3 0 0 10.

End Roller.

(* ===================================================================== *)
(** * The table *)
(* ===================================================================== *)

Module Table.

(** Modelled from the spec: the union [lv_table_cell_format_t] is declared in
    [lv_table.h], which is not among the sources.  The format byte packs two
    one-bit fields, [right_merge] and [crop]; they are taken in that order
    from the least significant bit.  The bits of a fresh format byte that
    neither field covers are zero where the source sets the whole byte to
    zero, and are left as they are where the source assigns the two fields. *)
Definition fmt_right_merge (format_byte : Z) : bool := Z.testbit format_byte 0.

Definition fmt_crop (format_byte : Z) : bool := Z.testbit format_byte 1.

Definition fmt_set_right_merge (format_byte : Z) (v : bool) : Z :=
  if v then Z.lor format_byte 1 else Z.ldiff format_byte 1.

Definition fmt_set_crop (format_byte : Z) (v : bool) : Z :=
  if v then Z.lor format_byte 2 else Z.ldiff format_byte 2.

(** An allocated cell buffer: [format_byte, text..., '\0']. *)
Record cell_t := mk_cell {
  format_byte : Z;
  text : string
}.

(** [lv_table_t].  An entry of [cell_data] is a pointer: [None] is [NULL]. *)
Record lv_table_t := mk_table {
  col_cnt : Z;                       (* uint16_t *)
  row_cnt : Z;                       (* uint16_t *)
  cell_data : list (option cell_t);
  row_h : list Z;
  col_w : list Z
}.

Definition set_cell_data (t : lv_table_t) (d : list (option cell_t)) : lv_table_t :=
  mk_table (col_cnt t) (row_cnt t) d (row_h t) (col_w t).

Definition set_row_h (t : lv_table_t) (h : list Z) : lv_table_t :=
  mk_table (col_cnt t) (row_cnt t) (cell_data t) h (col_w t).

Definition set_col_w (t : lv_table_t) (w : list Z) : lv_table_t :=
  mk_table (col_cnt t) (row_cnt t) (cell_data t) (row_h t) w.

Definition set_col_cnt_field (t : lv_table_t) (n : Z) : lv_table_t :=
  mk_table n (row_cnt t) (cell_data t) (row_h t) (col_w t).

Definition set_row_cnt_field (t : lv_table_t) (n : Z) : lv_table_t :=
  mk_table (col_cnt t) n (cell_data t) (row_h t) (col_w t).

(** What the table functions read from the style and text collaborators:
    the line height of the font, the height [lv_txt_get_size] measures for a
    text wrapped to a width, the paddings of the cells, and the default
    column width [LV_DPI_DEF].  [uninit_format] is the byte that the local
    variable [format] of the two text setters holds before it is assigned:
    the source leaves it uninitialised, so it is whatever the call finds
    there, for the table and the cell it is called with. *)
Record table_env := mk_env {
  line_height : Z;
  txt_height : string -> Z -> Z;
  cell_left : Z;
  cell_right : Z;
  cell_top : Z;
  cell_bottom : Z;
  LV_DPI_DEF : Z;
  uninit_format : lv_table_t -> Z -> Z -> Z
}.

Section WithEnv.

Variable e : table_env.

(** *** [get_row_height] *)

(** The inner loop: the length of the merge chain that starts at [cell],
    and the width it spans. *)
Fixpoint merge_chain (fuel : nat) (t : lv_table_t) (cell col col_merge txt_w : Z)
  : option (Z * Z) :=
  if col_merge + col <? col_cnt t - 1 then
    match fuel with
    | O => None
    | S fuel =>
        p ← load (cell_data t) (cell + col_merge);
        match p with
        | Some c =>
            if fmt_right_merge (format_byte c) then
              w ← load (col_w t) (col + col_merge + 1);
              merge_chain fuel t cell col (wrap16 (col_merge + 1))
                          (to_coord (txt_w + w))
            else Some (col_merge, txt_w)
        | None => Some (col_merge, txt_w)
        end
    end
  else Some (col_merge, txt_w).

(** The outer loop over the cells of the row; [cell] and [col] are
    [uint16_t], [txt_w] and [h_max] are coordinates.  Only the branch of a
    cell that is not cropped advances [cell] and [col] by the length of the
    merge chain. *)
Fixpoint row_loop (fuel : nat) (t : lv_table_t) (row_start cell col h_max : Z)
  : option Z :=
  if cell <? row_start + col_cnt t then
    match fuel with
    | O => None
    | S fuel =>
        p ← load (cell_data t) cell;
        match p with
        | Some c =>
            txt_w ← load (col_w t) col;
            '(col_merge, txt_w) ←
               merge_chain (Z.to_nat (col_cnt t)) t cell col 0 txt_w;
            if fmt_crop (format_byte c) then
              let h_max :=
                to_coord (Z.max (line_height e + cell_top e + cell_bottom e) h_max) in
              row_loop fuel t row_start (wrap16 (cell + 1)) (wrap16 (col + 1)) h_max
            else
              let txt_w := to_coord (txt_w - (cell_left e + cell_right e)) in
              let txt_size_y := txt_height e (text c) txt_w in
              let h_max :=
                to_coord (Z.max (txt_size_y + cell_top e + cell_bottom e) h_max) in
              let cell := wrap16 (cell + col_merge) in
              let col := wrap16 (col + col_merge) in
              row_loop fuel t row_start (wrap16 (cell + 1)) (wrap16 (col + 1)) h_max
        | None =>
            row_loop fuel t row_start (wrap16 (cell + 1)) (wrap16 (col + 1)) h_max
        end
    end
  else Some h_max.

Definition get_row_height (t : lv_table_t) (row_id : Z) : option Z :=
  let row_start := wrap16 (row_id * col_cnt t) in
  let h_max := to_coord (line_height e + cell_top e + cell_bottom e) in
  row_loop (Z.to_nat (col_cnt t)) t row_start row_start 0 h_max.

(** *** [refr_size] *)

Fixpoint refr_rows (n : nat) (i : Z) (t : lv_table_t) : option lv_table_t :=
  match n with
  | O => Some t
  | S n =>
      h ← get_row_height t i;
      row_h' ← store (row_h t) i h;
      refr_rows n (i + 1) (set_row_h t row_h')
  end.

Definition refr_size (t : lv_table_t) : option lv_table_t :=
  refr_rows (Z.to_nat (row_cnt t)) 0 t.

(** *** Row and column counts *)

(** [lv_mem_realloc] to [n] entries keeps the leading entries; what it adds
    is [d] (the zero fill of the source for [cell_data], and a place holder
    for the heights and widths, which are written before they are read). *)
Definition realloc {A} (l : list A) (n : Z) (d : A) : list A :=
  resize (Z.to_nat n) d l.

(** [lv_table_set_row_cnt]; allocation is taken to succeed. *)
Definition lv_table_set_row_cnt (t : lv_table_t) (row_cnt' : Z) : option lv_table_t :=
  let t := set_row_cnt_field t row_cnt' in
  let t := set_row_h t (realloc (row_h t) (row_cnt t) 0) in
  let t := set_cell_data t (realloc (cell_data t) (row_cnt t * col_cnt t) None) in
  refr_size t.

(** The loop that gives the new columns their default width. *)
Fixpoint init_col_w (n : nat) (col : Z) (w : list Z) : option (list Z) :=
  match n with
  | O => Some w
  | S n => w ← store w col (LV_DPI_DEF e); init_col_w n (col + 1) w
  end.

(** [lv_memcpy_small(&dst[dst_start], &src[src_start], n entries)] *)
Definition memcpy_cells {A} (dst : list A) (dst_start : Z) (src : list A)
    (src_start : Z) (n : Z) : option (list A) :=
  if (0 <=? dst_start) && (0 <=? src_start) && (0 <=? n)
     && (dst_start + n <=? Z.of_nat (length dst))
     && (src_start + n <=? Z.of_nat (length src))
  then Some (take (Z.to_nat dst_start) dst
             ++ take (Z.to_nat n) (drop (Z.to_nat src_start) src)
             ++ drop (Z.to_nat (dst_start + n)) dst)
  else None.

(** The loop that moves every row to its place in the new grid. *)
Fixpoint remap_rows (n : nat) (row : Z) (old_col_cnt col_cnt' min_col_cnt : Z)
    (old new_cell_data : list (option cell_t)) : option (list (option cell_t)) :=
  match n with
  | O => Some new_cell_data
  | S n =>
      let old_col_start := row * old_col_cnt in
      let new_col_start := row * col_cnt' in
      new_cell_data ←
        memcpy_cells new_cell_data new_col_start old old_col_start min_col_cnt;
      remap_rows n (row + 1) old_col_cnt col_cnt' min_col_cnt old new_cell_data
  end.

(** [lv_table_set_col_cnt]; allocation is taken to succeed. *)
Definition lv_table_set_col_cnt (t : lv_table_t) (col_cnt' : Z) : option lv_table_t :=
  let old_col_cnt := col_cnt t in
  let t := set_col_cnt_field t col_cnt' in
  let t := set_col_w t (realloc (col_w t) col_cnt' 0) in
  let new_cell_cnt := col_cnt t * row_cnt t in
  let new_cell_data := replicate (Z.to_nat new_cell_cnt) None in
  w ← (if old_col_cnt <? col_cnt'
       then init_col_w (Z.to_nat (col_cnt' - old_col_cnt)) old_col_cnt (col_w t)
       else Some (col_w t));
  let t := set_col_w t w in
  let min_col_cnt := Z.min old_col_cnt col_cnt' in
  new_cell_data ←
    remap_rows (Z.to_nat (row_cnt t)) 0 old_col_cnt col_cnt' min_col_cnt
               (cell_data t) new_cell_data;
  refr_size (set_cell_data t new_cell_data).

(** [lv_table_set_col_width] *)
Definition lv_table_set_col_width (t : lv_table_t) (col_id w : Z) : option lv_table_t :=
  t ← (if col_cnt t <=? col_id then lv_table_set_col_cnt t (wrap16 (col_id + 1))
       else Some t);
  col_w' ← store (col_w t) col_id w;
  refr_size (set_col_w t col_w').

(** *** Cells *)

(** The auto expansion shared by the setters: columns first, then rows. *)
Definition auto_expand (t : lv_table_t) (row col : Z) : option lv_table_t :=
  t ← (if col_cnt t <=? col then lv_table_set_col_cnt t (wrap16 (col + 1))
       else Some t);
  if row_cnt t <=? row then lv_table_set_row_cnt t (wrap16 (row + 1))
  else Some t.

(** The format byte the text setters save: that of the cell, or for a
    [NULL] cell the uninitialised [format] with its two fields set to zero
    (its other bits stay what they were). *)
Definition saved_format (t : lv_table_t) (row col : Z) (p : option cell_t) : Z :=
  match p with
  | Some c => format_byte c
  | None =>
      fmt_set_crop (fmt_set_right_merge (uninit_format e t row col) false) false
  end.

(** The tail of [lv_table_set_cell_value] and [lv_table_set_cell_value_fmt]:
    keep the format byte, replace the text, refresh the heights. *)
Definition write_text (t : lv_table_t) (row col : Z) (txt : string)
  : option lv_table_t :=
  let cell := row * col_cnt t + col in
  p ← load (cell_data t) cell;
  let format := saved_format t row col p in
  d ← store (cell_data t) cell (Some (mk_cell format txt));
  refr_size (set_cell_data t d).

(** [lv_table_set_cell_value] *)
Definition lv_table_set_cell_value (t : lv_table_t) (row col : Z) (txt : string)
  : option lv_table_t :=
  t ← auto_expand t row col;
  write_text t row col txt.

(** [lv_table_set_cell_value_fmt]; [txt] is the text [lv_vsnprintf] produces
    from the format and its arguments. *)
Definition lv_table_set_cell_value_fmt (t : lv_table_t) (row col : Z) (txt : string)
  : option lv_table_t :=
  if col_cnt t <=? col then Some t
  else
    t ← (if row_cnt t <=? row then lv_table_set_row_cnt t (wrap16 (row + 1))
         else Some t);
    write_text t row col txt.

(** The lazy allocation of [lv_table_set_cell_crop] and
    [lv_table_set_cell_merge_right]: an empty text with a zero format byte. *)
Definition ensure_cell (t : lv_table_t) (cell : Z) : option (lv_table_t * cell_t) :=
  p ← load (cell_data t) cell;
  match p with
  | Some c => Some (t, c)
  | None =>
      let c := mk_cell 0 EmptyString in
      d ← store (cell_data t) cell (Some c);
      Some (set_cell_data t d, c)
  end.

(** [lv_table_set_cell_crop] *)
Definition lv_table_set_cell_crop (t : lv_table_t) (row col : Z) (crop : bool)
  : option lv_table_t :=
  t ← auto_expand t row col;
  let cell := row * col_cnt t + col in
  '(t, c) ← ensure_cell t cell;
  let format := fmt_set_crop (format_byte c) crop in
  d ← store (cell_data t) cell (Some (mk_cell format (text c)));
  Some (set_cell_data t d).

(** [lv_table_set_cell_merge_right] *)
Definition lv_table_set_cell_merge_right (t : lv_table_t) (row col : Z) (en : bool)
  : option lv_table_t :=
  t ← auto_expand t row col;
  let cell := row * col_cnt t + col in
  '(t, c) ← ensure_cell t cell;
  let format := fmt_set_right_merge (format_byte c) (if en then true else false) in
  d ← store (cell_data t) cell (Some (mk_cell format (text c)));
  refr_size (set_cell_data t d).

(** *** Getters *)

Definition lv_table_get_cell_value (t : lv_table_t) (row col : Z) : option string :=
  if (row_cnt t <=? row) || (col_cnt t <=? col) then Some EmptyString
  else
    let cell := row * col_cnt t + col in
    p ← load (cell_data t) cell;
    match p with
    | None => Some EmptyString
    | Some c => Some (text c)
    end.

Definition lv_table_get_row_cnt (t : lv_table_t) : Z := row_cnt t.

Definition lv_table_get_col_cnt (t : lv_table_t) : Z := col_cnt t.

Definition lv_table_get_col_width (t : lv_table_t) (col_id : Z) : option Z :=
  if col_cnt t <=? col_id then Some 0 else load (col_w t) col_id.

Definition lv_table_get_cell_crop (t : lv_table_t) (row col : Z) : option bool :=
  if (row_cnt t <=? row) || (col_cnt t <=? col) then Some false
  else
    let cell := row * col_cnt t + col in
    p ← load (cell_data t) cell;
    match p with
    | None => Some false
    | Some c => Some (fmt_crop (format_byte c))
    end.

Definition lv_table_get_cell_merge_right (t : lv_table_t) (row col : Z) : option bool :=
  if (row_cnt t <=? row) || (col_cnt t <=? col) then Some false
  else
    let cell := row * col_cnt t + col in
    p ← load (cell_data t) cell;
    match p with
    | None => Some false
    | Some c => Some (if fmt_right_merge (format_byte c) then true else false)
    end.

(** [lv_table_constructor] with [copy == NULL] *)
Definition lv_table_constructor : lv_table_t :=
  mk_table 1 1 [None] [LV_DPI_DEF e] [LV_DPI_DEF e].

(** *** Sequences of calls *)

(** The setters a host calls on a table. *)
Inductive table_op :=
  | OpSetRowCnt (row_cnt' : Z)
  | OpSetColCnt (col_cnt' : Z)
  | OpSetColWidth (col_id w : Z)
  | OpSetCellValue (row col : Z) (txt : string)
  | OpSetCellValueFmt (row col : Z) (txt : string)
  | OpSetCellCrop (row col : Z) (crop : bool)
  | OpSetCellMergeRight (row col : Z) (en : bool).

Definition run_table_op (t : lv_table_t) (op : table_op) : option lv_table_t :=
  match op with
  | OpSetRowCnt n => lv_table_set_row_cnt t n
  | OpSetColCnt n => lv_table_set_col_cnt t n
  | OpSetColWidth col_id w => lv_table_set_col_width t col_id w
  | OpSetCellValue row col txt => lv_table_set_cell_value t row col txt
  | OpSetCellValueFmt row col txt => lv_table_set_cell_value_fmt t row col txt
  | OpSetCellCrop row col crop => lv_table_set_cell_crop t row col crop
  | OpSetCellMergeRight row col en => lv_table_set_cell_merge_right t row col en
  end.

Fixpoint run_table_ops (t : lv_table_t) (ops : list table_op) : option lv_table_t :=
  match ops with
  | [] => Some t
  | op :: ops => t ← run_table_op t op; run_table_ops t ops
  end.

(** The counts are [uint16_t] arguments. *)
Definition table_op_u16 (op : table_op) : Prop :=
  match op with
  | OpSetRowCnt n | OpSetColCnt n => is_u16 n
  | _ => True
  end.

(** The setters that end with a refresh of the heights: all but
    [lv_table_set_cell_crop]. *)
Definition refreshes (op : table_op) : Prop :=
  match op with
  | OpSetCellCrop _ _ _ => False
  | _ => True
  end.

(** Arguments with which a setter stays inside its [uint16_t] arithmetic:
    the counts are [uint16_t] values, the indices leave room for the count
    one above them, the cell indices of the grid the call makes fit the
    height refresh, and the formatted setter, which does not add columns,
    gets a column of the table. *)
Definition table_op_fits (t : lv_table_t) (op : table_op) : Prop :=
  match op with
  | OpSetRowCnt n => 0 <= n < 65536 /\ n * col_cnt t < 65536
  | OpSetColCnt n => 0 <= n < 65536 /\ row_cnt t * n < 65536
  | OpSetColWidth col_id _ =>
      0 <= col_id < 65535 /\ row_cnt t * Z.max (col_cnt t) (col_id + 1) < 65536
  | OpSetCellValue row col _
  | OpSetCellCrop row col _
  | OpSetCellMergeRight row col _ =>
      0 <= row < 65535 /\ 0 <= col < 65535
      /\ Z.max (row_cnt t) (row + 1) * Z.max (col_cnt t) (col + 1) < 65536
  | OpSetCellValueFmt row col _ =>
      0 <= row < 65535 /\ 0 <= col < col_cnt t
      /\ Z.max (row_cnt t) (row + 1) * col_cnt t < 65536
  end.

(** *** Heights and widths that are coordinates *)

(** What [get_row_height] takes the maximum of fits a coordinate: the height
    of a line with the paddings, and the measured height of the text of every
    cell of the table with the paddings, in whatever width. *)
Definition heights_fit (t : lv_table_t) : Prop :=
  fits_coord (line_height e + cell_top e + cell_bottom e)
  /\ forall i c w, load (cell_data t) i = Some (Some c) ->
       fits_coord (txt_height e (text c) w + cell_top e + cell_bottom e).

(** Every column is wide enough for the paddings to be taken off within a
    coordinate. *)
Definition widths_fit (t : lv_table_t) : Prop :=
  forall j w, load (col_w t) j = Some w ->
    fits_coord (w - (cell_left e + cell_right e)).

(** *** The height of a row without merged cells *)

(** What one cell asks of the height of its row: a line for a [NULL] or a
    cropped cell, the measured height of its text otherwise. *)
Definition cell_height (p : option cell_t) (w : Z) : Z :=
  match p with
  | None => line_height e + cell_top e + cell_bottom e
  | Some c =>
      if fmt_crop (format_byte c) then line_height e + cell_top e + cell_bottom e
      else txt_height e (text c) (w - (cell_left e + cell_right e))
           + cell_top e + cell_bottom e
  end.

(** The largest of what the cells of a row ask, at least one line. *)
Definition max_cell_height (cells : list (option cell_t)) (widths : list Z) : Z :=
  foldl (fun h pw => Z.max (cell_height pw.1 pw.2) h)
        (line_height e + cell_top e + cell_bottom e) (zip cells widths).

End WithEnv.

(** *** [lv_table_get_pressed_cell] *)

Inductive lv_res_t := LV_RES_INV | LV_RES_OK.

(** What [lv_table_get_pressed_cell] reads from the input device and from the
    object: the type of the active device, its point, the top left corner of
    the table and the paddings of its main part. *)
Record pressed_input := mk_pressed {
  indev_type : Roller.lv_indev_type_t;
  point_x : Z;
  point_y : Z;
  coords_x1 : Z;
  coords_y1 : Z;
  pad_left : Z;
  pad_top : Z
}.

(** The scan shared by the column and the row search: add the sizes up until
    the coordinate is below the sum; the index is a [uint16_t], the sum
    [tmp] a coordinate. *)
Fixpoint scan_sizes (fuel : nat) (sizes : list Z) (idx cnt tmp x : Z) : option Z :=
  if idx <? cnt then
    match fuel with
    | O => None
    | S fuel =>
        w ← load sizes idx;
        let tmp := to_coord (tmp + w) in
        if x <? tmp then Some idx
        else scan_sizes fuel sizes (wrap16 (idx + 1)) cnt tmp x
    end
  else Some idx.

(** The result and what is stored through [row] and [col]; [want_row] and
    [want_col] say which of the two pointers are not [NULL]. *)
Definition lv_table_get_pressed_cell (t : lv_table_t) (i : pressed_input)
    (want_row want_col : bool) : option (lv_res_t * option Z * option Z) :=
  match indev_type i with
  | Roller.LV_INDEV_TYPE_POINTER | Roller.LV_INDEV_TYPE_BUTTON =>
      col ← (if want_col then
               let x := to_coord (point_x i - coords_x1 i) in
               let x := to_coord (x - pad_left i) in
               c ← scan_sizes (Z.to_nat (col_cnt t)) (col_w t) 0 (col_cnt t) 0 x;
               Some (Some c)
             else Some None);
      row ← (if want_row then
               let y := to_coord (point_y i - coords_y1 i) in
               let y := to_coord (y - pad_top i) in
               r ← scan_sizes (Z.to_nat (row_cnt t)) (row_h t) 0 (row_cnt t) 0 y;
               Some (Some r)
             else Some None);
      Some (LV_RES_OK, row, col)
  | _ =>
      Some (LV_RES_INV,
            if want_row then Some 65535 else None,
            if want_col then Some 65535 else None)
  end.

(** *** [lv_table_signal], [LV_SIGNAL_GET_SELF_SIZE] *)

Fixpoint sum_loop (n : nat) (i : Z) (sizes : list Z) (acc : Z) : option Z :=
  match n with
  | O => Some acc
  | S n => w ← load sizes i; sum_loop n (i + 1) sizes (to_coord (acc + w))
  end.

(** The point the signal stores: the sum of the widths and of the heights,
    each added up in a coordinate. *)
Definition get_self_size (t : lv_table_t) : option (Z * Z) :=
  w ← sum_loop (Z.to_nat (col_cnt t)) 0 (col_w t) 0;
  h ← sum_loop (Z.to_nat (row_cnt t)) 0 (row_h t) 0;
  Some (w, h).

(** The sum of the first [k] entries of a list of sizes. *)
Definition prefix_sum (sizes : list Z) (k : Z) : Z :=
  foldr Z.add 0 (take (Z.to_nat k) sizes).

(** Every running sum of a list of sizes is a coordinate. *)
Definition sums_fit (sizes : list Z) : Prop :=
  forall k, 0 <= k <= Z.of_nat (length sizes) -> fits_coord (prefix_sum sizes k).

(** The point of the input device relative to the padded corner of the
    table, as the coordinates the function computes it in. *)
Definition pressed_x (i : pressed_input) : Z :=
  to_coord (to_coord (point_x i - coords_x1 i) - pad_left i).

Definition pressed_y (i : pressed_input) : Z :=
  to_coord (to_coord (point_y i - coords_y1 i) - pad_top i).

(** What the three cell getters return for a cell. *)
Definition cell_getters (t : lv_table_t) (row col : Z)
  : option string * option bool * option bool :=
  (lv_table_get_cell_value t row col,
   lv_table_get_cell_crop t row col,
   lv_table_get_cell_merge_right t row col).

(** The cells of a row. *)
Definition row_cells (t : lv_table_t) (row : Z) : list (option cell_t) :=
  take (Z.to_nat (col_cnt t)) (drop (Z.to_nat (row * col_cnt t)) (cell_data t)).

(** *** Well-formed tables *)

(** The invariant of the data model: the three arrays have the sizes the
    counts say. *)
Definition table_wf (t : lv_table_t) : Prop :=
  0 <= col_cnt t /\ 0 <= row_cnt t
  /\ Z.of_nat (length (cell_data t)) = row_cnt t * col_cnt t
  /\ Z.of_nat (length (row_h t)) = row_cnt t
  /\ Z.of_nat (length (col_w t)) = col_cnt t.

(** [get_row_height] keeps the index of a cell in a [uint16_t]: the height
    refresh is defined for grids whose cell indices fit it. *)
Definition fits16 (rows cols : Z) : Prop := rows * cols < 65536.

(** What a refresh of the heights leaves alone. *)
Definition same_cells (t t' : lv_table_t) : Prop :=
  col_cnt t' = col_cnt t /\ row_cnt t' = row_cnt t
  /\ cell_data t' = cell_data t /\ col_w t' = col_w t
  /\ length (row_h t') = length (row_h t).

(** The format byte and the text a cell pointer stands for: those of the
    buffer, or the zero byte and the empty text of a [NULL] cell. *)
Definition cell_format (p : option cell_t) : Z :=
  match p with Some c => format_byte c | None => 0 end.

Definition cell_text (p : option cell_t) : string :=
  match p with Some c => text c | None => EmptyString end.

(** Example inputs: a font of line height 10 whose texts are measured as 10
    per line, no paddings, columns 100 wide, and a zero byte where the text
    setters find their uninitialised [format]. *)
Fixpoint count_lines (s : string) : Z :=
  match s with
  | EmptyString => 1
  | String ch s => (if Ascii.eqb ch nl then 1 else 0) + count_lines s
  end.

Definition example_env : table_env :=
  mk_env 10 (fun s _ => 10 * count_lines s) 0 0 0 0 100 (fun _ _ _ => 0).

Definition three_lines : string :=
  String "x" (String nl (String "y" (String nl (String "z" EmptyString)))).

(** A new table.  Its first row gets the text ["a"] and, in a second column,
    a text of three lines; then the first cell is merged with the second and
    either cropped or not. *)
Definition new_table : lv_table_t := lv_table_constructor example_env.

Definition two_cell_row : option lv_table_t :=
  t ← lv_table_set_cell_value example_env new_table 0 0 "a";
  lv_table_set_cell_value example_env t 0 1 three_lines.

Definition cropped_head_row : option lv_table_t :=
  t ← two_cell_row;
  t ← lv_table_set_cell_crop example_env t 0 0 true;
  lv_table_set_cell_merge_right example_env t 0 0 true.

Definition plain_head_row : option lv_table_t :=
  t ← two_cell_row;
  lv_table_set_cell_merge_right example_env t 0 0 true.

(** The row of two cells with its first cell merged, and with its first
    cell cropped, as the calls above leave them. *)
Definition merged_head_table : lv_table_t :=
  mk_table 2 1 [Some (mk_cell 1 "a"); Some (mk_cell 0 three_lines)] [10] [100; 100].

Definition cropped_cell_table : lv_table_t :=
  mk_table 2 1 [Some (mk_cell 2 "a"); Some (mk_cell 0 three_lines)] [30] [100; 100].

Definition cropped_head_table : lv_table_t :=
  mk_table 2 1 [Some (mk_cell 3 "a"); Some (mk_cell 0 three_lines)] [30] [100; 100].

(** The calls of [cropped_head_row] as a list of setters. *)
Definition example_setters : list table_op :=
  [OpSetCellValue 0 0 "a"; OpSetCellValue 0 1 three_lines;
   OpSetCellCrop 0 0 true; OpSetCellMergeRight 0 0 true].

(** A pointer at a point of a table whose corner is the origin. *)
Definition pointer_at (x y : Z) : pressed_input :=
  mk_pressed Roller.LV_INDEV_TYPE_POINTER x y 0 0 0 0.

(** A table of two rows and two columns with two cells written. *)
Definition two_by_two : lv_table_t :=
  mk_table 2 2 [Some (mk_cell 0 "a"); None; None; Some (mk_cell 2 "d")]
           [10; 10] [100; 100].

End Table.

(* ===================================================================== *)
(** * Properties *)
(* ===================================================================== *)

(** ** Machine integer facts *)

Lemma wrap16_range x : is_u16 (wrap16 x).
Proof. unfold is_u16, wrap16. apply Z.mod_pos_bound. lia. Qed.

Lemma wrap16_id x : is_u16 x -> wrap16 x = x.
Proof. unfold is_u16, wrap16. intros H. apply Z.mod_small. lia. Qed.

Lemma wrap16_idem x : wrap16 (wrap16 x) = wrap16 x.
Proof. apply wrap16_id, wrap16_range. Qed.

Lemma wrap_s16_id x : -32768 <= x < 32768 -> wrap_s16 x = x.
Proof. unfold wrap_s16. intros H. rewrite Z.mod_small; lia. Qed.

Lemma to_coord_id x : fits_coord x -> to_coord x = x.
Proof. apply wrap_s16_id. Qed.

Lemma to_coord_fits x : fits_coord (to_coord x).
Proof.
  unfold fits_coord, to_coord, wrap_s16.
  pose proof (Z.mod_pos_bound (x + 32768) 65536 ltac:(lia)). lia.
Qed.

Lemma fits_coord_max a b : fits_coord a -> fits_coord b -> fits_coord (Z.max a b).
Proof. unfold fits_coord. lia. Qed.

(** ** Arithmetic of pages *)

Module RollerFacts.
Import Roller.

Section Pages.

Variable P : Z.
Hypothesis P_pos : 1 <= P.

Lemma half_pages_lt : P / 2 + 1 <= P.
Proof using P_pos.
  assert (P / 2 < P) by (apply Z.div_lt; lia). lia.
Qed.

Lemma real_cnt_bounds c : 0 <= c -> 0 <= c / P /\ P * (c / P) <= c /\ c / P <= c.
Proof using P_pos.
  intros Hc. split; [apply Z.div_pos; lia|].
  split; [apply Z.mul_div_le; lia|].
  apply Z.div_le_upper_bound; [lia|]. nia.
Qed.

Lemma real_cnt_pos c : P <= c -> 1 <= c / P.
Proof using P_pos. intros Hc. apply Z.div_le_lower_bound; lia. Qed.

Lemma real_cnt_pos_inv c : 0 <= c -> 1 <= c / P -> P <= c.
Proof using P_pos.
  intros Hc H. destruct (real_cnt_bounds c Hc) as (_ & Hm & _). nia.
Qed.

Lemma wrap16_real c : is_u16 c -> wrap16 (c / P) = c / P.
Proof using P_pos.
  intros Hc. apply wrap16_id. unfold is_u16 in *.
  destruct (real_cnt_bounds c) as (? & ? & ?); lia.
Qed.

Lemma middle_page_bound c s :
  0 <= c -> 0 <= s < c / P -> 0 <= s + P / 2 * (c / P) < c.
Proof using P_pos.
  intros Hc Hs. destruct (real_cnt_bounds c Hc) as (H0 & Hm & _).
  pose proof half_pages_lt as Hh.
  assert (0 <= P / 2) by (apply Z.div_pos; lia).
  split; [nia|].
  assert ((P / 2 + 1) * (c / P) <= P * (c / P)) by nia.
  nia.
Qed.

Lemma middle_page_mod s k real : 0 <= s < real -> (s + k * real) mod real = s.
Proof. intros Hs. rewrite Z.mod_add by lia. apply Z.mod_small; lia. Qed.

End Pages.
End RollerFacts.

(** ** Array facts *)

Lemma load_Some_lt {A} (l : list A) i x :
  load l i = Some x -> 0 <= i < Z.of_nat (length l).
Proof.
  unfold load. destruct (Z.leb_spec 0 i); [|discriminate].
  intros Hx%lookup_lt_Some. lia.
Qed.

Lemma load_lt_Some {A} (l : list A) i :
  0 <= i < Z.of_nat (length l) -> exists x, load l i = Some x.
Proof.
  intros Hi. unfold load. destruct (Z.leb_spec 0 i); [|lia].
  apply lookup_lt_is_Some. lia.
Qed.

Lemma load_ge_None {A} (l : list A) i : Z.of_nat (length l) <= i -> load l i = None.
Proof.
  intros Hi. unfold load. destruct (Z.leb_spec 0 i); [|reflexivity].
  apply lookup_ge_None. lia.
Qed.

Lemma load_cons_0 {A} (x : A) l : load (x :: l) 0 = Some x.
Proof. reflexivity. Qed.

Lemma load_cons_pos {A} (x : A) l i : 0 < i -> load (x :: l) i = load l (i - 1).
Proof.
  intros Hi. unfold load.
  destruct (Z.leb_spec 0 i); [|lia]. destruct (Z.leb_spec 0 (i - 1)); [|lia].
  replace (Z.to_nat i) with (S (Z.to_nat (i - 1))) by lia. reflexivity.
Qed.

Lemma store_spec {A} (l : list A) i x :
  0 <= i < Z.of_nat (length l) ->
  exists l', store l i x = Some l' /\ length l' = length l
             /\ load l' i = Some x
             /\ (forall j, j <> i -> load l' j = load l j).
Proof.
  intros Hi. unfold store.
  destruct (Z.leb_spec 0 i); [|lia]. destruct (Z.ltb_spec i (Z.of_nat (length l))); [|lia].
  cbn. eexists; split; [reflexivity|]. split; [apply length_insert|]. split.
  - unfold load. destruct (Z.leb_spec 0 i); [|lia].
    apply list_lookup_insert_eq. lia.
  - intros j Hj. unfold load. destruct (Z.leb_spec 0 j); [|reflexivity].
    apply list_lookup_insert_ne. lia.
Qed.

Lemma store_Some_inv {A} (l l' : list A) i x :
  store l i x = Some l' ->
  0 <= i < Z.of_nat (length l) /\ l' = <[Z.to_nat i := x]> l.
Proof.
  unfold store.
  destruct (Z.leb_spec 0 i); [|discriminate].
  destruct (Z.ltb_spec i (Z.of_nat (length l))); [|discriminate].
  cbn. intros [= <-]. split; [lia|reflexivity].
Qed.

(** ** The roller: selection state *)

Module RollerProofs.
Import Roller RollerFacts.

Section Pages.

Variable P : Z.
Hypothesis P_pos : 1 <= P.

Lemma inf_normalize_infinite r :
  is_infinite r = true -> is_u16 (option_cnt r) -> P <= option_cnt r ->
  inf_normalize P r =
    Some (set_ori (set_sel r (middle_page_id P r)) (middle_page_id P r)).
Proof using P_pos.
  intros Hm Hc Hp. unfold inf_normalize, middle_page_id. rewrite Hm.
  rewrite wrap16_real by assumption.
  pose proof (real_cnt_pos P P_pos _ Hp) as Hr.
  destruct (Z.eqb_spec (option_cnt r / P) 0) as [E|_]; [lia|].
  assert (Hle : option_cnt r / P <= option_cnt r)
    by (apply real_cnt_bounds; unfold is_u16 in Hc; lia).
  set (real := option_cnt r / P) in *.
  assert (Hs : 0 <= sel_opt_id r mod real < real) by (apply Z.mod_pos_bound; lia).
  assert (Hb : 0 <= sel_opt_id r mod real + P / 2 * real < option_cnt r).
  { apply middle_page_bound; unfold is_u16 in Hc; try lia. }
  rewrite (wrap16_id (sel_opt_id r mod real)) by (unfold is_u16 in *; lia).
  rewrite (wrap16_id (sel_opt_id r mod real + _)) by (unfold is_u16 in *; lia).
  rewrite middle_page_mod by exact Hs.
  rewrite (wrap16_id (sel_opt_id r mod real)) by (unfold is_u16 in *; lia).
  rewrite (wrap16_id (sel_opt_id r mod real + _)) by (unfold is_u16 in *; lia).
  reflexivity.
Qed.

Lemma inf_normalize_normal r : is_infinite r = false -> inf_normalize P r = Some r.
Proof. intros Hm. unfold inf_normalize. now rewrite Hm. Qed.

Lemma middle_page_id_bounds r :
  is_u16 (option_cnt r) -> P <= option_cnt r ->
  0 <= middle_page_id P r < option_cnt r.
Proof using P_pos.
  intros Hc Hp. unfold middle_page_id.
  pose proof (real_cnt_pos P P_pos _ Hp) as Hr.
  apply middle_page_bound; unfold is_u16 in Hc; try lia.
  apply Z.mod_pos_bound; lia.
Qed.

Lemma middle_page_id_mod r :
  P <= option_cnt r ->
  middle_page_id P r mod (option_cnt r / P) = sel_opt_id r mod (option_cnt r / P).
Proof using P_pos.
  intros Hp. unfold middle_page_id.
  pose proof (real_cnt_pos P P_pos _ Hp) as Hr.
  apply middle_page_mod. apply Z.mod_pos_bound; lia.
Qed.

Lemma same_options_refl r : same_options r r.
Proof. unfold same_options. tauto. Qed.

Ltac same_opts := unfold same_options; cbn; tauto.

Lemma same_options_trans r1 r2 r3 :
  same_options r1 r2 -> same_options r2 r3 -> same_options r1 r3.
Proof. unfold same_options. intuition congruence. Qed.

(** The invariant only looks at the count, the mode and the two ids. *)
Lemma roller_inv_ext r r' :
  roller_inv P r -> option_cnt r' = option_cnt r -> mode r' = mode r ->
  0 <= sel_opt_id r' < option_cnt r -> 0 <= sel_opt_id_ori r' < option_cnt r ->
  roller_inv P r'.
Proof.
  unfold roller_inv, is_infinite. intros (Hc & Hs & Ho & Hi) -> -> ? ?. tauto.
Qed.

(** The normalizer keeps the invariant, the count and the mode. *)
Lemma inf_normalize_inv r :
  roller_inv P r ->
  exists r', inf_normalize P r = Some r' /\ roller_inv P r' /\ same_options r r'.
Proof using P_pos.
  intros Hinv. pose proof Hinv as (Hc & Hs & Ho & Hi).
  destruct (is_infinite r) eqn:Hm.
  - rewrite inf_normalize_infinite by auto.
    eexists; split; [reflexivity|].
    pose proof (middle_page_id_bounds r Hc (Hi eq_refl)) as Hb.
    split; [|same_opts].
    apply (roller_inv_ext r); auto.
  - rewrite inf_normalize_normal by auto.
    exists r. auto using same_options_refl.
Qed.

Lemma refr_position_inv r anim :
  roller_inv P r ->
  exists r', refr_position P r anim = Some r' /\ roller_inv P r' /\ same_options r r'.
Proof using P_pos.
  intros Hinv. unfold refr_position.
  destruct (negb anim || (anim_time r =? 0)).
  - now apply inf_normalize_inv.
  - exists r. auto using same_options_refl.
Qed.

(** In infinite mode the page offset is subtracted and added again: the id
    that reaches the clamp is the argument. *)
Lemma page_offset_cancels page id :
  wrap16 (page * P + (if negb (page =? 0) then wrap16 id - page * P else wrap16 id))
  = wrap16 id.
Proof.
  destruct (Z.eqb_spec page 0) as [->|Hne]; cbn.
  - rewrite Z.mul_0_l, Z.add_0_l. apply wrap16_idem.
  - replace (page * P + (wrap16 id - page * P)) with (wrap16 id) by ring.
    apply wrap16_idem.
Qed.

Lemma set_selected_unfold r id anim :
  lv_roller_set_selected P r id anim =
  refr_position P (set_ori (set_sel r (clamp_id r id)) (clamp_id r id)) anim.
Proof.
  unfold lv_roller_set_selected, clamp_id.
  destruct (is_infinite r); [rewrite page_offset_cancels|]; reflexivity.
Qed.

Lemma clamp_id_bounds r id :
  is_u16 (option_cnt r) -> 1 <= option_cnt r -> 0 <= clamp_id r id < option_cnt r.
Proof.
  intros Hc H1. unfold clamp_id.
  pose proof (wrap16_range id) as Hw. unfold is_u16 in *.
  destruct (Z.ltb_spec (wrap16 id) (option_cnt r)); [lia|].
  rewrite wrap16_id by (unfold is_u16; lia). lia.
Qed.

Lemma set_selected_inv r id anim :
  roller_inv P r ->
  exists r', lv_roller_set_selected P r id anim = Some r'
             /\ roller_inv P r' /\ same_options r r'.
Proof using P_pos.
  intros Hinv. rewrite set_selected_unfold.
  pose proof Hinv as (Hc & Hs & Ho & Hi).
  pose proof (clamp_id_bounds r id Hc ltac:(lia)) as Hb.
  destruct (refr_position_inv (set_ori (set_sel r (clamp_id r id)) (clamp_id r id)) anim)
    as (r' & E & Hinv' & Hsame).
  { apply (roller_inv_ext r); auto. }
  exists r'. split; [exact E|]. split; [exact Hinv'|].
  eapply same_options_trans; [|exact Hsame]. same_opts.
Qed.

(** Restoring the snapshot after a directional move keeps the invariant. *)
Lemma set_ori_inv r r0 :
  roller_inv P r -> option_cnt r = option_cnt r0 ->
  0 <= sel_opt_id_ori r0 < option_cnt r0 ->
  roller_inv P (set_ori r (sel_opt_id_ori r0)).
Proof.
  intros Hinv Hc Ho. pose proof Hinv as (? & ? & ? & ?).
  apply (roller_inv_ext r); cbn; auto; lia.
Qed.

Lemma release_handler_inv r indev p :
  roller_inv P r -> (label_unit p =? 0) = false ->
  exists r', release_handler P r indev p = Some r'
             /\ roller_inv P r' /\ same_options r r'.
Proof using P_pos.
  intros Hinv Hu. pose proof Hinv as (Hc & Hs & Ho & Hi).
  unfold release_handler.
  destruct indev; cbn.
  - exists r; auto using same_options_refl.
  - rewrite Hu.
    match goal with
    | |- context [mbind _ ?m] => destruct m as [new_opt|] eqn:E
    end; [|destruct (negb (moved r)); discriminate].
    cbn. destruct (0 <=? new_opt).
    + now apply set_selected_inv.
    + exists r; auto using same_options_refl.
  - eexists; split; [reflexivity|]. split; [|same_opts].
    apply (roller_inv_ext r); cbn; auto.
  - rewrite Hu.
    match goal with
    | |- context [mbind _ ?m] => destruct m as [new_opt|] eqn:E
    end; [|destruct (negb (moved r)); discriminate].
    cbn. destruct (0 <=? new_opt).
    + now apply set_selected_inv.
    + exists r; auto using same_options_refl.
  - eexists; split; [reflexivity|].
    destruct (editing r); (split; [|same_opts]);
      apply (roller_inv_ext r); cbn; auto.
Qed.

Lemma control_step_inv r id :
  roller_inv P r ->
  exists r', (r1 ← lv_roller_set_selected P r id true;
              Some (set_ori r1 (sel_opt_id_ori r))) = Some r'
             /\ roller_inv P r' /\ same_options r r'.
Proof using P_pos.
  intros Hinv. destruct (set_selected_inv r id true Hinv) as (r1 & E & Hinv1 & Hsame).
  rewrite E. cbn. eexists; split; [reflexivity|].
  pose proof Hinv as (? & ? & ? & ?). destruct Hsame as (Hc & ? & ? & ?).
  split.
  - apply set_ori_inv; auto.
  - unfold same_options; cbn. tauto.
Qed.

Lemma revert_inv r anim :
  roller_inv P r ->
  exists r', refr_position P (set_sel r (sel_opt_id_ori r)) anim = Some r'
             /\ roller_inv P r' /\ same_options r r'.
Proof using P_pos.
  intros Hinv. pose proof Hinv as (? & ? & ? & ?).
  destruct (refr_position_inv (set_sel r (sel_opt_id_ori r)) anim)
    as (r' & E & Hinv' & Hsame).
  { apply (roller_inv_ext r); cbn; auto. }
  exists r'. auto.
Qed.

Lemma signal_inv r sign :
  roller_inv P r -> op_defined (OpSignal sign) = true ->
  exists r', lv_roller_signal P r sign = Some r'
             /\ roller_inv P r' /\ same_options r r'.
Proof using P_pos.
  intros Hinv Hd. pose proof Hinv as (Hc & Hs & Ho & Hi).
  assert (Hkeep : forall r', option_cnt r' = option_cnt r -> mode r' = mode r ->
            label_text r' = label_text r -> anim_time r' = anim_time r ->
            sel_opt_id r' = sel_opt_id r ->
            (sel_opt_id_ori r' = sel_opt_id_ori r \/ sel_opt_id_ori r' = sel_opt_id r) ->
            exists r'', Some r' = Some r'' /\ roller_inv P r'' /\ same_options r r'').
  { intros r' E1 E2 E3 E4 E5 E6. exists r'. split; [reflexivity|]. split.
    - apply (roller_inv_ext r); auto; destruct E6; lia.
    - unfold same_options; tauto. }
  destruct sign as [ |chg| |vy|indev p|indev| |c| ]; cbn.
  - exact (refr_position_inv r false Hinv).
  - destruct chg; [exact (refr_position_inv r false Hinv) | apply Hkeep; auto].
  - apply Hkeep; auto.
  - destruct (negb (vy =? 0)); apply Hkeep; auto.
  - apply release_handler_inv; auto. cbn in Hd. now apply negb_true_iff in Hd.
  - destruct indev; try (apply Hkeep; cbn; auto).
    destruct (negb (editing r)); [|apply Hkeep; cbn; auto].
    destruct (negb (sel_opt_id r =? sel_opt_id_ori r));
      [now apply revert_inv | apply Hkeep; auto].
  - destruct (negb (sel_opt_id r =? sel_opt_id_ori r));
      [now apply revert_inv | apply Hkeep; auto].
  - destruct c.
    + destruct (0 <? sel_opt_id r); [now apply control_step_inv | apply Hkeep; auto].
    + destruct (sel_opt_id r + 1 <? option_cnt r);
        [now apply control_step_inv | apply Hkeep; auto].
    + destruct (sel_opt_id r + 1 <? option_cnt r);
        [now apply control_step_inv | apply Hkeep; auto].
    + destruct (0 <? sel_opt_id r); [now apply control_step_inv | apply Hkeep; auto].
    + apply Hkeep; auto.
  - apply Hkeep; auto.
Qed.

Lemma run_op_inv r op :
  roller_inv P r -> op_defined op = true ->
  exists r', run_op P r op = Some r' /\ roller_inv P r' /\ same_options r r'.
Proof using P_pos.
  intros Hinv Hd. destruct op; cbn.
  - now apply set_selected_inv.
  - now apply signal_inv.
  - now apply inf_normalize_inv.
Qed.

Lemma run_ops_inv ops : forall r,
  roller_inv P r -> forallb op_defined ops = true ->
  exists r', run_ops P r ops = Some r' /\ roller_inv P r' /\ same_options r r'.
Proof using P_pos.
  induction ops as [|op ops IH]; intros r Hinv Hd; cbn.
  - exists r. auto using same_options_refl.
  - cbn in Hd. apply andb_true_iff in Hd as [Hd1 Hd2].
    destruct (run_op_inv r op Hinv Hd1) as (r1 & E1 & Hinv1 & Hs1).
    rewrite E1. cbn.
    destruct (IH r1 Hinv1 Hd2) as (r2 & E2 & Hinv2 & Hs2).
    exists r2. eauto using same_options_trans.
Qed.

Lemma set_options_inv r opts m r0 :
  lv_roller_set_options P r opts m = Some r0 -> 1 <= option_cnt r0 ->
  roller_inv P r0.
Proof using P_pos.
  unfold lv_roller_set_options. destruct m.
  - intros [= <-] H1. cbn in *.
    unfold roller_inv, is_infinite; cbn.
    pose proof (wrap16_range (count_nl opts 0 + 1)). split; [assumption|].
    repeat split; try lia; discriminate.
  - destruct (pages_loop P 256 opts 0 0) as [opt_extra|]; [|discriminate].
    cbn [mbind option_bind].
    set (r2 := set_cnt _ _).
    destruct (inf_normalize P r2) as [r3|] eqn:E; [|discriminate].
    cbn. intros [= <-] H1.
    assert (Hc2 : is_u16 (option_cnt r2)) by apply wrap16_range.
    assert (Hp : P <= option_cnt r2).
    { unfold inf_normalize in E. change (is_infinite r2) with true in E. cbn iota in E.
      rewrite wrap16_real in E by assumption.
      destruct (Z.eqb_spec (option_cnt r2 / P) 0) as [|Hne]; [discriminate|].
      unfold is_u16 in Hc2.
      apply real_cnt_pos_inv; try lia.
      pose proof (real_cnt_bounds P P_pos (option_cnt r2)). lia. }
    rewrite inf_normalize_infinite in E by (auto).
    injection E as <-.
    pose proof (middle_page_id_bounds r2 Hc2 Hp).
    unfold roller_inv, is_infinite; cbn. tauto.
Qed.

(** C4: on every roller that [lv_roller_set_options] has set up with at least
    one option, every sequence of operations (set_selected, the signals:
    control keys, focus and defocus, press and release, style and size
    changes, and the wraparound normalizer) completes and leaves
    [0 <= sel_opt_id < option_cnt], the count being unchanged. *)
Theorem selection_stays_in_range r opts m r0 ops :
  lv_roller_set_options P r opts m = Some r0 ->
  1 <= option_cnt r0 ->
  forallb op_defined ops = true ->
  exists r', run_ops P r0 ops = Some r'
             /\ 0 <= sel_opt_id r' < option_cnt r'
             /\ option_cnt r' = option_cnt r0.
Proof using P_pos.
  intros Hset H1 Hd.
  pose proof (set_options_inv _ _ _ _ Hset H1) as Hinv.
  destruct (run_ops_inv ops r0 Hinv Hd) as (r' & E & (Hc & Hs & _) & (Hcnt & _)).
  exists r'. auto.
Qed.

(** In infinite mode [lv_roller_set_selected] takes the page of the stored id
    ([sel_opt_id / LV_ROLLER_INF_PAGES]), subtracts the page offset from the
    id and adds it again, and only then clamps: for every argument the call
    is the position refresh of the roller with the clamped argument stored.
    For every [id] below the logical option count the call completes, the
    selected logical option is then [id], and the stored absolute id is [id]
    itself while an animation runs and [id] on the middle page once the
    normalizer has run. *)
Theorem set_selected_infinite_selects r id anim :
  is_infinite r = true ->
  is_u16 (option_cnt r) ->
  0 <= id < lv_roller_get_option_cnt P r ->
  exists r', lv_roller_set_selected P r id anim = Some r'
    /\ lv_roller_get_selected P r' = Some id
    /\ lv_roller_get_option_cnt P r' = lv_roller_get_option_cnt P r
    /\ sel_opt_id r' =
         (if negb anim || (anim_time r =? 0)
          then id + (P / 2) * (option_cnt r / P) else id)
    /\ (forall id', lv_roller_set_selected P r id' anim =
           refr_position P (set_ori (set_sel r (clamp_id r id')) (clamp_id r id')) anim).
Proof using P_pos.
  intros Hm Hc Hid.
  cut (exists r', lv_roller_set_selected P r id anim = Some r'
         /\ lv_roller_get_selected P r' = Some id
         /\ lv_roller_get_option_cnt P r' = lv_roller_get_option_cnt P r
         /\ sel_opt_id r' =
              (if negb anim || (anim_time r =? 0)
               then id + (P / 2) * (option_cnt r / P) else id)).
  { intros (r' & H1 & H2 & H3 & H4). exists r'.
    repeat (split; [assumption|]). intros id'. apply set_selected_unfold. }
  unfold lv_roller_get_option_cnt in Hid. rewrite Hm in Hid.
  rewrite wrap16_real in Hid by assumption.
  assert (Hp : P <= option_cnt r).
  { unfold is_u16 in Hc. apply real_cnt_pos_inv; lia. }
  destruct (real_cnt_bounds P P_pos (option_cnt r)) as (_ & _ & Hle);
    [unfold is_u16 in Hc; lia|].
  assert (Hcl : clamp_id r id = id).
  { unfold clamp_id. rewrite wrap16_id by (unfold is_u16 in *; lia).
    destruct (Z.ltb_spec id (option_cnt r)); lia. }
  rewrite set_selected_unfold, Hcl. unfold refr_position. cbn [anim_time set_ori set_sel].
  set (r1 := set_ori (set_sel r id) id).
  assert (Hget : forall r2, mode r2 = mode r -> option_cnt r2 = option_cnt r ->
            sel_opt_id r2 mod (option_cnt r / P) = id ->
            lv_roller_get_selected P r2 = Some id
            /\ lv_roller_get_option_cnt P r2 = lv_roller_get_option_cnt P r).
  { intros r2 Hm2 Hc2 Hv. unfold lv_roller_get_selected, lv_roller_get_option_cnt.
    unfold is_infinite in *. rewrite Hm2, Hc2. rewrite Hm.
    rewrite wrap16_real by assumption.
    destruct (Z.eqb_spec (option_cnt r / P) 0); [lia|].
    rewrite Hv. rewrite wrap16_id by (unfold is_u16 in *; lia). auto. }
  destruct (negb anim || (anim_time r =? 0)).
  - rewrite inf_normalize_infinite by auto.
    unfold middle_page_id. cbn [option_cnt set_ori set_sel sel_opt_id r1].
    rewrite (Z.mod_small id) by lia.
    eexists; split; [reflexivity|].
    apply and_assoc. split; [|reflexivity].
    apply Hget; [reflexivity..|]. apply middle_page_mod. lia.
  - exists r1. split; [reflexivity|].
    apply and_assoc. split; [|reflexivity].
    apply Hget; [reflexivity..|]. apply Z.mod_small. cbn. lia.
Qed.

(** C2, as the code has it: in infinite mode [lv_roller_get_selected] returns
    the stored absolute id modulo the logical option count
    [option_cnt / LV_ROLLER_INF_PAGES], and [lv_roller_get_option_cnt]
    returns [option_cnt / LV_ROLLER_INF_PAGES]. *)
Theorem getters_infinite_logical r :
  is_infinite r = true ->
  is_u16 (option_cnt r) ->
  P <= option_cnt r ->
  lv_roller_get_selected P r = Some (sel_opt_id r mod (option_cnt r / P))
  /\ lv_roller_get_option_cnt P r = option_cnt r / P.
Proof using P_pos.
  intros Hm Hc Hp. unfold lv_roller_get_selected, lv_roller_get_option_cnt.
  rewrite Hm, wrap16_real by assumption.
  pose proof (real_cnt_pos P P_pos _ Hp) as Hr.
  destruct (real_cnt_bounds P P_pos (option_cnt r)) as (_ & _ & Hle);
    [unfold is_u16 in Hc; lia|].
  destruct (Z.eqb_spec (option_cnt r / P) 0); [lia|].
  split; [|reflexivity]. f_equal. apply wrap16_id.
  pose proof (Z.mod_pos_bound (sel_opt_id r) (option_cnt r / P) ltac:(lia)).
  unfold is_u16 in *. lia.
Qed.

(** C7: in infinite mode the normalizer completes, running it again changes
    nothing, and the id it stores, for the selection and for its snapshot, is
    [(sel_opt_id mod real_id_cnt) + (LV_ROLLER_INF_PAGES / 2) * real_id_cnt]
    with [real_id_cnt = option_cnt / LV_ROLLER_INF_PAGES]. *)
Theorem inf_normalize_idempotent r :
  is_infinite r = true ->
  is_u16 (option_cnt r) ->
  P <= option_cnt r ->
  exists r1, inf_normalize P r = Some r1
    /\ inf_normalize P r1 = Some r1
    /\ sel_opt_id r1 =
         sel_opt_id r mod (option_cnt r / P) + (P / 2) * (option_cnt r / P)
    /\ sel_opt_id_ori r1 = sel_opt_id r1.
Proof using P_pos.
  intros Hm Hc Hp.
  rewrite inf_normalize_infinite by auto.
  eexists; split; [reflexivity|]. split; [|split; reflexivity].
  set (m := middle_page_id P r).
  assert (Hfix : middle_page_id P (set_ori (set_sel r m) m) = m).
  { unfold middle_page_id at 1. cbn [option_cnt sel_opt_id set_ori set_sel].
    unfold m. now rewrite middle_page_id_mod. }
  rewrite inf_normalize_infinite by auto.
  rewrite Hfix. reflexivity.
Qed.

End Pages.

(** *** The theorems at five pages *)

Lemma selection_stays_in_range_witness :
  exists r', run_ops 5 abc_infinite
               [OpSetSelected 14 true; OpSignal (LV_SIGNAL_CONTROL LV_KEY_RIGHT);
                OpAnimReady; OpSetSelected 1 false; OpSignal LV_SIGNAL_DEFOCUS;
                OpSignal (LV_SIGNAL_RELEASED LV_INDEV_TYPE_POINTER (mk_pointer 3 50 0 10))]
             = Some r'
             /\ 0 <= sel_opt_id r' < option_cnt r'
             /\ option_cnt r' = option_cnt abc_infinite.
Proof.
  apply (selection_stays_in_range 5 ltac:(lia) blank_roller abc_options
           LV_ROLLER_MODE_INFINITE abc_infinite).
  - reflexivity.
  - cbn. lia.
  - reflexivity.
Defined.

(** C1: the code does not put the id on the displayed page.  The roller that
    [lv_roller_set_options] makes of ["A\nB\nC"] with five pages stores the
    id 6 and shows the page of the ids 6 to 8, the third of the five.
    [lv_roller_set_selected] with the id 2 and an animation takes the page
    [6 / 5 = 1], subtracts its offset from the id and adds it again, and
    stores 2, an id of the first page; the id of option 2 on the displayed
    page is 8. *)
Theorem set_selected_leaves_displayed_page :
  lv_roller_set_options 5 blank_roller abc_options LV_ROLLER_MODE_INFINITE
    = Some abc_infinite
  /\ sel_opt_id abc_infinite = 6
  /\ sel_opt_id abc_infinite / lv_roller_get_option_cnt 5 abc_infinite = 2
  /\ exists r', lv_roller_set_selected 5 abc_infinite 2 true = Some r'
       /\ sel_opt_id r' = 2
       /\ sel_opt_id_ori r' = 2
       /\ sel_opt_id r' / lv_roller_get_option_cnt 5 r' = 0
       /\ sel_opt_id r' <> 2 * lv_roller_get_option_cnt 5 abc_infinite + 2.
Proof.
  split; [reflexivity|]. split; [reflexivity|]. split; [reflexivity|].
  eexists. split; [reflexivity|]. repeat split. discriminate.
Qed.

Lemma set_selected_infinite_selects_witness :
  exists r', lv_roller_set_selected 5 abc_infinite 2 true = Some r'
    /\ lv_roller_get_selected 5 r' = Some 2
    /\ lv_roller_get_option_cnt 5 r' = lv_roller_get_option_cnt 5 abc_infinite
    /\ sel_opt_id r' =
         (if negb true || (anim_time abc_infinite =? 0)
          then 2 + (5 / 2) * (option_cnt abc_infinite / 5) else 2)
    /\ (forall id', lv_roller_set_selected 5 abc_infinite id' true =
           refr_position 5 (set_ori (set_sel abc_infinite (clamp_id abc_infinite id'))
                                    (clamp_id abc_infinite id')) true).
Proof.
  apply (set_selected_infinite_selects 5 ltac:(lia) abc_infinite 2 true).
  - reflexivity.
  - unfold is_u16. cbn. lia.
  - vm_compute. split; [discriminate | reflexivity].
Defined.

(** C2, the claim as stated fails: for the roller that [lv_roller_set_options]
    makes of ["A\nB\nC"] in infinite mode the stored id is 6, the getter
    returns 0, and 6 divided by the five pages is 1. *)
Lemma get_selected_is_not_quotient :
  lv_roller_set_options 5 blank_roller abc_options LV_ROLLER_MODE_INFINITE
    = Some abc_infinite
  /\ lv_roller_get_selected 5 abc_infinite = Some 0
  /\ lv_roller_get_selected 5 abc_infinite <> Some (sel_opt_id abc_infinite / 5).
Proof. repeat split; [reflexivity.. | discriminate]. Qed.

Lemma getters_infinite_logical_witness :
  lv_roller_get_selected 5 abc_infinite
    = Some (sel_opt_id abc_infinite mod (option_cnt abc_infinite / 5))
  /\ lv_roller_get_option_cnt 5 abc_infinite = option_cnt abc_infinite / 5.
Proof.
  apply (getters_infinite_logical 5 ltac:(lia) abc_infinite).
  - reflexivity.
  - unfold is_u16. cbn. lia.
  - cbn. lia.
Defined.

Lemma inf_normalize_idempotent_witness :
  exists r1, inf_normalize 5 (set_sel abc_infinite 14) = Some r1
    /\ inf_normalize 5 r1 = Some r1
    /\ sel_opt_id r1 =
         sel_opt_id (set_sel abc_infinite 14) mod (option_cnt (set_sel abc_infinite 14) / 5)
         + (5 / 2) * (option_cnt (set_sel abc_infinite 14) / 5)
    /\ sel_opt_id_ori r1 = sel_opt_id r1.
Proof.
  apply (inf_normalize_idempotent 5 ltac:(lia) (set_sel abc_infinite 14)).
  - reflexivity.
  - unfold is_u16. cbn. lia.
  - cbn. lia.
Defined.

End RollerProofs.

(** ** The roller: the selected text *)

Module RollerText.
Import Roller.

Lemma skip_to_line_nth txt : forall line sel,
  0 <= line <= sel -> sel < 65536 ->
  line_of (skip_to_line txt line sel) = nth_line txt (Z.to_nat (sel - line)).
Proof.
  induction txt as [|ch rest IH]; intros line sel Hl Hs; [reflexivity|].
  cbn [skip_to_line]. destruct (Z.eqb_spec line sel) as [->|Hne].
  - rewrite Z.sub_diag. reflexivity.
  - cbn [nth_line]. replace (Z.to_nat (sel - line)) with (S (Z.to_nat (sel - (line + 1)))) by lia.
    destruct (Ascii.eqb ch nl).
    + rewrite wrap16_id by (unfold is_u16; lia). apply IH; lia.
    + rewrite IH by lia. f_equal. lia.
Qed.

Lemma copy_line_spec buf_size :
  0 < buf_size ->
  forall txt c buf,
    0 <= c <= buf_size - 1 -> buf_size <= Z.of_nat (length buf) ->
    exists buf',
      copy_line txt c buf_size buf
        = Some (c + Z.min (Z.of_nat (length (line_of txt))) (buf_size - 1 - c), buf')
      /\ length buf' = length buf
      /\ (forall j, 0 <= j < Z.min (Z.of_nat (length (line_of txt))) (buf_size - 1 - c) ->
            load buf' (c + j) = load (line_of txt) j)
      /\ (forall j, j < c \/
                    c + Z.min (Z.of_nat (length (line_of txt))) (buf_size - 1 - c) <= j ->
            load buf' j = load buf j).
Proof.
  intros Hsz. induction txt as [|ch rest IH]; intros c buf Hc Hlen.
  - cbn. exists buf. rewrite Z.min_l by lia. rewrite Z.add_0_r.
    repeat split; auto; intros; lia.
  - cbn [copy_line line_of]. destruct (Ascii.eqb ch nl).
    { cbn. exists buf. rewrite Z.min_l by lia. rewrite Z.add_0_r.
      repeat split; auto; intros; lia. }
    destruct (Z.eqb_spec buf_size 0); [lia|]. cbn [negb andb].
    destruct (Z.leb_spec (buf_size - 1) c).
    { exists buf. rewrite Z.min_r by lia.
      replace (c + (buf_size - 1 - c)) with c by lia.
      repeat split; auto; try f_equal; intros; lia. }
    destruct (store_spec buf c ch ltac:(lia)) as (buf1 & E1 & Hl1 & Hat & Hother).
    rewrite E1. cbn [mbind option_bind].
    destruct (IH (c + 1) buf1 ltac:(lia) ltac:(lia)) as (buf' & E & Hl & Hcopy & Hrest).
    exists buf'.
    assert (Hk : Z.min (Z.of_nat (length (ch :: line_of rest))) (buf_size - 1 - c)
                 = 1 + Z.min (Z.of_nat (length (line_of rest))) (buf_size - 1 - (c + 1))).
    { cbn [length]. lia. }
    rewrite Hk. split; [rewrite E; do 2 f_equal; lia|].
    split; [congruence|]. split.
    + intros j Hj. destruct (Z.eq_dec j 0) as [->|Hj0].
      * rewrite Z.add_0_r, load_cons_0, Hrest by lia. exact Hat.
      * rewrite load_cons_pos by lia. rewrite <- Hcopy by lia. f_equal. lia.
    + intros j Hj. rewrite Hrest by lia. apply Hother. lia.
Qed.

(** C8: with [buf_size > 0] and a buffer of at least [buf_size] bytes,
    [lv_roller_get_selected_str] completes; it copies the first
    [min (length of the selected line) (buf_size - 1)] bytes of the selected
    line, a longer line being cut short, writes ['\0'] right after them, at
    an index below [buf_size], and leaves the rest of the buffer alone. *)
Theorem get_selected_str_truncates r buf buf_size :
  is_u16 (sel_opt_id r) ->
  0 < buf_size ->
  buf_size <= Z.of_nat (length buf) ->
  let line := nth_line (label_text r) (Z.to_nat (sel_opt_id r)) in
  let c := Z.min (Z.of_nat (length line)) (buf_size - 1) in
  exists buf',
    lv_roller_get_selected_str r buf buf_size = Some (c, buf')
    /\ 0 <= c <= buf_size - 1
    /\ length buf' = length buf
    /\ (forall j, 0 <= j < c -> load buf' j = load line j)
    /\ load buf' c = Some zero
    /\ (forall j, c < j -> load buf' j = load buf j).
Proof.
  intros Hsel Hsz Hlen line c. unfold lv_roller_get_selected_str.
  destruct (copy_line_spec buf_size Hsz
              (skip_to_line (label_text r) 0 (sel_opt_id r)) 0 buf ltac:(lia) Hlen)
    as (buf1 & E & Hl1 & Hcopy & Hrest).
  rewrite skip_to_line_nth in E, Hcopy, Hrest by (unfold is_u16 in Hsel; lia).
  rewrite Z.sub_0_r in E, Hcopy, Hrest. fold line in E, Hcopy, Hrest.
  rewrite Z.sub_0_r in E, Hcopy, Hrest. rewrite Z.add_0_l in E, Hrest.
  fold c in E, Hcopy, Hrest.
  rewrite E. cbn [mbind option_bind].
  assert (Hc : 0 <= c <= buf_size - 1) by (unfold c; lia).
  destruct (store_spec buf1 c zero ltac:(lia)) as (buf' & E' & Hl' & Hat & Hother).
  rewrite E'. cbn. exists buf'. split; [reflexivity|]. split; [exact Hc|].
  split; [congruence|]. split; [|split].
  - intros j Hj. rewrite Hother by lia. apply (Hcopy j Hj).
  - exact Hat.
  - intros j Hj. rewrite Hother by lia. apply Hrest. lia.
Qed.

Lemma get_selected_str_truncates_witness :
  let r := set_sel abc_infinite 7 in
  let buf := replicate 4 "x"%char in
  let line := nth_line (label_text r) (Z.to_nat (sel_opt_id r)) in
  let c := Z.min (Z.of_nat (length line)) (4 - 1) in
  exists buf',
    lv_roller_get_selected_str r buf 4 = Some (c, buf')
    /\ 0 <= c <= 4 - 1
    /\ length buf' = length buf
    /\ (forall j, 0 <= j < c -> load buf' j = load line j)
    /\ load buf' c = Some zero
    /\ (forall j, c < j -> load buf' j = load buf j).
Proof.
  apply (get_selected_str_truncates (set_sel abc_infinite 7) (replicate 4 "x"%char) 4).
  - unfold is_u16. cbn. lia.
  - lia.
  - cbn. lia.
Defined.

End RollerText.

(** ** The table *)

Module TableProofs.
Import Table.

Lemma merge_chain_total t cell col :
  0 <= cell -> 0 <= col -> col_cnt t <= 65536 ->
  cell + (col_cnt t - col) <= Z.of_nat (length (cell_data t)) ->
  Z.of_nat (length (col_w t)) = col_cnt t ->
  forall fuel col_merge txt_w,
    0 <= col_merge -> col_cnt t - 1 - col - col_merge <= Z.of_nat fuel ->
    exists cm w, merge_chain fuel t cell col col_merge txt_w = Some (cm, w)
                 /\ col_merge <= cm
                 /\ cm + col <= Z.max (col_merge + col) (col_cnt t - 1).
Proof.
  intros Hcell Hcol Hmax Hdata Hw.
  induction fuel as [|fuel IH]; intros col_merge txt_w Hcm Hfuel.
  - cbn. destruct (Z.ltb_spec (col_merge + col) (col_cnt t - 1)); [lia|].
    exists col_merge, txt_w. split; [reflexivity|]. lia.
  - cbn [merge_chain].
    destruct (Z.ltb_spec (col_merge + col) (col_cnt t - 1)) as [Hlt|Hge];
      [|exists col_merge, txt_w; split; [reflexivity|lia]].
    destruct (load_lt_Some (cell_data t) (cell + col_merge) ltac:(lia)) as (p & Ep).
    rewrite Ep. cbn [mbind option_bind].
    destruct p as [c|]; [|exists col_merge, txt_w; split; [reflexivity|lia]].
    destruct (fmt_right_merge (format_byte c));
      [|exists col_merge, txt_w; split; [reflexivity|lia]].
    destruct (load_lt_Some (col_w t) (col + col_merge + 1) ltac:(lia)) as (w & Ew).
    rewrite Ew. cbn [mbind option_bind].
    rewrite wrap16_id by (unfold is_u16; lia).
    destruct (IH (col_merge + 1) (to_coord (txt_w + w)) ltac:(lia) ltac:(lia))
      as (cm & w' & E & H1 & H2).
    exists cm, w'. split; [exact E|]. lia.
Qed.

Section Env.

Variable e : table_env.

Lemma row_loop_total t row_start :
  0 <= row_start -> 0 <= col_cnt t ->
  row_start + col_cnt t <= Z.of_nat (length (cell_data t)) ->
  row_start + col_cnt t < 65536 ->
  Z.of_nat (length (col_w t)) = col_cnt t ->
  forall fuel cell col h_max,
    row_start <= cell <= row_start + col_cnt t -> col = cell - row_start ->
    row_start + col_cnt t - cell <= Z.of_nat fuel ->
    exists h, row_loop e fuel t row_start cell col h_max = Some h.
Proof.
  intros Hrs Hcc Hdata H16 Hw.
  induction fuel as [|fuel IH]; intros cell col h_max Hcell -> Hfuel.
  - cbn. destruct (Z.ltb_spec cell (row_start + col_cnt t)); [lia|]. eauto.
  - cbn [row_loop].
    destruct (Z.ltb_spec cell (row_start + col_cnt t)) as [Hlt|Hge]; [|eauto].
    destruct (load_lt_Some (cell_data t) cell ltac:(lia)) as (p & Ep).
    rewrite Ep. cbn [mbind option_bind].
    assert (Hnext : forall k, 0 <= k -> cell + k + 1 <= row_start + col_cnt t ->
              forall h, exists h',
                row_loop e fuel t row_start (wrap16 (wrap16 (cell + k) + 1))
                         (wrap16 (wrap16 (cell - row_start + k) + 1)) h = Some h').
    { intros k Hk Hle h.
      rewrite (wrap16_id (cell + k)), (wrap16_id (cell - row_start + k))
        by (unfold is_u16; lia).
      rewrite !wrap16_id by (unfold is_u16; lia).
      apply IH; lia. }
    destruct p as [c|].
    + destruct (load_lt_Some (col_w t) (cell - row_start) ltac:(lia)) as (w & Ew).
      rewrite Ew. cbn [mbind option_bind].
      destruct (merge_chain_total t cell (cell - row_start) ltac:(lia) ltac:(lia)
                  ltac:(lia) ltac:(lia) Hw (Z.to_nat (col_cnt t)) 0 w
                  ltac:(lia) ltac:(lia)) as (cm & w' & E & H1 & H2).
      rewrite E. cbn [mbind option_bind].
      destruct (fmt_crop (format_byte c)).
      * specialize (Hnext 0 ltac:(lia) ltac:(lia)).
        rewrite !Z.add_0_r in Hnext.
        rewrite (wrap16_id cell), (wrap16_id (cell - row_start)) in Hnext
          by (unfold is_u16; lia).
        apply Hnext.
      * apply Hnext; lia.
    + specialize (Hnext 0 ltac:(lia) ltac:(lia)).
      rewrite !Z.add_0_r in Hnext.
      rewrite (wrap16_id cell), (wrap16_id (cell - row_start)) in Hnext
        by (unfold is_u16; lia).
      apply Hnext.
Qed.

Lemma get_row_height_total t row_id :
  table_wf t -> fits16 (row_cnt t) (col_cnt t) -> 0 <= row_id < row_cnt t ->
  exists h, get_row_height e t row_id = Some h.
Proof.
  intros (Hc & Hr & Hd & Hh & Hw) Hfit Hrow. unfold get_row_height, fits16 in *.
  assert (Hle : row_id * col_cnt t + col_cnt t <= row_cnt t * col_cnt t) by nia.
  assert (H0 : 0 <= row_id * col_cnt t) by nia.
  rewrite wrap16_id by (unfold is_u16; lia).
  apply row_loop_total; try lia.
Qed.

Lemma same_cells_refl t : same_cells t t.
Proof. unfold same_cells. tauto. Qed.

Lemma same_cells_trans t1 t2 t3 :
  same_cells t1 t2 -> same_cells t2 t3 -> same_cells t1 t3.
Proof. unfold same_cells. intuition congruence. Qed.

Lemma same_cells_wf t t' : same_cells t t' -> table_wf t -> table_wf t'.
Proof.
  unfold same_cells, table_wf.
  intros (-> & -> & -> & -> & Hl) (? & ? & ? & ? & ?). rewrite Hl. tauto.
Qed.

(** A refresh that completes changes nothing but the heights. *)
Lemma refr_rows_same n : forall i t t',
  refr_rows e n i t = Some t' -> same_cells t t'.
Proof.
  induction n as [|n IH]; intros i t t'; cbn [refr_rows].
  - intros [= <-]. apply same_cells_refl.
  - destruct (get_row_height e t i) as [h|]; [|discriminate]. cbn [mbind option_bind].
    destruct (store (row_h t) i h) as [rh|] eqn:Es; [|discriminate].
    cbn [mbind option_bind]. intros Hrec%IH.
    apply store_Some_inv in Es as [_ ->].
    eapply same_cells_trans; [|exact Hrec].
    unfold same_cells; cbn. rewrite length_insert. tauto.
Qed.

Lemma refr_size_same t t' : refr_size e t = Some t' -> same_cells t t'.
Proof. apply refr_rows_same. Qed.

Lemma refr_rows_total n : forall i t,
  table_wf t -> fits16 (row_cnt t) (col_cnt t) ->
  0 <= i -> i + Z.of_nat n <= row_cnt t ->
  exists t', refr_rows e n i t = Some t'.
Proof.
  induction n as [|n IH]; intros i t Hwf Hfit Hi Hn; cbn [refr_rows]; [eauto|].
  destruct (get_row_height_total t i Hwf Hfit ltac:(lia)) as (h & Eh).
  rewrite Eh. cbn [mbind option_bind].
  pose proof Hwf as (Hc & Hr & Hd & Hh & Hw).
  destruct (store_spec (row_h t) i h ltac:(lia)) as (rh & Es & Hl & _).
  rewrite Es. cbn [mbind option_bind].
  apply IH; cbn [row_cnt col_cnt set_row_h]; try lia.
  - unfold table_wf in *; cbn. rewrite Hl. tauto.
  - exact Hfit.
Qed.

Lemma refr_size_total t :
  table_wf t -> fits16 (row_cnt t) (col_cnt t) ->
  exists t', refr_size e t = Some t' /\ same_cells t t' /\ table_wf t'.
Proof.
  intros Hwf Hfit.
  destruct (refr_rows_total (Z.to_nat (row_cnt t)) 0 t Hwf Hfit ltac:(lia))
    as (t' & E).
  { destruct Hwf as (_ & ? & _). lia. }
  exists t'. split; [exact E|].
  pose proof (refr_size_same _ _ E). eauto using same_cells_wf.
Qed.

Lemma cell_index_inj n r c r' c' :
  0 <= c < n -> 0 <= c' < n -> r * n + c = r' * n + c' -> r = r' /\ c = c'.
Proof.
  intros Hc Hc' E.
  assert (r = r') as -> by (destruct (Z.lt_trichotomy r r') as [|[|]]; auto; nia).
  split; [reflexivity | lia].
Qed.

Lemma splice_lookup {A} (dst src : list A) (a s n i : nat) :
  (a + n <= length dst)%nat -> (s + n <= length src)%nat ->
  (take a dst ++ take n (drop s src) ++ drop (a + n) dst) !! i
  = if decide (a <= i < a + n)%nat then src !! (s + (i - a))%nat else dst !! i.
Proof.
  intros Hd Hs.
  assert (Hla : length (take a dst) = a) by (rewrite length_take; lia).
  assert (Hln : length (take n (drop s src)) = n)
    by (rewrite length_take, length_drop; lia).
  destruct (decide (a <= i < a + n)%nat) as [Hin|Hout].
  - rewrite lookup_app_r by lia. rewrite Hla.
    rewrite lookup_app_l by lia.
    rewrite lookup_take_lt by lia. apply lookup_drop.
  - destruct (decide (i < a)%nat).
    + rewrite lookup_app_l by lia. apply lookup_take_lt. lia.
    + rewrite lookup_app_r by lia. rewrite Hla.
      rewrite lookup_app_r by lia. rewrite Hln.
      rewrite lookup_drop. f_equal. lia.
Qed.

Lemma memcpy_cells_spec {A} (dst src : list A) ds ss n :
  0 <= ds -> 0 <= ss -> 0 <= n ->
  ds + n <= Z.of_nat (length dst) -> ss + n <= Z.of_nat (length src) ->
  exists dst', memcpy_cells dst ds src ss n = Some dst'
    /\ length dst' = length dst
    /\ (forall j, 0 <= j < n -> load dst' (ds + j) = load src (ss + j))
    /\ (forall j, j < ds \/ ds + n <= j -> load dst' j = load dst j).
Proof.
  intros Hds Hss Hn Hd Hs. unfold memcpy_cells.
  destruct (Z.leb_spec 0 ds); [|lia]. destruct (Z.leb_spec 0 ss); [|lia].
  destruct (Z.leb_spec 0 n); [|lia].
  destruct (Z.leb_spec (ds + n) (Z.of_nat (length dst))); [|lia].
  destruct (Z.leb_spec (ss + n) (Z.of_nat (length src))); [|lia].
  cbn [andb]. eexists; split; [reflexivity|].
  replace (Z.to_nat (ds + n)) with (Z.to_nat ds + Z.to_nat n)%nat by lia.
  split; [|split].
  - rewrite !length_app, !length_take, !length_drop. lia.
  - intros j Hj. unfold load.
    destruct (Z.leb_spec 0 (ds + j)); [|lia]. destruct (Z.leb_spec 0 (ss + j)); [|lia].
    rewrite splice_lookup by lia.
    destruct (decide _) as [_|Hno]; [f_equal; lia | lia].
  - intros j Hj. unfold load. destruct (Z.leb_spec 0 j); [|reflexivity].
    rewrite splice_lookup by lia.
    destruct (decide _) as [Hyes|_]; [lia | reflexivity].
Qed.

Lemma remap_rows_spec (old : list (option cell_t)) old_col_cnt col_cnt' m rows :
  0 <= m -> m <= old_col_cnt -> m <= col_cnt' ->
  rows * old_col_cnt <= Z.of_nat (length old) ->
  forall n row new,
    0 <= row -> row + Z.of_nat n = rows ->
    Z.of_nat (length new) = rows * col_cnt' ->
    exists new',
      remap_rows n row old_col_cnt col_cnt' m old new = Some new'
      /\ length new' = length new
      /\ (forall r c, row <= r < rows -> 0 <= c < m ->
            load new' (r * col_cnt' + c) = load old (r * old_col_cnt + c))
      /\ (forall j, (forall r c, row <= r < rows -> 0 <= c < m -> j <> r * col_cnt' + c) ->
            load new' j = load new j).
Proof.
  intros Hm Hmo Hmn Hold.
  induction n as [|n IH]; intros row new Hrow Hrows Hnew; cbn [remap_rows].
  - exists new. split; [reflexivity|]. split; [reflexivity|].
    split; [intros; lia | reflexivity].
  - destruct (memcpy_cells_spec new old (row * col_cnt') (row * old_col_cnt) m)
      as (new1 & E1 & Hl1 & Hcopied & Hkept); try nia.
    rewrite E1. cbn [mbind option_bind].
    destruct (IH (row + 1) new1 ltac:(lia) ltac:(lia) ltac:(lia))
      as (new' & E & Hl & Hrows' & Huntouched).
    exists new'. split; [exact E|]. split; [congruence|]. split.
    + intros r c Hr Hc. destruct (Z.eq_dec r row) as [->|Hne].
      * rewrite Huntouched; [apply Hcopied; lia|].
        intros r' c' Hr' Hc'. nia.
      * apply Hrows'; lia.
    + intros j Hj. rewrite Huntouched.
      * apply Hkept.
        destruct (Z.lt_ge_cases j (row * col_cnt')) as [|Hge]; [lia|].
        destruct (Z.lt_ge_cases j (row * col_cnt' + m)) as [Hlt|]; [|lia].
        exfalso. apply (Hj row (j - row * col_cnt')); lia.
      * intros r c Hr Hc. apply Hj; lia.
Qed.

Lemma init_col_w_total n : forall col w,
  0 <= col -> col + Z.of_nat n <= Z.of_nat (length w) ->
  exists w', init_col_w e n col w = Some w' /\ length w' = length w.
Proof.
  induction n as [|n IH]; intros col w Hcol Hlen; cbn [init_col_w]; [eauto|].
  destruct (store_spec w col (LV_DPI_DEF e) ltac:(lia)) as (w1 & E1 & Hl1 & _).
  rewrite E1. cbn [mbind option_bind].
  destruct (IH (col + 1) w1 ltac:(lia) ltac:(lia)) as (w' & E & Hl).
  exists w'. split; [exact E | congruence].
Qed.

(** [lv_table_set_col_cnt] on a well-formed table: the remapped grid, which
    is then handed to [refr_size]. *)
Lemma set_col_cnt_remap t n :
  table_wf t -> 0 <= n ->
  exists t1, lv_table_set_col_cnt e t n = refr_size e t1
    /\ table_wf t1 /\ col_cnt t1 = n /\ row_cnt t1 = row_cnt t
    /\ (forall r c, 0 <= r < row_cnt t -> 0 <= c < Z.min (col_cnt t) n ->
          load (cell_data t1) (r * n + c) = load (cell_data t) (r * col_cnt t + c))
    /\ (forall r c, 0 <= r < row_cnt t -> Z.min (col_cnt t) n <= c < n ->
          load (cell_data t1) (r * n + c) = Some None).
Proof.
  intros Hwf Hn. pose proof Hwf as (Hc & Hr & Hd & Hh & Hw).
  unfold lv_table_set_col_cnt.
  cbn [col_cnt row_cnt col_w cell_data set_col_cnt_field set_col_w].
  set (w0 := realloc (col_w t) n 0).
  assert (Hw0 : Z.of_nat (length w0) = n)
    by (unfold w0, realloc; rewrite length_resize; lia).
  assert (Hinit : exists w,
            (if col_cnt t <? n
             then init_col_w e (Z.to_nat (n - col_cnt t)) (col_cnt t) w0
             else Some w0) = Some w /\ Z.of_nat (length w) = n).
  { destruct (Z.ltb_spec (col_cnt t) n).
    - destruct (init_col_w_total (Z.to_nat (n - col_cnt t)) (col_cnt t) w0)
        as (w & E & Hl); try lia.
      exists w. split; [exact E | lia].
    - exists w0. auto. }
  destruct Hinit as (w & Ew & Hlw). rewrite Ew. cbn [mbind option_bind].
  cbn [col_cnt row_cnt col_w cell_data set_col_cnt_field set_col_w].
  set (blank := replicate (Z.to_nat (n * row_cnt t)) None).
  assert (Hblank : Z.of_nat (length blank) = row_cnt t * n)
    by (unfold blank; rewrite length_replicate; nia).
  destruct (remap_rows_spec (cell_data t) (col_cnt t) n (Z.min (col_cnt t) n)
              (row_cnt t) ltac:(lia) ltac:(lia) ltac:(lia) ltac:(lia)
              (Z.to_nat (row_cnt t)) 0 blank ltac:(lia) ltac:(lia) Hblank)
    as (new & En & Hln & Hrows & Huntouched).
  rewrite En. cbn [mbind option_bind].
  set (t1 := set_cell_data _ new).
  exists t1. split; [reflexivity|]. split.
  { unfold table_wf, t1; cbn. rewrite Hln. repeat split; try lia. }
  split; [reflexivity|]. split; [reflexivity|]. cbn [cell_data t1 set_cell_data].
  split.
  - intros r c Hrr Hcc'. apply Hrows; lia.
  - intros r c Hrr Hcc'. rewrite Huntouched.
    + unfold load, blank. destruct (Z.leb_spec 0 (r * n + c)); [|nia].
      apply lookup_replicate_2. nia.
    + intros r' c' Hr' Hc' Heq.
      apply cell_index_inj in Heq; lia.
Qed.

(** What [lv_table_set_col_cnt] does to a well-formed table. *)
Lemma set_col_cnt_spec t n :
  table_wf t -> 0 <= n -> fits16 (row_cnt t) n ->
  exists t', lv_table_set_col_cnt e t n = Some t'
    /\ table_wf t' /\ col_cnt t' = n /\ row_cnt t' = row_cnt t
    /\ (forall r c, 0 <= r < row_cnt t -> 0 <= c < Z.min (col_cnt t) n ->
          load (cell_data t') (r * n + c) = load (cell_data t) (r * col_cnt t + c))
    /\ (forall r c, 0 <= r < row_cnt t -> Z.min (col_cnt t) n <= c < n ->
          load (cell_data t') (r * n + c) = Some None).
Proof.
  intros Hwf Hn Hfit.
  destruct (set_col_cnt_remap t n Hwf Hn) as (t1 & E1 & Hwf1 & Hc1 & Hr1 & Hkept & Hnew).
  destruct (refr_size_total t1 Hwf1) as (t' & E & Hsame & Hwf').
  { rewrite Hc1, Hr1. exact Hfit. }
  exists t'. split; [congruence|]. split; [exact Hwf'|].
  destruct Hsame as (Hcc & Hrc & Hcd & _). rewrite Hcc, Hrc, Hcd. auto.
Qed.

(** What [lv_table_set_row_cnt] does to a well-formed table. *)
Lemma set_row_cnt_spec t n :
  table_wf t -> 0 <= n -> fits16 n (col_cnt t) ->
  exists t', lv_table_set_row_cnt e t n = Some t'
    /\ table_wf t' /\ col_cnt t' = col_cnt t /\ row_cnt t' = n
    /\ (forall j, 0 <= j < Z.min (row_cnt t) n * col_cnt t ->
          load (cell_data t') j = load (cell_data t) j)
    /\ (forall j, row_cnt t * col_cnt t <= j < n * col_cnt t ->
          load (cell_data t') j = Some None).
Proof.
  intros Hwf Hn Hfit. pose proof Hwf as (Hc & Hr & Hd & Hh & Hw).
  unfold lv_table_set_row_cnt.
  cbn [col_cnt row_cnt row_h cell_data set_row_cnt_field set_row_h].
  set (t1 := set_cell_data _ _).
  assert (H0 : 0 <= n * col_cnt t) by nia.
  assert (Hwf1 : table_wf t1).
  { unfold table_wf, t1, realloc; cbn. rewrite !length_resize. repeat split; lia. }
  destruct (refr_size_total t1 Hwf1 Hfit) as (t' & E & Hsame & Hwf').
  exists t'. split; [exact E|]. split; [exact Hwf'|].
  destruct Hsame as (Hcc & Hrc & Hcd & _). rewrite Hcc, Hrc, Hcd.
  split; [reflexivity|]. split; [reflexivity|].
  cbn [cell_data t1 set_cell_data]. unfold realloc. split.
  - intros j Hj. unfold load. destruct (Z.leb_spec 0 j); [|reflexivity].
    apply lookup_resize; nia.
  - intros j Hj. unfold load. destruct (Z.leb_spec 0 j); [|nia].
    apply lookup_resize_new; nia.
Qed.

Lemma get_cell_value_in_range t row col :
  0 <= row < row_cnt t -> 0 <= col < col_cnt t ->
  lv_table_get_cell_value t row col
  = (p ← load (cell_data t) (row * col_cnt t + col); Some (cell_text p)).
Proof.
  intros Hr Hc. unfold lv_table_get_cell_value.
  destruct (Z.leb_spec (row_cnt t) row); [lia|].
  destruct (Z.leb_spec (col_cnt t) col); [lia|]. cbn [orb].
  destruct (load _ _) as [[c|]|]; reflexivity.
Qed.

Lemma cell_in_range t row col :
  table_wf t -> 0 <= row < row_cnt t -> 0 <= col < col_cnt t ->
  0 <= row * col_cnt t + col < Z.of_nat (length (cell_data t)).
Proof. intros (Hc & Hr & Hd & _) Hrow Hcol. nia. Qed.

(** What the tail of the two value setters does inside the grid. *)
Lemma write_text_spec t row col txt :
  table_wf t -> fits16 (row_cnt t) (col_cnt t) ->
  0 <= row < row_cnt t -> 0 <= col < col_cnt t ->
  exists t' p, write_text e t row col txt = Some t'
    /\ table_wf t' /\ col_cnt t' = col_cnt t /\ row_cnt t' = row_cnt t
    /\ load (cell_data t) (row * col_cnt t + col) = Some p
    /\ load (cell_data t') (row * col_cnt t + col)
         = Some (Some (mk_cell (saved_format e t row col p) txt))
    /\ (forall j, j <> row * col_cnt t + col ->
          load (cell_data t') j = load (cell_data t) j).
Proof.
  intros Hwf Hfit Hrow Hcol. unfold write_text.
  pose proof (cell_in_range t row col Hwf Hrow Hcol) as Hidx.
  destruct (load_lt_Some _ _ Hidx) as (p & Ep). rewrite Ep. cbn [mbind option_bind].
  destruct (store_spec (cell_data t) (row * col_cnt t + col)
              (Some (mk_cell (saved_format e t row col p) txt)) Hidx)
    as (d & Ed & Hl & Hat & Hother).
  rewrite Ed. cbn [mbind option_bind].
  assert (Hwf1 : table_wf (set_cell_data t d)).
  { unfold table_wf in *; cbn. rewrite Hl. exact Hwf. }
  destruct (refr_size_total (set_cell_data t d) Hwf1 Hfit) as (t' & E & Hsame & Hwf').
  exists t', p. split; [exact E|]. split; [exact Hwf'|].
  destruct Hsame as (Hcc & Hrc & Hcd & _). rewrite Hcc, Hrc, Hcd. cbn.
  repeat split; auto.
Qed.

Lemma fits16_mono rows cols rows' cols' :
  0 <= rows <= rows' -> 0 <= cols <= cols' -> fits16 rows' cols' -> fits16 rows cols.
Proof. unfold fits16. intros Hr Hc H. nia. Qed.

(** What the auto expansion does: both counts cover the target. *)
Lemma auto_expand_spec t row col :
  table_wf t -> 0 <= row < 65535 -> 0 <= col < 65535 ->
  fits16 (Z.max (row_cnt t) (row + 1)) (Z.max (col_cnt t) (col + 1)) ->
  exists t', auto_expand e t row col = Some t'
    /\ table_wf t'
    /\ col_cnt t' = Z.max (col_cnt t) (col + 1)
    /\ row_cnt t' = Z.max (row_cnt t) (row + 1).
Proof.
  intros Hwf Hrow Hcol Hfit. pose proof Hwf as (Hc & Hr & _).
  unfold auto_expand.
  assert (Hcols : exists t1,
            (if col_cnt t <=? col then lv_table_set_col_cnt e t (wrap16 (col + 1))
             else Some t) = Some t1
            /\ table_wf t1 /\ col_cnt t1 = Z.max (col_cnt t) (col + 1)
            /\ row_cnt t1 = row_cnt t).
  { destruct (Z.leb_spec (col_cnt t) col).
    - rewrite wrap16_id by (unfold is_u16; lia).
      destruct (set_col_cnt_spec t (col + 1) Hwf ltac:(lia)) as (t1 & E & Hwf1 & Hc1 & Hr1 & _).
      { eapply fits16_mono; [| |exact Hfit]; lia. }
      exists t1. split; [exact E|]. split; [exact Hwf1|]. split; lia.
    - exists t. split; [reflexivity|]. split; [exact Hwf|]. split; lia. }
  destruct Hcols as (t1 & E1 & Hwf1 & Hc1 & Hr1). rewrite E1. cbn [mbind option_bind].
  rewrite Hr1. destruct (Z.leb_spec (row_cnt t) row).
  - rewrite wrap16_id by (unfold is_u16; lia).
    destruct (set_row_cnt_spec t1 (row + 1) Hwf1 ltac:(lia)) as (t2 & E & Hwf2 & Hc2 & Hr2 & _).
    { rewrite Hc1. eapply fits16_mono; [| |exact Hfit]; lia. }
    exists t2. split; [exact E|]. split; [exact Hwf2|]. split; lia.
  - exists t1. split; [reflexivity|]. split; [exact Hwf1|]. split; lia.
Qed.

(** C5: growing the column count keeps every cell.  On a well-formed table
    and for [n >= col_cnt], whenever [lv_table_set_col_cnt] completes the
    cell at [(r, c)] of the old grid is at [(r, c)] of the new one, that is
    at index [r * n + c] instead of [r * col_cnt + c], and
    [lv_table_get_cell_value] returns for it what it returned before; and
    the call does complete when the cell indices of the new grid fit the
    [uint16_t] of the height refresh. *)
Theorem col_growth_preserves_cells t n :
  table_wf t -> col_cnt t <= n ->
  (fits16 (row_cnt t) n -> exists t', lv_table_set_col_cnt e t n = Some t')
  /\ (forall t', lv_table_set_col_cnt e t n = Some t' ->
        col_cnt t' = n /\ row_cnt t' = row_cnt t
        /\ forall r c, 0 <= r < row_cnt t -> 0 <= c < col_cnt t ->
             load (cell_data t') (r * n + c) = load (cell_data t) (r * col_cnt t + c)
             /\ lv_table_get_cell_value t' r c = lv_table_get_cell_value t r c).
Proof.
  intros Hwf Hgrow. pose proof Hwf as (Hc & _). split.
  - intros Hfit.
    destruct (set_col_cnt_spec t n Hwf ltac:(lia) Hfit) as (t' & E & _).
    exists t'. exact E.
  - intros t' E.
    destruct (set_col_cnt_remap t n Hwf ltac:(lia))
      as (t1 & E1 & Hwf1 & Hc1 & Hr1 & Hkept & _).
    rewrite E1 in E. apply refr_size_same in E as (Hcc & Hrc & Hcd & _).
    split; [congruence|]. split; [congruence|].
    intros r c Hrr Hcc'.
    assert (Hload : load (cell_data t') (r * n + c)
                    = load (cell_data t) (r * col_cnt t + c))
      by (rewrite Hcd; apply Hkept; lia).
    split; [exact Hload|].
    rewrite !get_cell_value_in_range by lia.
    replace (col_cnt t') with n by congruence. rewrite Hload. reflexivity.
Qed.

(** C6, as the code has it: [lv_table_set_cell_value] grows the column count
    to [col + 1] and then the row count to [row + 1] when the target is
    outside, and the cell then holds the text; [lv_table_set_cell_value_fmt]
    grows the row count only: with [col >= col_cnt] it returns and leaves the
    table as it is, with [col < col_cnt] the cell then holds the text. *)
Theorem set_cell_value_auto_expands t row col txt :
  table_wf t -> 0 <= row < 65535 -> 0 <= col < 65535 ->
  fits16 (Z.max (row_cnt t) (row + 1)) (Z.max (col_cnt t) (col + 1)) ->
  (exists t', lv_table_set_cell_value e t row col txt = Some t'
     /\ col_cnt t' = Z.max (col_cnt t) (col + 1)
     /\ row_cnt t' = Z.max (row_cnt t) (row + 1)
     /\ lv_table_get_cell_value t' row col = Some txt)
  /\ (col_cnt t <= col -> lv_table_set_cell_value_fmt e t row col txt = Some t)
  /\ (col < col_cnt t ->
      exists t', lv_table_set_cell_value_fmt e t row col txt = Some t'
        /\ col_cnt t' = col_cnt t
        /\ row_cnt t' = Z.max (row_cnt t) (row + 1)
        /\ lv_table_get_cell_value t' row col = Some txt).
Proof.
  intros Hwf Hrow Hcol Hfit.
  assert (Hwrite : forall t1, table_wf t1 ->
            col_cnt t1 = Z.max (col_cnt t) (col + 1) ->
            row_cnt t1 = Z.max (row_cnt t) (row + 1) ->
            exists t', write_text e t1 row col txt = Some t'
              /\ col_cnt t' = col_cnt t1 /\ row_cnt t' = row_cnt t1
              /\ lv_table_get_cell_value t' row col = Some txt).
  { intros t1 Hwf1 Hc1 Hr1.
    destruct (write_text_spec t1 row col txt Hwf1) as (t' & p & E & _ & Hc' & Hr' & _ & Hat & _);
      try lia.
    { rewrite Hc1, Hr1. exact Hfit. }
    exists t'. split; [exact E|]. split; [exact Hc'|]. split; [exact Hr'|].
    rewrite get_cell_value_in_range by lia. rewrite Hc', Hat. reflexivity. }
  split; [|split].
  - unfold lv_table_set_cell_value.
    destruct (auto_expand_spec t row col Hwf Hrow Hcol Hfit) as (t1 & E1 & Hwf1 & Hc1 & Hr1).
    rewrite E1. cbn [mbind option_bind].
    destruct (Hwrite t1 Hwf1 Hc1 Hr1) as (t' & E & Hc' & Hr' & Hget).
    exists t'. split; [exact E|]. split; [congruence|]. split; [congruence|exact Hget].
  - intros Hout. unfold lv_table_set_cell_value_fmt.
    destruct (Z.leb_spec (col_cnt t) col); [reflexivity | lia].
  - intros Hin. unfold lv_table_set_cell_value_fmt.
    destruct (Z.leb_spec (col_cnt t) col); [lia|].
    assert (Hrows : exists t1,
              (if row_cnt t <=? row then lv_table_set_row_cnt e t (wrap16 (row + 1))
               else Some t) = Some t1
              /\ table_wf t1 /\ col_cnt t1 = col_cnt t
              /\ row_cnt t1 = Z.max (row_cnt t) (row + 1)).
    { pose proof Hwf as (Hc & Hr & _).
      destruct (Z.leb_spec (row_cnt t) row).
      - rewrite wrap16_id by (unfold is_u16; lia).
        destruct (set_row_cnt_spec t (row + 1) Hwf ltac:(lia)) as (t1 & E & Hwf1 & Hc1 & Hr1 & _).
        { eapply fits16_mono; [| |exact Hfit]; lia. }
        exists t1. split; [exact E|]. split; [exact Hwf1|]. split; lia.
      - exists t. split; [reflexivity|]. split; [exact Hwf|]. split; lia. }
    destruct Hrows as (t1 & E1 & Hwf1 & Hc1 & Hr1). rewrite E1. cbn [mbind option_bind].
    destruct (Hwrite t1 Hwf1 ltac:(lia) Hr1) as (t' & E & Hc' & Hr' & Hget).
    exists t'. split; [exact E|]. split; [congruence|]. split; [congruence|exact Hget].
Qed.

(** *** Format bits *)

Lemma testbit_2 n : Z.testbit 2 n = (n =? 1).
Proof.
  change 2 with (2 ^ 1). rewrite Z.pow2_bits_eqb by lia. apply Z.eqb_sym.
Qed.

Lemma fmt_set_crop_crop b v : fmt_crop (fmt_set_crop b v) = v.
Proof.
  unfold fmt_crop, fmt_set_crop. destruct v.
  - rewrite Z.lor_spec, testbit_2. apply orb_true_r.
  - rewrite Z.ldiff_spec, testbit_2. apply andb_false_r.
Qed.

Lemma fmt_set_crop_other b v n : n <> 1 -> Z.testbit (fmt_set_crop b v) n = Z.testbit b n.
Proof.
  intros Hn. unfold fmt_set_crop.
  assert (E : (n =? 1) = false) by (apply Z.eqb_neq; exact Hn).
  destruct v.
  - rewrite Z.lor_spec, testbit_2, E. apply orb_false_r.
  - rewrite Z.ldiff_spec, testbit_2, E. apply andb_true_r.
Qed.

(** *** The heights do not depend on the stored heights *)

Lemma merge_chain_set_row_h t h fuel : forall cell col col_merge txt_w,
  merge_chain fuel (set_row_h t h) cell col col_merge txt_w
  = merge_chain fuel t cell col col_merge txt_w.
Proof.
  induction fuel as [|fuel IH]; intros cell col col_merge txt_w;
    cbn [merge_chain]; cbn [col_cnt cell_data col_w set_row_h]; [reflexivity|].
  destruct (col_merge + col <? col_cnt t - 1); [|reflexivity].
  destruct (load (cell_data t) (cell + col_merge)) as [[c|]|]; cbn [mbind option_bind];
    try reflexivity.
  destruct (fmt_right_merge (format_byte c)); [|reflexivity].
  destruct (load (col_w t) (col + col_merge + 1)); cbn [mbind option_bind];
    [apply IH | reflexivity].
Qed.

Lemma row_loop_set_row_h t h row_start fuel : forall cell col h_max,
  row_loop e fuel (set_row_h t h) row_start cell col h_max
  = row_loop e fuel t row_start cell col h_max.
Proof.
  induction fuel as [|fuel IH]; intros cell col h_max;
    cbn [row_loop]; cbn [col_cnt cell_data col_w set_row_h]; [reflexivity|].
  destruct (cell <? row_start + col_cnt t); [|reflexivity].
  destruct (load (cell_data t) cell) as [[c|]|]; cbn [mbind option_bind];
    [|apply IH|reflexivity].
  destruct (load (col_w t) col) as [w|]; cbn [mbind option_bind]; [|reflexivity].
  rewrite merge_chain_set_row_h.
  destruct (merge_chain _ t cell col 0 w) as [[cm w']|]; cbn [mbind option_bind];
    [|reflexivity].
  destruct (fmt_crop (format_byte c)); apply IH.
Qed.

Lemma get_row_height_same t t' row_id :
  same_cells t t' -> get_row_height e t' row_id = get_row_height e t row_id.
Proof.
  destruct t as [cc rc cd rh cw], t' as [cc' rc' cd' rh' cw'].
  unfold same_cells; cbn. intros (-> & -> & -> & -> & _).
  change (mk_table cc rc cd rh' cw) with (set_row_h (mk_table cc rc cd rh cw) rh').
  unfold get_row_height. cbn [col_cnt set_row_h]. apply row_loop_set_row_h.
Qed.

(** After a refresh every stored height is the height of its row. *)
Lemma refr_rows_heights n : forall i t t',
  0 <= i -> refr_rows e n i t = Some t' ->
  (forall k, i <= k < i + Z.of_nat n -> load (row_h t') k = get_row_height e t k)
  /\ (forall k, k < i -> load (row_h t') k = load (row_h t) k).
Proof.
  induction n as [|n IH]; intros i t t' Hi; cbn [refr_rows].
  - intros [= <-]. split; [intros; lia | reflexivity].
  - destruct (get_row_height e t i) as [h|] eqn:Eh; [|discriminate].
    cbn [mbind option_bind].
    destruct (store (row_h t) i h) as [rh|] eqn:Es; [|discriminate].
    cbn [mbind option_bind]. intros Hrec.
    destruct (IH (i + 1) _ _ ltac:(lia) Hrec) as (Hnew & Hold).
    apply store_Some_inv in Es as [Hin ->].
    destruct (store_spec (row_h t) i h Hin) as (rh & Es & _ & Hat & Hother).
    apply store_Some_inv in Es as [_ ->].
    cbn [row_h set_row_h] in Hold. split.
    + intros k Hk. destruct (Z.eq_dec k i) as [->|Hne].
      * rewrite Hold by lia. rewrite Eh. exact Hat.
      * rewrite Hnew by lia. unfold get_row_height. cbn [col_cnt set_row_h].
        apply row_loop_set_row_h.
    + intros k Hk. rewrite Hold by lia. apply Hother. lia.
Qed.

Lemma refr_size_heights t t' :
  refr_size e t = Some t' ->
  forall i, 0 <= i < row_cnt t -> load (row_h t') i = get_row_height e t' i.
Proof.
  intros E i Hi. pose proof (refr_size_same _ _ E) as Hsame.
  destruct (refr_rows_heights (Z.to_nat (row_cnt t)) 0 t t' ltac:(lia) E) as (Hnew & _).
  rewrite Hnew by lia. symmetry. now apply get_row_height_same.
Qed.

(** C9: for a row or a column outside the table, and for a cell inside it
    that was never written (its pointer is [NULL]), the read accessors return
    the empty text, no crop and no merge; they are functions of the table
    and leave it as it is. *)
Theorem getters_default t row col :
  row_cnt t <= row \/ col_cnt t <= col
  \/ load (cell_data t) (row * col_cnt t + col) = Some None ->
  lv_table_get_cell_value t row col = Some EmptyString
  /\ lv_table_get_cell_crop t row col = Some false
  /\ lv_table_get_cell_merge_right t row col = Some false.
Proof.
  intros H.
  unfold lv_table_get_cell_value, lv_table_get_cell_crop, lv_table_get_cell_merge_right.
  destruct (Z.leb_spec (row_cnt t) row); [auto|].
  destruct (Z.leb_spec (col_cnt t) col); [auto|].
  destruct H as [|[|E]]; [lia..|]. rewrite E. auto.
Qed.

(** C10: inside the table [lv_table_set_cell_crop] completes and writes one
    cell: its text is the text the cell had (the empty text for a cell not
    yet allocated), the crop bit of its format byte is the argument and every
    other bit is as before; every other cell, the counts, the column widths
    and the stored row heights are unchanged.  The getters for the text and
    for the merge flag return what they returned.  The stored heights are
    not refreshed, whereas after [lv_table_set_cell_merge_right] every stored
    height is the computed height of its row. *)
Theorem set_cell_crop_frame t row col crop :
  table_wf t -> 0 <= row < row_cnt t -> 0 <= col < col_cnt t ->
  exists t' p c',
    lv_table_set_cell_crop e t row col crop = Some t'
    /\ load (cell_data t) (row * col_cnt t + col) = Some p
    /\ load (cell_data t') (row * col_cnt t + col) = Some (Some c')
    /\ text c' = cell_text p
    /\ fmt_crop (format_byte c') = crop
    /\ (forall n, n <> 1 -> Z.testbit (format_byte c') n = Z.testbit (cell_format p) n)
    /\ (forall j, j <> row * col_cnt t + col ->
          load (cell_data t') j = load (cell_data t) j)
    /\ row_h t' = row_h t /\ col_w t' = col_w t
    /\ col_cnt t' = col_cnt t /\ row_cnt t' = row_cnt t
    /\ lv_table_get_cell_value t' row col = lv_table_get_cell_value t row col
    /\ lv_table_get_cell_merge_right t' row col = lv_table_get_cell_merge_right t row col
    /\ lv_table_get_cell_crop t' row col = Some crop
    /\ (forall en t'', lv_table_set_cell_merge_right e t row col en = Some t'' ->
          forall i, 0 <= i < row_cnt t ->
            load (row_h t'') i = get_row_height e t'' i).
Proof.
  intros Hwf Hrow Hcol.
  pose proof (cell_in_range t row col Hwf Hrow Hcol) as Hidx.
  assert (Hexp : auto_expand e t row col = Some t).
  { unfold auto_expand. destruct (Z.leb_spec (col_cnt t) col); [lia|].
    cbn [mbind option_bind]. destruct (Z.leb_spec (row_cnt t) row); [lia|]. reflexivity. }
  destruct (load_lt_Some _ _ Hidx) as (p & Ep).
  set (cell := row * col_cnt t + col) in *.
  (* the cell after the lazy allocation *)
  assert (Hens : exists t1, ensure_cell t cell
                   = Some (t1, mk_cell (cell_format p) (cell_text p))
            /\ Z.of_nat (length (cell_data t1)) = Z.of_nat (length (cell_data t))
            /\ (forall j, j <> cell -> load (cell_data t1) j = load (cell_data t) j)
            /\ row_h t1 = row_h t /\ col_w t1 = col_w t
            /\ col_cnt t1 = col_cnt t /\ row_cnt t1 = row_cnt t).
  { unfold ensure_cell. rewrite Ep. cbn [mbind option_bind]. destruct p as [c|].
    - exists t. destruct c. cbn. repeat split; reflexivity.
    - destruct (store_spec (cell_data t) cell (Some (mk_cell 0 EmptyString)) Hidx)
        as (d & Ed & Hl & _ & Hother).
      rewrite Ed. cbn [mbind option_bind]. exists (set_cell_data t d). cbn.
      repeat split; auto; lia. }
  destruct Hens as (t1 & E1 & Hl1 & Hother1 & Hrh1 & Hcw1 & Hcc1 & Hrc1).
  set (c' := mk_cell (fmt_set_crop (cell_format p) crop) (cell_text p)).
  destruct (store_spec (cell_data t1) cell (Some c') ltac:(lia))
    as (d & Ed & Hl & Hat & Hother).
  exists (set_cell_data t1 d), p, c'.
  assert (Hrun : lv_table_set_cell_crop e t row col crop = Some (set_cell_data t1 d)).
  { unfold lv_table_set_cell_crop. rewrite Hexp. cbn [mbind option_bind].
    fold cell. rewrite E1. cbn [mbind option_bind format_byte text].
    fold c'. rewrite Ed. reflexivity. }
  split; [exact Hrun|]. split; [exact Ep|]. split; [exact Hat|].
  split; [reflexivity|]. split; [apply fmt_set_crop_crop|].
  split; [intros n Hn; apply fmt_set_crop_other; exact Hn|].
  split; [intros j Hj; cbn; rewrite Hother by exact Hj; apply Hother1; exact Hj|].
  split; [exact Hrh1|]. split; [exact Hcw1|]. split; [exact Hcc1|]. split; [exact Hrc1|].
  split; [|split; [|split]].
  - rewrite !get_cell_value_in_range by (cbn; lia). cbn [col_cnt set_cell_data].
    rewrite Hcc1. fold cell. cbn [cell_data set_cell_data]. rewrite Hat, Ep. reflexivity.
  - unfold lv_table_get_cell_merge_right. cbn [col_cnt row_cnt set_cell_data].
    rewrite Hcc1, Hrc1. fold cell.
    destruct ((row_cnt t <=? row) || (col_cnt t <=? col)); [reflexivity|].
    cbn [cell_data set_cell_data]. rewrite Hat, Ep. cbn [mbind option_bind].
    unfold fmt_right_merge. cbn [format_byte c'].
    rewrite fmt_set_crop_other by lia. destruct p; reflexivity.
  - unfold lv_table_get_cell_crop. cbn [col_cnt row_cnt set_cell_data].
    rewrite Hcc1, Hrc1.
    destruct (Z.leb_spec (row_cnt t) row); [lia|].
    destruct (Z.leb_spec (col_cnt t) col); [lia|]. cbn [orb]. fold cell.
    cbn [cell_data set_cell_data]. rewrite Hat. cbn [mbind option_bind format_byte c'].
    now rewrite fmt_set_crop_crop.
  - intros en t'' Hm i Hi. unfold lv_table_set_cell_merge_right in Hm.
    rewrite Hexp in Hm. cbn [mbind option_bind] in Hm. fold cell in Hm.
    rewrite E1 in Hm. cbn [mbind option_bind] in Hm.
    destruct (store (cell_data t1) cell (Some (mk_cell (fmt_set_right_merge _ _) _)))
      as [dm|]; [|discriminate].
    cbn [mbind option_bind] in Hm.
    apply (refr_size_heights _ _ Hm). cbn. lia.
Qed.

End Env.

(** C3: in a new table the first row gets two cells, the second with a text
    of three lines; the first cell is cropped and merged with the second.
    The second cell is a member of the chain and is not drawn, yet the
    stored height of the row is that of its three lines (30): the branch of
    a cropped cell does not skip the chain.  With the same head not cropped
    the chain is skipped and the height is that of one line (10). *)
Theorem cropped_head_counts_merged_cell :
  cropped_head_row
    = Some (mk_table 2 1 [Some (mk_cell 3 "a"); Some (mk_cell 0 three_lines)]
                     [30] [100; 100])
  /\ plain_head_row
    = Some (mk_table 2 1 [Some (mk_cell 1 "a"); Some (mk_cell 0 three_lines)]
                     [10] [100; 100]).
Proof. split; reflexivity. Qed.

(** *** The theorems on the example tables *)

Lemma col_growth_preserves_cells_witness :
  (fits16 (row_cnt two_by_two) 3 ->
   exists t', lv_table_set_col_cnt example_env two_by_two 3 = Some t')
  /\ (forall t', lv_table_set_col_cnt example_env two_by_two 3 = Some t' ->
        col_cnt t' = 3 /\ row_cnt t' = row_cnt two_by_two
        /\ forall r c, 0 <= r < row_cnt two_by_two -> 0 <= c < col_cnt two_by_two ->
             load (cell_data t') (r * 3 + c)
               = load (cell_data two_by_two) (r * col_cnt two_by_two + c)
             /\ lv_table_get_cell_value t' r c
                  = lv_table_get_cell_value two_by_two r c).
Proof.
  apply (col_growth_preserves_cells example_env two_by_two 3).
  - unfold table_wf. cbn. lia.
  - cbn. lia.
Defined.

(** C6, the claim as stated fails: on a new table, of one column,
    [lv_table_set_cell_value_fmt] at column 1 does not grow the table and
    does not store the text. *)
Lemma set_cell_value_fmt_keeps_columns :
  lv_table_set_cell_value_fmt example_env new_table 0 1 "x" = Some new_table
  /\ col_cnt new_table = 1
  /\ lv_table_get_cell_value new_table 0 1 = Some EmptyString
  /\ ~ (exists t', lv_table_set_cell_value_fmt example_env new_table 0 1 "x" = Some t'
          /\ col_cnt t' = 1 + 1
          /\ lv_table_get_cell_value t' 0 1 = Some "x"%string).
Proof.
  repeat split; try reflexivity.
  intros (t' & E & Hc & _). vm_compute in E. injection E as <-. discriminate Hc.
Qed.

Lemma set_cell_value_auto_expands_witness :
  (exists t', lv_table_set_cell_value example_env new_table 1 2 "x" = Some t'
     /\ col_cnt t' = Z.max (col_cnt new_table) (2 + 1)
     /\ row_cnt t' = Z.max (row_cnt new_table) (1 + 1)
     /\ lv_table_get_cell_value t' 1 2 = Some "x"%string)
  /\ (col_cnt new_table <= 2 ->
      lv_table_set_cell_value_fmt example_env new_table 1 2 "x" = Some new_table)
  /\ (2 < col_cnt new_table ->
      exists t', lv_table_set_cell_value_fmt example_env new_table 1 2 "x" = Some t'
        /\ col_cnt t' = col_cnt new_table
        /\ row_cnt t' = Z.max (row_cnt new_table) (1 + 1)
        /\ lv_table_get_cell_value t' 1 2 = Some "x"%string).
Proof.
  apply (set_cell_value_auto_expands example_env new_table 1 2 "x").
  - unfold table_wf. cbn. lia.
  - lia.
  - lia.
  - unfold fits16. cbn. lia.
Defined.

Lemma getters_default_witness :
  lv_table_get_cell_value two_by_two 0 1 = Some EmptyString
  /\ lv_table_get_cell_crop two_by_two 0 1 = Some false
  /\ lv_table_get_cell_merge_right two_by_two 0 1 = Some false.
Proof.
  apply (getters_default two_by_two 0 1).
  right. right. reflexivity.
Defined.

Lemma set_cell_crop_frame_witness :
  exists t' p c',
    lv_table_set_cell_crop example_env two_by_two 1 1 false = Some t'
    /\ load (cell_data two_by_two) (1 * col_cnt two_by_two + 1) = Some p
    /\ load (cell_data t') (1 * col_cnt two_by_two + 1) = Some (Some c')
    /\ text c' = cell_text p
    /\ fmt_crop (format_byte c') = false
    /\ (forall n, n <> 1 -> Z.testbit (format_byte c') n = Z.testbit (cell_format p) n)
    /\ (forall j, j <> 1 * col_cnt two_by_two + 1 ->
          load (cell_data t') j = load (cell_data two_by_two) j)
    /\ row_h t' = row_h two_by_two /\ col_w t' = col_w two_by_two
    /\ col_cnt t' = col_cnt two_by_two /\ row_cnt t' = row_cnt two_by_two
    /\ lv_table_get_cell_value t' 1 1 = lv_table_get_cell_value two_by_two 1 1
    /\ lv_table_get_cell_merge_right t' 1 1
         = lv_table_get_cell_merge_right two_by_two 1 1
    /\ lv_table_get_cell_crop t' 1 1 = Some false
    /\ (forall en t'',
          lv_table_set_cell_merge_right example_env two_by_two 1 1 en = Some t'' ->
          forall i, 0 <= i < row_cnt two_by_two ->
            load (row_h t'') i = get_row_height example_env t'' i).
Proof.
  apply (set_cell_crop_frame example_env two_by_two 1 1 false).
  - unfold table_wf. cbn. lia.
  - cbn. lia.
  - cbn. lia.
Defined.

End TableProofs.

(** ** The roller: options, keys and releases *)

Module RollerMore.
Import Roller RollerFacts RollerProofs.

Lemma nl_count_nonneg txt : 0 <= nl_count txt.
Proof. induction txt as [|ch rest IH]; cbn; [lia|]. destruct (Ascii.eqb ch nl); lia. Qed.

Lemma count_nl_spec txt : forall cnt,
  0 <= cnt -> cnt + nl_count txt < 65536 -> count_nl txt cnt = cnt + nl_count txt.
Proof.
  induction txt as [|ch rest IH]; intros cnt H0 Hlt; cbn in *; [lia|].
  pose proof (nl_count_nonneg rest).
  destruct (Ascii.eqb ch nl).
  - rewrite wrap16_id by (unfold is_u16; lia). rewrite IH; lia.
  - rewrite IH; lia.
Qed.

Section Pages.

Variable P : Z.
Hypothesis P_pos : 1 <= P.

(** In normal mode [lv_roller_set_options] counts one option more than the
    text has ['\n'], selects the first option, also as the snapshot, and
    hands the text to the label as it is. *)
Theorem set_options_normal_counts_lines r options :
  nl_count options < 65535 ->
  exists r', lv_roller_set_options P r options LV_ROLLER_MODE_NORMAL = Some r'
    /\ lv_roller_get_option_cnt P r' = nl_count options + 1
    /\ lv_roller_get_selected P r' = Some 0
    /\ sel_opt_id_ori r' = 0
    /\ lv_roller_get_options r' = options
    /\ roller_inv P r'.
Proof.
  intros Hn. pose proof (nl_count_nonneg options) as H0.
  unfold lv_roller_set_options. eexists; split; [reflexivity|].
  unfold lv_roller_get_option_cnt, lv_roller_get_selected, lv_roller_get_options,
    roller_inv, is_infinite; cbn.
  rewrite count_nl_spec by lia. rewrite wrap16_id by (unfold is_u16; lia).
  unfold is_u16. repeat split; try lia; try reflexivity; discriminate.
Qed.

(** The page loop ends with one page per turn when its [uint8_t] counter can
    reach the number of pages, and does not end otherwise. *)
Lemma pages_loop_ends options : forall fuel i pages,
  P < 256 -> i = Z.of_nat pages -> 0 <= i <= P -> P - i <= Z.of_nat fuel ->
  pages_loop P fuel options i pages = Some (inf_pages_text options (Z.to_nat P)).
Proof.
  induction fuel as [|fuel IH]; intros i pages HP -> Hi Hfuel.
  - cbn [pages_loop]. destruct (Z.ltb_spec (Z.of_nat pages) P); [lia|].
    do 2 f_equal. lia.
  - cbn [pages_loop]. destruct (Z.ltb_spec (Z.of_nat pages) P) as [Hlt|Hge].
    + rewrite Z.mod_small by lia. apply IH; lia.
    + do 2 f_equal. lia.
Qed.

Lemma pages_loop_wraps options : forall fuel i pages,
  256 <= P -> 0 <= i < 256 -> pages_loop P fuel options i pages = None.
Proof.
  induction fuel as [|fuel IH]; intros i pages HP Hi; cbn [pages_loop];
    destruct (Z.ltb_spec i P); try lia; [reflexivity|].
  apply IH; [exact HP|]. apply Z.mod_pos_bound. lia.
Qed.

Lemma set_options_infinite_wraps r options :
  256 <= P -> lv_roller_set_options P r options LV_ROLLER_MODE_INFINITE = None.
Proof.
  intros HP. unfold lv_roller_set_options.
  rewrite pages_loop_wraps by lia. reflexivity.
Qed.

Lemma set_options_infinite_spec r options :
  P < 256 -> (nl_count options + 1) * P < 65536 ->
  exists r', lv_roller_set_options P r options LV_ROLLER_MODE_INFINITE = Some r'
    /\ is_infinite r' = true
    /\ option_cnt r' = (nl_count options + 1) * P
    /\ lv_roller_get_option_cnt P r' = nl_count options + 1
    /\ lv_roller_get_selected P r' = Some 0
    /\ sel_opt_id r' = (P / 2) * (nl_count options + 1)
    /\ sel_opt_id_ori r' = sel_opt_id r'
    /\ lv_roller_get_options r' = inf_pages_text options (Z.to_nat P)
    /\ roller_inv P r'.
Proof using P_pos.
  intros HP Hfit. pose proof (nl_count_nonneg options) as H0.
  set (n := nl_count options + 1) in *.
  assert (Hn : 1 <= n) by (unfold n; lia).
  assert (HnP : n <= n * P) by nia.
  assert (Hhalf : 0 <= P / 2) by (apply Z.div_pos; lia).
  pose proof (half_pages_lt P P_pos) as Hh.
  assert (Hmid : 0 <= P / 2 * n < n * P) by nia.
  unfold lv_roller_set_options.
  rewrite (pages_loop_ends options 256 0 O HP) by (cbn; lia).
  cbn [mbind option_bind].
  rewrite count_nl_spec by lia. rewrite Z.add_0_l. fold n.
  rewrite (wrap16_id n) by (unfold is_u16; lia).
  cbn [option_cnt sel_opt_id set_cnt set_sel set_ori set_mode set_text].
  rewrite Z.add_0_r.
  rewrite (wrap16_id (P / 2 * n)), (wrap16_id (n * P)) by (unfold is_u16; lia).
  match goal with
  | |- context [inf_normalize P ?x] => set (r2 := x)
  end.
  assert (Hdiv : n * P / P = n) by (apply Z.div_mul; lia).
  rewrite (inf_normalize_infinite P P_pos r2)
    by (try reflexivity; unfold is_u16; cbn; nia).
  assert (Hm : middle_page_id P r2 = P / 2 * n).
  { unfold middle_page_id. cbn [option_cnt sel_opt_id r2 set_cnt set_sel].
    rewrite Hdiv. rewrite Z.mod_mul by lia. lia. }
  rewrite Hm. cbn [mbind option_bind]. eexists; split; [reflexivity|].
  unfold lv_roller_get_option_cnt, lv_roller_get_selected, lv_roller_get_options,
    roller_inv, is_infinite; cbn.
  rewrite Hdiv. rewrite (wrap16_id n) by (unfold is_u16; lia).
  destruct (Z.eqb_spec n 0); [lia|].
  rewrite Z.mod_mul by lia. unfold is_u16.
  repeat split; try lia; try reflexivity; intros _; nia.
Qed.


(** In infinite mode [lv_roller_set_options] completes when the page loop can
    count the pages in its [uint8_t] and the replicated count fits its
    [uint16_t]: the label gets the options once per page, the logical count
    is one more than the text has ['\n'], the first option is selected, and
    the stored id is that option on the middle page.  With 256 pages or more
    the page loop does not end and the call does not complete. *)
Theorem set_options_infinite_middle_page r options :
  (nl_count options + 1) * P < 65536 ->
  (P < 256 ->
   exists r', lv_roller_set_options P r options LV_ROLLER_MODE_INFINITE = Some r'
     /\ option_cnt r' = (nl_count options + 1) * P
     /\ lv_roller_get_option_cnt P r' = nl_count options + 1
     /\ lv_roller_get_selected P r' = Some 0
     /\ sel_opt_id r' = (P / 2) * (nl_count options + 1)
     /\ sel_opt_id_ori r' = sel_opt_id r'
     /\ lv_roller_get_options r' = inf_pages_text options (Z.to_nat P)
     /\ roller_inv P r')
  /\ (256 <= P ->
      lv_roller_set_options P r options LV_ROLLER_MODE_INFINITE = None).
Proof using P_pos.
  intros Hfit. split.
  - intros HP.
    destruct (set_options_infinite_spec r options HP Hfit) as (r' & E & _ & H).
    exists r'. split; [exact E | exact H].
  - apply set_options_infinite_wraps.
Qed.

(** In normal mode [lv_roller_set_selected] stores the argument, or the last
    option when the argument is not below the count, as the selection and as
    its snapshot; [lv_roller_get_selected] returns it. *)
Theorem set_selected_normal_clamps r id anim :
  is_infinite r = false -> is_u16 (option_cnt r) -> 1 <= option_cnt r ->
  is_u16 id ->
  exists r', lv_roller_set_selected P r id anim = Some r'
    /\ sel_opt_id r' = Z.min id (option_cnt r - 1)
    /\ sel_opt_id_ori r' = Z.min id (option_cnt r - 1)
    /\ lv_roller_get_selected P r' = Some (Z.min id (option_cnt r - 1))
    /\ same_options r r'.
Proof.
  intros Hm Hc H1 Hid. rewrite set_selected_unfold.
  assert (Hcl : clamp_id r id = Z.min id (option_cnt r - 1)).
  { unfold clamp_id. rewrite wrap16_id by assumption. unfold is_u16 in *.
    destruct (Z.ltb_spec id (option_cnt r)); [lia|].
    rewrite wrap16_id by (unfold is_u16; lia). lia. }
  rewrite Hcl. unfold refr_position.
  rewrite inf_normalize_normal by exact Hm.
  destruct (negb anim || _); (eexists; split; [reflexivity|]);
    unfold lv_roller_get_selected, same_options, is_infinite in *; cbn; rewrite Hm; tauto.
Qed.

Lemma get_selected_in_range r :
  roller_inv P r ->
  exists v, lv_roller_get_selected P r = Some v
            /\ 0 <= v < lv_roller_get_option_cnt P r.
Proof using P_pos.
  intros (Hc & Hs & Ho & Hi).
  unfold lv_roller_get_selected, lv_roller_get_option_cnt.
  destruct (is_infinite r) eqn:Hm; [|eauto].
  rewrite wrap16_real by assumption.
  pose proof (real_cnt_pos P P_pos _ (Hi eq_refl)) as Hr.
  destruct (real_cnt_bounds P P_pos (option_cnt r)) as (_ & _ & Hle);
    [unfold is_u16 in Hc; lia|].
  destruct (Z.eqb_spec (option_cnt r / P) 0); [lia|].
  pose proof (Z.mod_pos_bound (sel_opt_id r) (option_cnt r / P) ltac:(lia)) as Hb.
  eexists; split; [reflexivity|].
  rewrite wrap16_id by (unfold is_u16 in *; lia). exact Hb.
Qed.

Lemma get_option_cnt_same r r' :
  same_options r r' -> lv_roller_get_option_cnt P r' = lv_roller_get_option_cnt P r.
Proof.
  intros (Hc & Hm & _). unfold lv_roller_get_option_cnt, is_infinite.
  now rewrite Hc, Hm.
Qed.

(** After [lv_roller_set_options], whatever is then done to the roller,
    [lv_roller_get_selected] returns an index below what
    [lv_roller_get_option_cnt] returns, and that count stays the same. *)
Theorem logical_selection_in_range r options m r0 ops :
  lv_roller_set_options P r options m = Some r0 ->
  1 <= option_cnt r0 ->
  forallb op_defined ops = true ->
  exists r' v, run_ops P r0 ops = Some r'
    /\ lv_roller_get_selected P r' = Some v
    /\ 0 <= v < lv_roller_get_option_cnt P r'
    /\ lv_roller_get_option_cnt P r' = lv_roller_get_option_cnt P r0.
Proof using P_pos.
  intros Hset H1 Hd.
  pose proof (set_options_inv P P_pos _ _ _ _ Hset H1) as Hinv.
  destruct (run_ops_inv P P_pos ops r0 Hinv Hd) as (r' & E & Hinv' & Hsame).
  destruct (get_selected_in_range r' Hinv') as (v & Ev & Hv).
  exists r', v. auto using get_option_cnt_same.
Qed.

(** The wraparound normalizer keeps what the getters return: the logical
    selection, the logical count and the text.  In infinite mode it moves the
    stored id to the middle page and overwrites the snapshot with the id it
    stores, whatever the snapshot was; in normal mode it changes nothing. *)
Theorem inf_normalize_keeps_logical_selection r :
  roller_inv P r ->
  exists r', inf_normalize P r = Some r'
    /\ lv_roller_get_selected P r' = lv_roller_get_selected P r
    /\ lv_roller_get_option_cnt P r' = lv_roller_get_option_cnt P r
    /\ lv_roller_get_options r' = lv_roller_get_options r
    /\ (is_infinite r = true ->
        sel_opt_id r' = middle_page_id P r /\ sel_opt_id_ori r' = middle_page_id P r)
    /\ (is_infinite r = false -> r' = r).
Proof using P_pos.
  intros Hinv. pose proof Hinv as (Hc & Hs & Ho & Hi).
  destruct (is_infinite r) eqn:Hm.
  - rewrite inf_normalize_infinite by auto.
    eexists; split; [reflexivity|].
    unfold lv_roller_get_selected, lv_roller_get_option_cnt, lv_roller_get_options.
    change (is_infinite (set_ori _ _)) with (is_infinite r). rewrite Hm.
    cbn [option_cnt sel_opt_id sel_opt_id_ori label_text set_ori set_sel].
    rewrite wrap16_real by assumption.
    split; [|split; [reflexivity|split; [reflexivity|split; [auto|discriminate]]]].
    destruct (option_cnt r / P =? 0); [auto|].
    rewrite middle_page_id_mod by auto. auto.
  - rewrite inf_normalize_normal by auto. exists r.
    repeat split; try reflexivity; discriminate.
Qed.

(** *** Keys, focus and release *)

Lemma refr_position_keeps r :
  keeps_ids r -> refr_position P r true = Some r.
Proof.
  intros [Hm|Ha]; unfold refr_position; cbn [negb orb].
  - destruct (anim_time r =? 0); [apply inf_normalize_normal; exact Hm | reflexivity].
  - destruct (Z.eqb_spec (anim_time r) 0); [contradiction | reflexivity].
Qed.

Lemma keeps_ids_same r r' : same_options r r' -> keeps_ids r -> keeps_ids r'.
Proof.
  unfold keeps_ids, same_options, is_infinite. intros (_ & -> & _ & ->). tauto.
Qed.

Lemma set_selected_animated r id :
  keeps_ids r ->
  lv_roller_set_selected P r id true
  = Some (set_ori (set_sel r (clamp_id r id)) (clamp_id r id)).
Proof.
  intros Hk. rewrite set_selected_unfold. apply refr_position_keeps.
  eapply keeps_ids_same; [|exact Hk]. unfold same_options; cbn; tauto.
Qed.

Lemma control_key_step r c :
  roller_inv P r -> keeps_ids r ->
  lv_roller_signal P r (LV_SIGNAL_CONTROL c) = Some (set_sel r (key_target r c)).
Proof.
  intros (Hc & Hs & Ho & Hi) Hk. unfold is_u16 in Hc.
  assert (Hup : forall id, 0 <= id < option_cnt r ->
            (r1 ← lv_roller_set_selected P r id true;
             Some (set_ori r1 (sel_opt_id_ori r))) = Some (set_sel r id)).
  { intros id Hid. rewrite set_selected_animated by exact Hk.
    assert (Hcl : clamp_id r id = id).
    { unfold clamp_id. rewrite wrap16_id by (unfold is_u16; lia).
      destruct (Z.ltb_spec id (option_cnt r)); lia. }
    rewrite Hcl. reflexivity. }
  assert (Hsame : Some r = Some (set_sel r (sel_opt_id r))) by (destruct r; reflexivity).
  destruct c; cbn [lv_roller_signal key_target].
  - destruct (Z.ltb_spec 0 (sel_opt_id r)).
    + rewrite Hup by lia. do 2 f_equal. lia.
    + replace (Z.max (sel_opt_id r - 1) 0) with (sel_opt_id r) by lia. exact Hsame.
  - destruct (Z.ltb_spec (sel_opt_id r + 1) (option_cnt r)).
    + rewrite Hup by lia. do 2 f_equal. lia.
    + replace (Z.min (sel_opt_id r + 1) (option_cnt r - 1)) with (sel_opt_id r) by lia.
      exact Hsame.
  - destruct (Z.ltb_spec (sel_opt_id r + 1) (option_cnt r)).
    + rewrite Hup by lia. do 2 f_equal. lia.
    + replace (Z.min (sel_opt_id r + 1) (option_cnt r - 1)) with (sel_opt_id r) by lia.
      exact Hsame.
  - destruct (Z.ltb_spec 0 (sel_opt_id r)).
    + rewrite Hup by lia. do 2 f_equal. lia.
    + replace (Z.max (sel_opt_id r - 1) 0) with (sel_opt_id r) by lia. exact Hsame.
  - exact Hsame.
Qed.

Lemma key_target_bounds r c :
  roller_inv P r -> 0 <= key_target r c < option_cnt r.
Proof. intros (Hc & Hs & Ho & Hi). destruct c; cbn [key_target]; lia. Qed.

(** A directional key moves the selection by one option and stops at the
    first and at the last option; the snapshot is not touched. *)
Theorem control_key_moves_by_one r c :
  roller_inv P r -> keeps_ids r ->
  exists r', lv_roller_signal P r (LV_SIGNAL_CONTROL c) = Some r'
    /\ sel_opt_id r' = key_target r c
    /\ 0 <= sel_opt_id r' < option_cnt r
    /\ sel_opt_id_ori r' = sel_opt_id_ori r
    /\ same_options r r'.
Proof.
  intros Hinv Hk. rewrite control_key_step by assumption.
  eexists; split; [reflexivity|]. pose proof (key_target_bounds r c Hinv).
  unfold same_options; cbn. tauto.
Qed.

Lemma run_ops_app ops1 : forall ops2 ra rb,
  run_ops P ra ops1 = Some rb ->
  run_ops P ra (ops1 ++ ops2) = run_ops P rb ops2.
Proof.
  induction ops1 as [|op ops1 IH1]; intros ops2 ra rb; cbn.
  - now intros [= ->].
  - destruct (run_op P ra op); cbn; [apply IH1 | discriminate].
Qed.

(** Keys, and in normal mode ready callbacks, leave the snapshot alone. *)
Lemma keys_ready_run ops : forall r,
  roller_inv P r -> keeps_ids r ->
  forallb (key_or_ready (negb (is_infinite r))) ops = true ->
  exists r', run_ops P r ops = Some r'
    /\ roller_inv P r' /\ keeps_ids r'
    /\ sel_opt_id_ori r' = sel_opt_id_ori r /\ same_options r r'.
Proof.
  induction ops as [|op ops IH]; intros r Hinv Hk Hops; cbn [run_ops].
  - exists r. auto 10 using same_options_refl.
  - cbn [forallb] in Hops. apply andb_true_iff in Hops as [Hop Hops].
    assert (Hstep : exists r1, run_op P r op = Some r1
              /\ roller_inv P r1 /\ sel_opt_id_ori r1 = sel_opt_id_ori r
              /\ same_options r r1).
    { destruct op as [id anim|sign|]; cbn [key_or_ready] in Hop; try discriminate.
      - destruct sign; try discriminate. cbn [run_op].
        rewrite control_key_step by assumption.
        eexists; split; [reflexivity|].
        split; [|split; [reflexivity | unfold same_options; cbn; tauto]].
        pose proof (key_target_bounds r c Hinv). destruct Hinv as (? & ? & ? & ?).
        apply (roller_inv_ext P r); cbn; auto. unfold roller_inv; tauto.
      - cbn [run_op]. unfold scroll_anim_ready_cb.
        rewrite inf_normalize_normal by (destruct (is_infinite r); [discriminate|reflexivity]).
        exists r. auto using same_options_refl. }
    destruct Hstep as (r1 & E1 & Hinv1 & Ho1 & Hsame1). rewrite E1.
    cbn [mbind option_bind].
    assert (Hm1 : is_infinite r1 = is_infinite r).
    { destruct Hsame1 as (_ & Hm & _). unfold is_infinite. now rewrite Hm. }
    destruct (IH r1 Hinv1 (keeps_ids_same _ _ Hsame1 Hk))
      as (r' & E & Hinv' & Hk' & Ho' & Hsame'); [rewrite Hm1; exact Hops|].
    exists r'. split; [exact E|]. split; [exact Hinv'|]. split; [exact Hk'|].
    split; [rewrite Ho'; exact Ho1|].
    exact (same_options_trans _ _ _ Hsame1 Hsame').
Qed.

(** Directional keys followed by a defocus leave the roller on the snapshot
    it had: the moves are reverted as one.  In normal mode this is so with
    any ready callbacks of the scroll animation between them too; in infinite
    mode with an animated refresh it is so as long as no ready callback runs
    before the defocus (the callback normalizes, which overwrites the
    snapshot). *)
Theorem keys_then_defocus_revert r ops :
  roller_inv P r -> keeps_ids r ->
  forallb (key_or_ready (negb (is_infinite r))) ops = true ->
  exists r', run_ops P r (ops ++ [OpSignal LV_SIGNAL_DEFOCUS]) = Some r'
    /\ sel_opt_id r' = sel_opt_id_ori r
    /\ sel_opt_id_ori r' = sel_opt_id_ori r
    /\ same_options r r'.
Proof.
  intros Hinv Hk Hops.
  destruct (keys_ready_run ops r Hinv Hk Hops) as (r1 & E1 & Hinv1 & Hk1 & Ho1 & Hsame1).
  rewrite (run_ops_app _ _ _ _ E1). cbn [run_ops run_op lv_roller_signal].
  destruct (Z.eqb_spec (sel_opt_id r1) (sel_opt_id_ori r1)) as [Heq|Hne]; cbn [negb].
  - cbn. exists r1. split; [reflexivity|]. split; [congruence|].
    split; [congruence | exact Hsame1].
  - rewrite refr_position_keeps
      by (eapply keeps_ids_same; [|exact Hk1]; unfold same_options; cbn; tauto).
    cbn. eexists; split; [reflexivity|]. cbn.
    split; [exact Ho1|]. split; [exact Ho1|].
    eapply same_options_trans; [exact Hsame1|]. unfold same_options; cbn; tauto.
Qed.

Lemma control_ops_defined keys : forallb op_defined (control_ops keys) = true.
Proof. induction keys as [|c keys IH]; [reflexivity | exact IH]. Qed.

(** Any directional keys followed by a release from an encoder and a defocus
    leave the roller on what the keys selected, now also the snapshot, and
    the group out of its editing mode: the release commits.  This is so in
    both modes, with and without an animated refresh. *)
Theorem keys_then_release_commit r keys p :
  roller_inv P r ->
  exists r1 r',
    run_ops P r (control_ops keys) = Some r1
    /\ run_ops P r (control_ops keys
                    ++ [OpSignal (LV_SIGNAL_RELEASED LV_INDEV_TYPE_ENCODER p);
                        OpSignal LV_SIGNAL_DEFOCUS]) = Some r'
    /\ sel_opt_id r' = sel_opt_id r1
    /\ sel_opt_id_ori r' = sel_opt_id r1
    /\ editing r' = false.
Proof using P_pos.
  intros Hinv.
  destruct (run_ops_inv P P_pos (control_ops keys) r Hinv (control_ops_defined keys))
    as (r1 & E1 & _).
  exists r1. rewrite (run_ops_app _ _ _ _ E1).
  assert (Hfin : exists r',
            run_ops P r1 [OpSignal (LV_SIGNAL_RELEASED LV_INDEV_TYPE_ENCODER p);
                          OpSignal LV_SIGNAL_DEFOCUS] = Some r'
            /\ sel_opt_id r' = sel_opt_id r1
            /\ sel_opt_id_ori r' = sel_opt_id r1
            /\ editing r' = false).
  { clear. destruct r1 as [cnt sel ori md mv txt at_ ed].
    destruct ed; cbn; rewrite Z.eqb_refl; cbn;
      (eexists; split; [reflexivity|]); cbn; auto. }
  destruct Hfin as (r' & E & H1 & H2 & H3). exists r'. auto.
Qed.

(** What an animated [lv_roller_set_selected] stores: the clamped argument
    when the refresh waits for the animation or the roller is not infinite,
    and that id on the middle page when the refresh normalizes at once. *)
Lemma set_selected_stores r id :
  roller_inv P r ->
  exists r', lv_roller_set_selected P r id true = Some r'
    /\ (keeps_ids r -> sel_opt_id r' = clamp_id r id)
    /\ (is_infinite r = true -> anim_time r = 0 ->
        sel_opt_id r' = middle_page_id P (set_sel r (clamp_id r id)))
    /\ sel_opt_id_ori r' = sel_opt_id r'
    /\ same_options r r'.
Proof using P_pos.
  intros Hinv. pose proof Hinv as (Hc & Hs & Ho & Hi).
  rewrite set_selected_unfold. set (id' := clamp_id r id).
  unfold refr_position. cbn [negb orb anim_time set_ori set_sel].
  destruct (Z.eqb_spec (anim_time r) 0) as [Ha|Ha].
  - destruct (is_infinite r) eqn:Hm.
    + rewrite inf_normalize_infinite by (cbn; auto).
      eexists; split; [reflexivity|]. cbn [sel_opt_id sel_opt_id_ori set_ori set_sel].
      split; [intros [Hk|Hk]; [congruence | contradiction]|].
      split; [intros _ _; reflexivity|]. split; [reflexivity|].
      unfold same_options; cbn; tauto.
    + rewrite inf_normalize_normal by exact Hm.
      eexists; split; [reflexivity|]. cbn [sel_opt_id sel_opt_id_ori set_ori set_sel].
      split; [reflexivity|]. split; [discriminate|]. split; [reflexivity|].
      unfold same_options; cbn; tauto.
  - eexists; split; [reflexivity|]. cbn [sel_opt_id sel_opt_id_ori set_ori set_sel].
    split; [reflexivity|]. split; [intros _ Hz; contradiction|]. split; [reflexivity|].
    unfold same_options; cbn; tauto.
Qed.

(** A release after a drag selects the line at the middle of the roller,
    [(mid - label_y1) / label_unit], brought into the range of the options.
    The id that is stored is that line when the refresh waits for the
    animation or the roller is not infinite, and that line on the middle page
    when the roller is infinite and the refresh normalizes at once. *)
Theorem drag_release_clamps r indev p :
  roller_inv P r ->
  indev = LV_INDEV_TYPE_POINTER \/ indev = LV_INDEV_TYPE_BUTTON ->
  moved r = true -> label_unit p <> 0 -> option_cnt r <= 32768 ->
  exists r', release_handler P r indev p = Some r'
    /\ (keeps_ids r -> sel_opt_id r' = drag_target r p)
    /\ (is_infinite r = true -> anim_time r = 0 ->
        sel_opt_id r' = middle_page_id P (set_sel r (drag_target r p)))
    /\ sel_opt_id_ori r' = sel_opt_id r'
    /\ same_options r r'.
Proof using P_pos.
  intros Hinv Hdev Hmv Hu H15. pose proof Hinv as (Hc & Hs & Ho & Hi).
  set (q := (mid p - label_y1 p) ÷ label_unit p).
  assert (Hid : 0 <= drag_target r p < option_cnt r) by (unfold drag_target; lia).
  assert (Hcl : clamp_id r (drag_target r p) = drag_target r p).
  { unfold clamp_id. rewrite wrap16_id by (unfold is_u16 in *; lia).
    destruct (Z.ltb_spec (drag_target r p) (option_cnt r)); lia. }
  assert (Hbody :
    (new_opt ← (if negb (moved r) then
                  Some (tap_loop (label_text r) (Z.to_nat (letter_i p)) 0 0 (letter_i p) 0)
                else if label_unit p =? 0 then None
                else
                  let id := q in
                  let id := if id <? 0 then 0 else id in
                  let id := if option_cnt r <=? id then option_cnt r - 1 else id in
                  Some (wrap_s16 id));
     if 0 <=? new_opt then lv_roller_set_selected P r new_opt true else Some r)
    = lv_roller_set_selected P r (drag_target r p) true).
  { rewrite Hmv. cbn [negb]. destruct (Z.eqb_spec (label_unit p) 0); [contradiction|].
    cbv zeta.
    assert (Hclamp : (if option_cnt r <=? (if q <? 0 then 0 else q)
                      then option_cnt r - 1 else (if q <? 0 then 0 else q))
                     = drag_target r p).
    { unfold drag_target. fold q. destruct (Z.ltb_spec q 0);
        destruct (Z.leb_spec (option_cnt r) 0); try lia;
        destruct (Z.leb_spec (option_cnt r) q); lia. }
    rewrite Hclamp. rewrite wrap_s16_id by lia. cbn [mbind option_bind].
    destruct (Z.leb_spec 0 (drag_target r p)); [reflexivity|lia]. }
  destruct (set_selected_stores r (drag_target r p) Hinv)
    as (r' & E & Hkeep & Hnorm & Hori & Hsame).
  rewrite Hcl in Hkeep, Hnorm.
  exists r'. split; [|auto].
  unfold release_handler. destruct Hdev as [-> | ->]; rewrite <- E; exact Hbody.
Qed.

End Pages.
(** *** The theorems on the examples *)

Lemma set_options_normal_counts_lines_witness :
  (∃ r' : lv_roller_t,
     lv_roller_set_options 5 blank_roller abc_options LV_ROLLER_MODE_NORMAL = Some r'
     ∧ lv_roller_get_option_cnt 5 r' = nl_count abc_options + 1
       ∧ lv_roller_get_selected 5 r' = Some 0
         ∧ sel_opt_id_ori r' = 0
           ∧ lv_roller_get_options r' = abc_options ∧ roller_inv 5 r').
Proof.
  apply (set_options_normal_counts_lines 5 blank_roller abc_options).
  - vm_compute; reflexivity.
Defined.

Lemma set_options_infinite_middle_page_witness :
  exists r',
    lv_roller_set_options 5 blank_roller abc_options LV_ROLLER_MODE_INFINITE = Some r'
    /\ option_cnt r' = (nl_count abc_options + 1) * 5
    /\ lv_roller_get_option_cnt 5 r' = nl_count abc_options + 1
    /\ lv_roller_get_selected 5 r' = Some 0
    /\ sel_opt_id r' = (5 / 2) * (nl_count abc_options + 1)
    /\ sel_opt_id_ori r' = sel_opt_id r'
    /\ lv_roller_get_options r' = inf_pages_text abc_options (Z.to_nat 5)
    /\ roller_inv 5 r'.
Proof.
  apply (proj1 (set_options_infinite_middle_page 5 ltac:(lia) blank_roller abc_options
                  ltac:(vm_compute; reflexivity))).
  lia.
Defined.

Lemma set_selected_normal_clamps_witness :
  (∃ r' : lv_roller_t,
     lv_roller_set_selected 5 abc_normal 5 false = Some r'
     ∧ sel_opt_id r' = 5 `min` (option_cnt abc_normal - 1)
       ∧ sel_opt_id_ori r' = 5 `min` (option_cnt abc_normal - 1)
         ∧ lv_roller_get_selected 5 r' = Some (5 `min` (option_cnt abc_normal - 1))
           ∧ same_options abc_normal r').
Proof.
  apply (set_selected_normal_clamps 5 abc_normal 5 false).
  - reflexivity.
  - unfold is_u16; cbn; lia.
  - cbn; lia.
  - unfold is_u16; cbn; lia.
Defined.

Lemma logical_selection_in_range_witness :
  (∃ (r' : lv_roller_t) (v : Z),
     run_ops 5 abc_infinite example_ops = Some r'
     ∧ lv_roller_get_selected 5 r' = Some v
       ∧ 0 ≤ v < lv_roller_get_option_cnt 5 r'
         ∧ lv_roller_get_option_cnt 5 r' = lv_roller_get_option_cnt 5 abc_infinite).
Proof.
  apply (logical_selection_in_range
           5 ltac:(lia) blank_roller abc_options LV_ROLLER_MODE_INFINITE abc_infinite example_ops).
  - reflexivity.
  - cbn; lia.
  - reflexivity.
Defined.

Lemma inf_normalize_keeps_logical_selection_witness :
  exists r', inf_normalize 5 (set_sel abc_infinite 14) = Some r'
    /\ lv_roller_get_selected 5 r' = lv_roller_get_selected 5 (set_sel abc_infinite 14)
    /\ lv_roller_get_option_cnt 5 r'
       = lv_roller_get_option_cnt 5 (set_sel abc_infinite 14)
    /\ lv_roller_get_options r' = lv_roller_get_options (set_sel abc_infinite 14)
    /\ (is_infinite (set_sel abc_infinite 14) = true ->
        sel_opt_id r' = middle_page_id 5 (set_sel abc_infinite 14)
        /\ sel_opt_id_ori r' = middle_page_id 5 (set_sel abc_infinite 14))
    /\ (is_infinite (set_sel abc_infinite 14) = false -> r' = set_sel abc_infinite 14).
Proof.
  apply (inf_normalize_keeps_logical_selection 5 ltac:(lia) (set_sel abc_infinite 14)).
  - unfold roller_inv, is_u16; cbn; repeat split; try lia; intros; lia.
Defined.

Lemma control_key_moves_by_one_witness :
  (∃ r' : lv_roller_t,
     lv_roller_signal 5 abc_infinite (LV_SIGNAL_CONTROL LV_KEY_RIGHT) = Some r'
     ∧ sel_opt_id r' = key_target abc_infinite LV_KEY_RIGHT
       ∧ 0 ≤ sel_opt_id r' < option_cnt abc_infinite
         ∧ sel_opt_id_ori r' = sel_opt_id_ori abc_infinite ∧ same_options abc_infinite r').
Proof.
  apply (control_key_moves_by_one 5 abc_infinite LV_KEY_RIGHT).
  - unfold roller_inv, is_u16; cbn; repeat split; try lia; intros; lia.
  - right; cbn; discriminate.
Defined.

Lemma keys_then_defocus_revert_witness :
  exists r',
    run_ops 5 abc_normal (example_key_ops ++ [OpSignal LV_SIGNAL_DEFOCUS]) = Some r'
    /\ sel_opt_id r' = sel_opt_id_ori abc_normal
    /\ sel_opt_id_ori r' = sel_opt_id_ori abc_normal
    /\ same_options abc_normal r'.
Proof.
  apply (keys_then_defocus_revert 5 abc_normal example_key_ops).
  - unfold roller_inv, is_u16; cbn; repeat split; try lia; intros; lia.
  - left; reflexivity.
  - reflexivity.
Defined.

Lemma keys_then_release_commit_witness :
  exists r1 r',
    run_ops 5 abc_unanimated (control_ops [LV_KEY_RIGHT; LV_KEY_DOWN]) = Some r1
    /\ run_ops 5 abc_unanimated
         (control_ops [LV_KEY_RIGHT; LV_KEY_DOWN]
          ++ [OpSignal (LV_SIGNAL_RELEASED LV_INDEV_TYPE_ENCODER drag_pointer);
              OpSignal LV_SIGNAL_DEFOCUS]) = Some r'
    /\ sel_opt_id r' = sel_opt_id r1
    /\ sel_opt_id_ori r' = sel_opt_id r1
    /\ editing r' = false.
Proof.
  apply (keys_then_release_commit
           5 ltac:(lia) abc_unanimated [LV_KEY_RIGHT; LV_KEY_DOWN] drag_pointer).
  - unfold roller_inv, is_u16; cbn; repeat split; try lia; intros; lia.
Defined.

Lemma drag_release_clamps_witness :
  exists r',
    release_handler 5 (set_moved abc_unanimated true) LV_INDEV_TYPE_POINTER drag_pointer
    = Some r'
    /\ (keeps_ids (set_moved abc_unanimated true) ->
        sel_opt_id r' = drag_target (set_moved abc_unanimated true) drag_pointer)
    /\ (is_infinite (set_moved abc_unanimated true) = true ->
        anim_time (set_moved abc_unanimated true) = 0 ->
        sel_opt_id r'
        = middle_page_id 5 (set_sel (set_moved abc_unanimated true)
                                    (drag_target (set_moved abc_unanimated true)
                                                 drag_pointer)))
    /\ sel_opt_id_ori r' = sel_opt_id r'
    /\ same_options (set_moved abc_unanimated true) r'.
Proof.
  apply (drag_release_clamps
           5 ltac:(lia) (set_moved abc_unanimated true) LV_INDEV_TYPE_POINTER drag_pointer).
  - unfold roller_inv, is_u16; cbn; repeat split; try lia; intros; lia.
  - left; reflexivity.
  - reflexivity.
  - cbn; discriminate.
  - cbn; lia.
Defined.

End RollerMore.

(** ** The roller: texts *)

Module RollerTextMore.
Import Roller RollerFacts RollerProofs RollerText RollerMore.

Lemma copy_line_unlimited txt : forall c buf,
  0 <= c <= Z.of_nat (length buf) ->
  (c + Z.of_nat (length (line_of txt)) <= Z.of_nat (length buf) ->
   exists buf',
     copy_line txt c 0 buf = Some (c + Z.of_nat (length (line_of txt)), buf')
     /\ length buf' = length buf
     /\ (forall j, 0 <= j < Z.of_nat (length (line_of txt)) ->
           load buf' (c + j) = load (line_of txt) j)
     /\ (forall j, j < c \/ c + Z.of_nat (length (line_of txt)) <= j ->
           load buf' j = load buf j))
  /\ (Z.of_nat (length buf) < c + Z.of_nat (length (line_of txt)) ->
      copy_line txt c 0 buf = None).
Proof.
  induction txt as [|ch rest IH]; intros c buf Hc.
  - cbn. split; [|lia]. intros _. exists buf. rewrite Z.add_0_r.
    repeat split; auto; intros; lia.
  - cbn [copy_line line_of]. destruct (Ascii.eqb ch nl).
    { cbn. split; [|lia]. intros _. exists buf. rewrite Z.add_0_r.
      repeat split; auto; intros; lia. }
    cbn [Z.eqb negb andb length].
    destruct (Z.lt_ge_cases c (Z.of_nat (length buf))) as [Hin|Hout].
    + destruct (store_spec buf c ch ltac:(lia)) as (buf1 & E1 & Hl1 & Hat & Hother).
      rewrite E1. cbn [mbind option_bind].
      destruct (IH (c + 1) buf1 ltac:(lia)) as (IHfit & IHover).
      split.
      * intros Hfit. destruct IHfit as (buf' & E & Hl & Hcopy & Hrest); [lia|].
        exists buf'. split; [rewrite E; do 2 f_equal; lia|]. split; [congruence|].
        split.
        -- intros j Hj. destruct (Z.eq_dec j 0) as [->|Hj0].
           ++ rewrite Z.add_0_r, load_cons_0, Hrest by lia. exact Hat.
           ++ rewrite load_cons_pos by lia. rewrite <- Hcopy by lia. f_equal. lia.
        -- intros j Hj. rewrite Hrest by lia. apply Hother. lia.
      * intros Hover. apply IHover. lia.
    + split; [lia|]. intros _. unfold store.
      destruct (Z.leb_spec 0 c); [|lia].
      destruct (Z.ltb_spec c (Z.of_nat (length buf))); [lia|]. reflexivity.
Qed.

(** With [buf_size = 0] the size is ignored: [lv_roller_get_selected_str]
    copies the whole selected line and its terminator when the buffer has
    room for both, and writes past the end of the buffer when it has not. *)
Theorem get_selected_str_unlimited r buf :
  is_u16 (sel_opt_id r) ->
  let line := nth_line (label_text r) (Z.to_nat (sel_opt_id r)) in
  let len := Z.of_nat (length line) in
  (len < Z.of_nat (length buf) ->
   exists buf',
     lv_roller_get_selected_str r buf 0 = Some (len, buf')
     /\ length buf' = length buf
     /\ (forall j, 0 <= j < len -> load buf' j = load line j)
     /\ load buf' len = Some zero
     /\ (forall j, len < j -> load buf' j = load buf j))
  /\ (Z.of_nat (length buf) <= len -> lv_roller_get_selected_str r buf 0 = None).
Proof.
  intros Hsel line len. unfold lv_roller_get_selected_str.
  destruct (copy_line_unlimited (skip_to_line (label_text r) 0 (sel_opt_id r)) 0 buf
              ltac:(lia)) as (Hfit & Hover).
  rewrite skip_to_line_nth in Hfit, Hover by (unfold is_u16 in Hsel; lia).
  rewrite Z.sub_0_r in Hfit, Hover. fold line in Hfit, Hover. fold len in Hfit, Hover.
  rewrite Z.add_0_l in Hfit, Hover. split.
  - intros Hroom. destruct Hfit as (buf1 & E & Hl1 & Hcopy & Hrest); [lia|].
    rewrite E. cbn [mbind option_bind].
    destruct (store_spec buf1 len zero ltac:(lia)) as (buf' & E' & Hl' & Hat & Hother).
    rewrite E'. cbn. exists buf'. split; [reflexivity|]. split; [congruence|].
    split; [|split].
    + intros j Hj. rewrite Hother by lia. apply (Hcopy j Hj).
    + exact Hat.
    + intros j Hj. rewrite Hother by lia. apply Hrest. lia.
  - intros Hshort. destruct (Z.eq_dec (Z.of_nat (length buf)) len) as [Heq|Hne].
    + destruct Hfit as (buf1 & E & Hl1 & _); [lia|].
      rewrite E. cbn [mbind option_bind]. unfold store.
      destruct (Z.leb_spec 0 len); [|lia].
      destruct (Z.ltb_spec len (Z.of_nat (length buf1))); [lia|]. reflexivity.
    + rewrite Hover by lia. reflexivity.
Qed.

(** *** The replicated text *)

Lemma line_of_app_nl l rest : line_of (l ++ nl :: rest) = line_of l.
Proof.
  induction l as [|ch l IH]; cbn.
  - reflexivity.
  - destruct (Ascii.eqb ch nl); [reflexivity | now rewrite IH].
Qed.

Lemma nth_line_nil k : nth_line [] k = [].
Proof. reflexivity. Qed.

Lemma nth_line_app_nl l rest : forall k,
  nth_line (l ++ nl :: rest) k
  = if (Z.of_nat k <=? nl_count l) then nth_line l k
    else nth_line rest (k - Z.to_nat (nl_count l) - 1).
Proof.
  induction l as [|ch l IH]; intros k.
  - cbn [app nl_count]. destruct k as [|k]; cbn; [reflexivity|].
    destruct (Z.leb_spec (Z.pos (Pos.of_succ_nat k)) 0); [lia|].
    f_equal. lia.
  - pose proof (nl_count_nonneg l) as H0.
    cbn [app nth_line nl_count]. destruct k as [|k].
    + destruct (Z.leb_spec (Z.of_nat 0) ((if Ascii.eqb ch nl then 1 else 0) + nl_count l));
        [|destruct (Ascii.eqb ch nl); lia].
      change (ch :: l ++ nl :: rest) with ((ch :: l) ++ nl :: rest).
      apply line_of_app_nl.
    + destruct (Ascii.eqb ch nl).
      * rewrite IH.
        destruct (Z.leb_spec (Z.of_nat k) (nl_count l));
          destruct (Z.leb_spec (Z.of_nat (S k)) (1 + nl_count l)); try lia;
          [reflexivity | f_equal; lia].
      * rewrite IH. rewrite Z.add_0_l. reflexivity.
Qed.

Lemma inf_pages_text_succ options p :
  inf_pages_text options (S (S p)) = options ++ nl :: inf_pages_text options (S p).
Proof. reflexivity. Qed.

(** Line [k] of the text of [pages] pages is line [k mod n] of the options,
    [n] being their number. *)
Lemma inf_pages_text_line options pages : forall k,
  0 <= k < (nl_count options + 1) * Z.of_nat pages ->
  nth_line (inf_pages_text options pages) (Z.to_nat k)
  = nth_line options (Z.to_nat (k mod (nl_count options + 1))).
Proof.
  pose proof (nl_count_nonneg options) as H0.
  induction pages as [|[|p] IH]; intros k Hk.
  - lia.
  - cbn [inf_pages_text]. rewrite Z.mod_small by lia. reflexivity.
  - rewrite inf_pages_text_succ, nth_line_app_nl.
    destruct (Z.leb_spec (Z.of_nat (Z.to_nat k)) (nl_count options)).
    + rewrite Z.mod_small by lia. reflexivity.
    + replace (Z.to_nat k - Z.to_nat (nl_count options) - 1)%nat
        with (Z.to_nat (k - (nl_count options + 1))) by lia.
      rewrite IH by lia. f_equal. f_equal.
      replace k with (k - (nl_count options + 1) + 1 * (nl_count options + 1)) at 2 by lia.
      now rewrite Z.mod_add by lia.
Qed.

Section Pages.

Variable P : Z.
Hypothesis P_pos : 1 <= P.

(** In infinite mode, whatever is done to the roller after
    [lv_roller_set_options], the line of the label that
    [lv_roller_get_selected_str] reads, the one at the stored absolute id, is
    the line of the options at the index [lv_roller_get_selected] returns. *)
Theorem infinite_selected_line_is_logical r options r0 ops :
  (nl_count options + 1) * P < 65536 ->
  lv_roller_set_options P r options LV_ROLLER_MODE_INFINITE = Some r0 ->
  forallb op_defined ops = true ->
  exists r' v, run_ops P r0 ops = Some r'
    /\ lv_roller_get_selected P r' = Some v
    /\ nth_line (lv_roller_get_options r') (Z.to_nat (sel_opt_id r'))
       = nth_line options (Z.to_nat v).
Proof using P_pos.
  intros Hfit Hset Hd. pose proof (nl_count_nonneg options) as H0.
  assert (HP : P < 256).
  { destruct (Z.lt_ge_cases P 256) as [HP|HP]; [exact HP|].
    rewrite set_options_infinite_wraps in Hset by exact HP. discriminate. }
  destruct (set_options_infinite_spec P P_pos r options HP Hfit)
    as (r0' & E0 & Hinf0 & Hcnt & _ & _ & _ & _ & Htxt & Hinv).
  rewrite Hset in E0. injection E0 as <-.
  destruct (run_ops_inv P P_pos ops r0 Hinv Hd) as (r' & E & Hinv' & Hsame).
  destruct Hsame as (Hc' & Hm' & Ht' & _).
  assert (Hinf : is_infinite r' = true)
    by (unfold is_infinite in *; rewrite Hm'; exact Hinf0).
  pose proof Hinv' as (Hu & Hs & _ & Hp).
  assert (Hdiv : option_cnt r' / P = nl_count options + 1).
  { rewrite Hc', Hcnt. apply Z.div_mul. lia. }
  assert (Eget : lv_roller_get_selected P r'
                 = Some (sel_opt_id r' mod (nl_count options + 1))).
  { unfold lv_roller_get_selected. rewrite Hinf, wrap16_real, Hdiv by assumption.
    destruct (Z.eqb_spec (nl_count options + 1) 0); [lia|].
    f_equal. apply wrap16_id.
    pose proof (Z.mod_pos_bound (sel_opt_id r') (nl_count options + 1) ltac:(lia)).
    unfold is_u16 in *. nia. }
  exists r', (sel_opt_id r' mod (nl_count options + 1)).
  split; [exact E|]. split; [exact Eget|].
  unfold lv_roller_get_options in *. rewrite Ht', Htxt.
  apply inf_pages_text_line. rewrite Z2Nat.id by lia. rewrite <- Hcnt, <- Hc'. exact Hs.
Qed.

Lemma tap_loop_counts txt letter_i : forall n i acc,
  0 <= i -> i + Z.of_nat n <= letter_i -> 0 <= acc ->
  acc + nl_count (take n (drop (Z.to_nat i) txt)) < 32768 ->
  tap_loop txt n i i letter_i acc = acc + nl_count (take n (drop (Z.to_nat i) txt)).
Proof.
  induction n as [|n IH]; intros i acc Hi Hn Hacc Hlt; cbn [tap_loop].
  - rewrite take_0. cbn. lia.
  - destruct (Z.eqb_spec i letter_i) as [|_]; [lia|]. cbn [negb].
    rewrite andb_true_r.
    destruct (load txt i) as [ch|] eqn:El; cbn [default]; unfold id.
    + assert (Hdrop : drop (Z.to_nat i) txt = ch :: drop (S (Z.to_nat i)) txt).
      { apply drop_S. unfold load in El. destruct (Z.leb_spec 0 i); [exact El | lia]. }
      rewrite Hdrop in Hlt |- *. cbn [take nl_count] in Hlt |- *.
      replace (S (Z.to_nat i)) with (Z.to_nat (i + 1)) in Hlt |- * by lia.
      pose proof (nl_count_nonneg (take n (drop (Z.to_nat (i + 1)) txt))) as H0.
      destruct (Ascii.eqb ch nl); cbv iota in Hlt |- *; cbn [andb].
      * rewrite wrap_s16_id by lia. rewrite IH; lia.
      * rewrite IH; lia.
    + assert (Hge : (length txt <= Z.to_nat i)%nat).
      { unfold load in El. destruct (Z.leb_spec 0 i); [|lia].
        now apply lookup_ge_None in El. }
      rewrite (drop_ge txt (Z.to_nat i)) in Hlt |- * by exact Hge.
      rewrite take_nil in Hlt |- *. cbn [nl_count] in Hlt |- *.
      change (Ascii.eqb zero nl) with false. cbn [andb].
      rewrite IH; try lia;
        rewrite (drop_ge txt (Z.to_nat (i + 1))) by lia;
        rewrite take_nil; cbn [nl_count]; lia.
Qed.

(** A release without a drag selects the line of the letter under the
    pointer: the number of ['\n'] before that letter, for a text of one-byte
    letters, or the last option when the label has more lines than options.
    The id that is stored is that line when the refresh waits for the
    animation or the roller is not infinite, and that line on the middle page
    when the roller is infinite and the refresh normalizes at once. *)
Theorem tap_release_selects_line r indev p :
  roller_inv P r ->
  indev = LV_INDEV_TYPE_POINTER \/ indev = LV_INDEV_TYPE_BUTTON ->
  moved r = false -> 0 <= letter_i p ->
  nl_count (take (Z.to_nat (letter_i p)) (label_text r)) < 32768 ->
  exists r', release_handler P r indev p = Some r'
    /\ (keeps_ids r -> sel_opt_id r' = tap_target r p)
    /\ (is_infinite r = true -> anim_time r = 0 ->
        sel_opt_id r' = middle_page_id P (set_sel r (tap_target r p)))
    /\ sel_opt_id_ori r' = sel_opt_id r'
    /\ same_options r r'.
Proof using P_pos.
  intros Hinv Hdev Hmv Hl Hlt. pose proof Hinv as (Hc & Hs & Ho & Hi).
  unfold tap_target.
  set (k := nl_count (take (Z.to_nat (letter_i p)) (label_text r))) in *.
  pose proof (nl_count_nonneg (take (Z.to_nat (letter_i p)) (label_text r))) as H0.
  fold k in H0.
  assert (Htap : tap_loop (label_text r) (Z.to_nat (letter_i p)) 0 0 (letter_i p) 0 = k).
  { rewrite tap_loop_counts; try lia.
    - change (Z.to_nat 0) with O. rewrite drop_0. fold k. lia.
    - change (Z.to_nat 0) with O. rewrite drop_0. fold k. lia. }
  assert (Hcl : clamp_id r k = Z.min k (option_cnt r - 1)).
  { unfold clamp_id. rewrite wrap16_id by (unfold is_u16; lia).
    unfold is_u16 in Hc.
    destruct (Z.ltb_spec k (option_cnt r)); [lia|].
    rewrite wrap16_id by (unfold is_u16; lia). lia. }
  assert (Hbody :
    (new_opt ← (if negb (moved r) then
                  Some (tap_loop (label_text r) (Z.to_nat (letter_i p)) 0 0 (letter_i p) 0)
                else if label_unit p =? 0 then None
                else
                  let id := (mid p - label_y1 p) ÷ label_unit p in
                  let id := if id <? 0 then 0 else id in
                  let id := if option_cnt r <=? id then option_cnt r - 1 else id in
                  Some (wrap_s16 id));
     if 0 <=? new_opt then lv_roller_set_selected P r new_opt true else Some r)
    = lv_roller_set_selected P r k true).
  { rewrite Hmv. cbn [negb]. rewrite Htap. cbn [mbind option_bind].
    destruct (Z.leb_spec 0 k); [reflexivity|lia]. }
  destruct (set_selected_stores P P_pos r k Hinv)
    as (r' & E & Hkeep & Hnorm & Hori & Hsame).
  rewrite Hcl in Hkeep, Hnorm.
  exists r'. split; [|auto].
  unfold release_handler. destruct Hdev as [-> | ->]; rewrite <- E; exact Hbody.
Qed.

End Pages.
(** *** The theorems on the examples *)

Lemma get_selected_str_unlimited_witness :
  (let line :=
     nth_line (label_text (set_sel abc_infinite 7))
       (Z.to_nat (sel_opt_id (set_sel abc_infinite 7)))
     in
   let len := Z.of_nat (length line) in
   (len < Z.of_nat (length (replicate 4 "x"%char))
    → ∃ buf' : list ascii,
        lv_roller_get_selected_str (set_sel abc_infinite 7) (replicate 4 "x"%char) 0 =
        Some (len, buf')
        ∧ length buf' = length (replicate 4 "x"%char)
          ∧ (∀ j : Z, 0 ≤ j < len → load buf' j = load line j)
            ∧ load buf' len = Some zero
              ∧ ∀ j : Z, len < j → load buf' j = load (replicate 4 "x"%char) j)
   ∧ (Z.of_nat (length (replicate 4 "x"%char)) ≤ len
      → lv_roller_get_selected_str (set_sel abc_infinite 7) (replicate 4 "x"%char) 0 =
        None)).
Proof.
  apply (get_selected_str_unlimited (set_sel abc_infinite 7) (replicate 4 "x"%char)).
  - unfold is_u16; cbn; lia.
Defined.

Lemma infinite_selected_line_is_logical_witness :
  (∃ (r' : lv_roller_t) (v : Z),
     run_ops 5 abc_infinite example_ops = Some r'
     ∧ lv_roller_get_selected 5 r' = Some v
       ∧ nth_line (lv_roller_get_options r') (Z.to_nat (sel_opt_id r')) =
         nth_line abc_options (Z.to_nat v)).
Proof.
  apply (infinite_selected_line_is_logical
           5 ltac:(lia) blank_roller abc_options abc_infinite example_ops).
  - vm_compute; reflexivity.
  - reflexivity.
  - reflexivity.
Defined.

Lemma tap_release_selects_line_witness :
  exists r',
    release_handler 5 abc_infinite LV_INDEV_TYPE_POINTER tap_pointer = Some r'
    /\ (keeps_ids abc_infinite -> sel_opt_id r' = tap_target abc_infinite tap_pointer)
    /\ (is_infinite abc_infinite = true -> anim_time abc_infinite = 0 ->
        sel_opt_id r'
        = middle_page_id 5 (set_sel abc_infinite (tap_target abc_infinite tap_pointer)))
    /\ sel_opt_id_ori r' = sel_opt_id r'
    /\ same_options abc_infinite r'.
Proof.
  apply (tap_release_selects_line 5 ltac:(lia) abc_infinite LV_INDEV_TYPE_POINTER tap_pointer).
  - unfold roller_inv, is_u16; cbn; repeat split; try lia; intros; lia.
  - left; reflexivity.
  - reflexivity.
  - cbn; lia.
  - vm_compute; reflexivity.
Defined.

End RollerTextMore.

(** ** The table: counts, widths and cells *)

Module TableMore.
Import Table TableProofs.

Lemma fmt_flags_zero : fmt_crop 0 = false /\ fmt_right_merge 0 = false.
Proof. split; reflexivity. Qed.

(** Inside the table the getters read the cell pointer. *)
Lemma cell_getters_in_range t row col :
  0 <= row < row_cnt t -> 0 <= col < col_cnt t ->
  cell_getters t row col
  = (p ← load (cell_data t) (row * col_cnt t + col); Some (cell_text p),
     p ← load (cell_data t) (row * col_cnt t + col); Some (fmt_crop (cell_format p)),
     p ← load (cell_data t) (row * col_cnt t + col);
       Some (fmt_right_merge (cell_format p))).
Proof.
  intros Hr Hc.
  unfold cell_getters, lv_table_get_cell_value, lv_table_get_cell_crop,
    lv_table_get_cell_merge_right.
  destruct (Z.leb_spec (row_cnt t) row); [lia|].
  destruct (Z.leb_spec (col_cnt t) col); [lia|]. cbn [orb].
  destruct (load _ _) as [[c|]|]; cbn [mbind option_bind cell_text cell_format];
    try reflexivity.
  destruct (fmt_right_merge (format_byte c)); reflexivity.
Qed.

Lemma cell_getters_same_load t t' row col row' col' :
  0 <= row < row_cnt t -> 0 <= col < col_cnt t ->
  0 <= row' < row_cnt t' -> 0 <= col' < col_cnt t' ->
  load (cell_data t') (row' * col_cnt t' + col')
    = load (cell_data t) (row * col_cnt t + col) ->
  cell_getters t' row' col' = cell_getters t row col.
Proof.
  intros Hr Hc Hr' Hc' E. rewrite !cell_getters_in_range by assumption.
  now rewrite E.
Qed.

Lemma cell_getters_null t row col :
  load (cell_data t) (row * col_cnt t + col) = Some None ->
  cell_getters t row col = (Some EmptyString, Some false, Some false).
Proof.
  intros E.
  unfold cell_getters, lv_table_get_cell_value, lv_table_get_cell_crop,
    lv_table_get_cell_merge_right.
  destruct ((row_cnt t <=? row) || (col_cnt t <=? col)); [reflexivity|].
  rewrite E. reflexivity.
Qed.

Section Env.

Variable e : table_env.

(** [lv_table_set_row_cnt] on a well-formed table: the resized grid, which
    is then handed to [refr_size]. *)
Lemma set_row_cnt_resize t n :
  table_wf t -> 0 <= n ->
  exists t1, lv_table_set_row_cnt e t n = refr_size e t1
    /\ table_wf t1 /\ col_cnt t1 = col_cnt t /\ row_cnt t1 = n
    /\ col_w t1 = col_w t
    /\ (forall j, 0 <= j < Z.min (row_cnt t) n * col_cnt t ->
          load (cell_data t1) j = load (cell_data t) j)
    /\ (forall j, row_cnt t * col_cnt t <= j < n * col_cnt t ->
          load (cell_data t1) j = Some None).
Proof.
  intros Hwf Hn. pose proof Hwf as (Hc & Hr & Hd & Hh & Hw).
  unfold lv_table_set_row_cnt.
  cbn [col_cnt row_cnt row_h cell_data set_row_cnt_field set_row_h].
  set (t1 := set_cell_data _ _).
  assert (H0 : 0 <= n * col_cnt t) by nia.
  exists t1. split; [reflexivity|]. split.
  { unfold table_wf, t1, realloc; cbn. rewrite !length_resize. repeat split; lia. }
  split; [reflexivity|]. split; [reflexivity|]. split; [reflexivity|].
  cbn [cell_data t1 set_cell_data]. unfold realloc. split.
  - intros j Hj. unfold load. destruct (Z.leb_spec 0 j); [|reflexivity].
    apply lookup_resize; nia.
  - intros j Hj. unfold load. destruct (Z.leb_spec 0 j); [|nia].
    apply lookup_resize_new; nia.
Qed.

(** Changing the row count keeps the rows that remain, cell by cell, and the
    rows it adds are empty; the call completes when the cell indices of the
    new grid fit the [uint16_t] of the height refresh. *)
Theorem set_row_cnt_keeps_rows t n :
  table_wf t -> 0 <= n ->
  (fits16 n (col_cnt t) -> exists t', lv_table_set_row_cnt e t n = Some t')
  /\ (forall t', lv_table_set_row_cnt e t n = Some t' ->
        row_cnt t' = n /\ col_cnt t' = col_cnt t /\ table_wf t'
        /\ (forall r c, 0 <= r < Z.min (row_cnt t) n -> 0 <= c < col_cnt t ->
              cell_getters t' r c = cell_getters t r c)
        /\ (forall r c, row_cnt t <= r < n -> 0 <= c < col_cnt t ->
              cell_getters t' r c = (Some EmptyString, Some false, Some false))).
Proof.
  intros Hwf Hn. pose proof Hwf as (Hc & Hr & _).
  destruct (set_row_cnt_resize t n Hwf Hn)
    as (t1 & E1 & Hwf1 & Hc1 & Hr1 & _ & Hkept & Hnew).
  split.
  - intros Hfit. rewrite E1.
    destruct (refr_size_total e t1 Hwf1) as (t' & E & _); [|eauto].
    rewrite Hc1, Hr1. exact Hfit.
  - intros t' E. rewrite E1 in E. pose proof (refr_size_same e _ _ E) as Hsame.
    pose proof (same_cells_wf _ _ Hsame Hwf1) as Hwf'.
    destruct Hsame as (Hcc & Hrc & Hcd & _).
    split; [congruence|]. split; [congruence|]. split; [exact Hwf'|]. split.
    + intros r c Hrr Hcc'.
      assert (Hr' : 0 <= r < row_cnt t') by (rewrite Hrc, Hr1; lia).
      assert (Hc' : 0 <= c < col_cnt t') by (rewrite Hcc, Hc1; lia).
      apply cell_getters_same_load; try assumption; try lia.
      rewrite Hcd, Hcc, Hc1. apply Hkept. nia.
    + intros r c Hrr Hcc'. apply cell_getters_null.
      rewrite Hcd, Hcc, Hc1. apply Hnew. nia.
Qed.

(** Changing the column count completes when the cell indices of the new
    grid fit the [uint16_t] of the height refresh; it keeps the cells of the
    columns that remain and leaves the cells of the columns it adds empty. *)
Theorem set_col_cnt_keeps_columns t n :
  table_wf t -> 0 <= n ->
  (fits16 (row_cnt t) n -> exists t', lv_table_set_col_cnt e t n = Some t')
  /\ (forall t', lv_table_set_col_cnt e t n = Some t' ->
        col_cnt t' = n /\ row_cnt t' = row_cnt t /\ table_wf t'
        /\ (forall r c, 0 <= r < row_cnt t -> 0 <= c < Z.min (col_cnt t) n ->
              cell_getters t' r c = cell_getters t r c)
        /\ (forall r c, 0 <= r < row_cnt t -> col_cnt t <= c < n ->
              cell_getters t' r c = (Some EmptyString, Some false, Some false))).
Proof.
  intros Hwf Hn. split.
  { intros Hfit. destruct (set_col_cnt_spec e t n Hwf Hn Hfit) as (t' & E & _). eauto. }
  intros t' E. pose proof Hwf as (Hc & Hr & _).
  destruct (set_col_cnt_remap e t n Hwf Hn)
    as (t1 & E1 & Hwf1 & Hc1 & Hr1 & Hkept & Hnew).
  rewrite E1 in E. pose proof (refr_size_same e _ _ E) as Hsame.
  pose proof (same_cells_wf _ _ Hsame Hwf1) as Hwf'.
  destruct Hsame as (Hcc & Hrc & Hcd & _).
  split; [congruence|]. split; [congruence|]. split; [exact Hwf'|]. split.
  - intros r c Hrr Hcc'.
    assert (Hr' : 0 <= r < row_cnt t') by (rewrite Hrc, Hr1; lia).
    assert (Hc' : 0 <= c < col_cnt t') by (rewrite Hcc, Hc1; lia).
    apply cell_getters_same_load; try assumption; try lia.
    rewrite Hcd, Hcc, Hc1. apply Hkept; lia.
  - intros r c Hrr Hcc'. apply cell_getters_null.
    rewrite Hcd, Hcc, Hc1. apply Hnew; lia.
Qed.


Lemma init_col_w_spec n : forall col w,
  0 <= col -> col + Z.of_nat n <= Z.of_nat (length w) ->
  exists w', init_col_w e n col w = Some w' /\ length w' = length w
    /\ (forall j, col <= j < col + Z.of_nat n -> load w' j = Some (LV_DPI_DEF e))
    /\ (forall j, j < col \/ col + Z.of_nat n <= j -> load w' j = load w j).
Proof.
  induction n as [|n IH]; intros col w Hcol Hlen; cbn [init_col_w].
  - exists w. repeat split; auto; intros; lia.
  - destruct (store_spec w col (LV_DPI_DEF e) ltac:(lia)) as (w1 & E1 & Hl1 & Hat & Hother).
    rewrite E1. cbn [mbind option_bind].
    destruct (IH (col + 1) w1 ltac:(lia) ltac:(lia)) as (w' & E & Hl & Hnew & Hold).
    exists w'. split; [exact E|]. split; [congruence|]. split.
    + intros j Hj. destruct (Z.eq_dec j col) as [->|Hne].
      * rewrite Hold by lia. exact Hat.
      * apply Hnew. lia.
    + intros j Hj. rewrite Hold by lia. apply Hother. lia.
Qed.

Lemma set_col_cnt_widths t n t' :
  table_wf t -> 0 <= n -> lv_table_set_col_cnt e t n = Some t' ->
  (forall c, 0 <= c < Z.min (col_cnt t) n -> load (col_w t') c = load (col_w t) c)
  /\ (forall c, col_cnt t <= c < n -> load (col_w t') c = Some (LV_DPI_DEF e)).
Proof.
  intros Hwf Hn E. pose proof Hwf as (Hc & Hr & Hd & Hh & Hw).
  unfold lv_table_set_col_cnt in E.
  cbn [col_cnt row_cnt col_w cell_data set_col_cnt_field set_col_w] in E.
  set (w0 := realloc (col_w t) n 0) in E.
  assert (Hw0 : Z.of_nat (length w0) = n)
    by (unfold w0, realloc; rewrite length_resize; lia).
  assert (Hkeep0 : forall c, 0 <= c < Z.min (col_cnt t) n -> load w0 c = load (col_w t) c).
  { intros c Hcc. unfold load, w0, realloc. destruct (Z.leb_spec 0 c); [|lia].
    apply lookup_resize; lia. }
  assert (Hinit : exists w,
            (if col_cnt t <? n
             then init_col_w e (Z.to_nat (n - col_cnt t)) (col_cnt t) w0
             else Some w0) = Some w
            /\ (forall c, 0 <= c < Z.min (col_cnt t) n -> load w c = load (col_w t) c)
            /\ (forall c, col_cnt t <= c < n -> load w c = Some (LV_DPI_DEF e))).
  { destruct (Z.ltb_spec (col_cnt t) n).
    - destruct (init_col_w_spec (Z.to_nat (n - col_cnt t)) (col_cnt t) w0)
        as (w & Ew & _ & Hnew & Hold); try lia.
      exists w. split; [exact Ew|]. split.
      + intros c Hcc. rewrite Hold by lia. apply Hkeep0. lia.
      + intros c Hcc. apply Hnew. lia.
    - exists w0. split; [reflexivity|]. split; [exact Hkeep0 | intros; lia]. }
  destruct Hinit as (w & Ew & Hkeep & Hnew). rewrite Ew in E.
  cbn [mbind option_bind col_cnt row_cnt col_w cell_data set_col_cnt_field set_col_w] in E.
  destruct (remap_rows _ _ _ _ _ _ _) as [new|]; [|discriminate].
  cbn [mbind option_bind] in E.
  apply refr_size_same in E as (_ & _ & _ & Hcw & _). cbn in Hcw. rewrite Hcw.
  split; assumption.
Qed.

(** Changing the column count completes when the cell indices of the new
    grid fit the [uint16_t] of the height refresh; the columns that remain
    keep their widths and every added column has the default width. *)
Theorem set_col_cnt_widths_default t n :
  table_wf t -> 0 <= n ->
  (fits16 (row_cnt t) n -> exists t', lv_table_set_col_cnt e t n = Some t')
  /\ (forall t', lv_table_set_col_cnt e t n = Some t' ->
        (forall c, 0 <= c < Z.min (col_cnt t) n ->
           lv_table_get_col_width t' c = lv_table_get_col_width t c)
        /\ (forall c, col_cnt t <= c < n ->
              lv_table_get_col_width t' c = Some (LV_DPI_DEF e))).
Proof.
  intros Hwf Hn. split.
  { intros Hfit. destruct (set_col_cnt_spec e t n Hwf Hn Hfit) as (t' & E & _). eauto. }
  intros t' E.

  destruct (set_col_cnt_widths t n t' Hwf Hn E) as (Hkeep & Hnew).
  destruct (set_col_cnt_remap e t n Hwf Hn) as (t1 & E1 & _ & Hc1 & _).
  rewrite E1 in E. apply refr_size_same in E as (Hcc & _).
  unfold lv_table_get_col_width. rewrite Hcc, Hc1. split.
  - intros c Hc. destruct (Z.leb_spec n c); [lia|].
    destruct (Z.leb_spec (col_cnt t) c); [lia|]. apply Hkeep. exact Hc.
  - intros c Hc. destruct (Z.leb_spec n c); [lia|]. apply Hnew. exact Hc.
Qed.

Lemma set_col_width_spec t col w :
  table_wf t -> 0 <= col < 65535 ->
  fits16 (row_cnt t) (Z.max (col_cnt t) (col + 1)) ->
  exists t', lv_table_set_col_width e t col w = Some t'
    /\ lv_table_get_col_width t' col = Some w
    /\ col_cnt t' = Z.max (col_cnt t) (col + 1)
    /\ row_cnt t' = row_cnt t
    /\ (forall c, 0 <= c < col_cnt t -> c <> col ->
          lv_table_get_col_width t' c = lv_table_get_col_width t c)
    /\ (forall r c, 0 <= r < row_cnt t -> 0 <= c < col_cnt t ->
          cell_getters t' r c = cell_getters t r c).
Proof.
  intros Hwf Hcol Hfit. pose proof Hwf as (Hc & Hr & _).
  unfold lv_table_set_col_width.
  assert (Hexp : exists t1,
            (if col_cnt t <=? col then lv_table_set_col_cnt e t (wrap16 (col + 1))
             else Some t) = Some t1
            /\ table_wf t1 /\ col_cnt t1 = Z.max (col_cnt t) (col + 1)
            /\ row_cnt t1 = row_cnt t
            /\ (forall c, 0 <= c < col_cnt t -> load (col_w t1) c = load (col_w t) c)
            /\ (forall r c, 0 <= r < row_cnt t -> 0 <= c < col_cnt t ->
                  load (cell_data t1) (r * col_cnt t1 + c)
                  = load (cell_data t) (r * col_cnt t + c))).
  { destruct (Z.leb_spec (col_cnt t) col).
    - rewrite wrap16_id by (unfold is_u16; lia).
      destruct (set_col_cnt_spec e t (col + 1) Hwf ltac:(lia))
        as (t1 & E & Hwf1 & Hc1 & Hr1 & Hkept & _).
      { replace (col + 1) with (Z.max (col_cnt t) (col + 1)) by lia. exact Hfit. }
      destruct (set_col_cnt_widths t (col + 1) t1 Hwf ltac:(lia) E) as (Hwk & _).
      exists t1. split; [exact E|]. split; [exact Hwf1|]. split; [lia|].
      split; [exact Hr1|]. split.
      + intros c Hcc. apply Hwk. lia.
      + intros r c Hrr Hcc. rewrite Hc1. apply Hkept; lia.
    - exists t. split; [reflexivity|]. split; [exact Hwf|]. split; [lia|]. auto. }
  destruct Hexp as (t1 & E1 & Hwf1 & Hc1 & Hr1 & Hwk & Hck).
  rewrite E1. cbn [mbind option_bind].
  pose proof Hwf1 as (_ & _ & Hd1 & Hh1 & Hw1).
  destruct (store_spec (col_w t1) col w ltac:(lia)) as (cw & Es & Hl & Hat & Hother).
  rewrite Es. cbn [mbind option_bind].
  assert (Hwf2 : table_wf (set_col_w t1 cw)).
  { unfold table_wf in *; cbn. rewrite Hl. tauto. }
  destruct (refr_size_total e _ Hwf2) as (t' & E & Hsame & Hwf').
  { cbn. rewrite Hc1, Hr1. exact Hfit. }
  destruct Hsame as (Hcc & Hrc & Hcd & Hcw & _). cbn in Hcc, Hrc, Hcd, Hcw.
  exists t'. split; [exact E|].
  unfold lv_table_get_col_width. rewrite Hcc, Hcw, Hc1.
  split; [destruct (Z.leb_spec (Z.max (col_cnt t) (col + 1)) col); [lia | exact Hat]|].
  split; [reflexivity|]. split; [congruence|]. split.
  - intros c Hcc' Hne.
    destruct (Z.leb_spec (Z.max (col_cnt t) (col + 1)) c); [lia|].
    destruct (Z.leb_spec (col_cnt t) c); [lia|].
    rewrite Hother by exact Hne. apply Hwk. exact Hcc'.
  - intros r c Hrr Hcc'.
    apply cell_getters_same_load; try lia.
    rewrite Hcd, Hcc. apply Hck; lia.
Qed.



(** *** Cell setters *)

Lemma testbit_1 n : Z.testbit 1 n = (n =? 0).
Proof.
  change 1 with (2 ^ 0). rewrite Z.pow2_bits_eqb by lia. apply Z.eqb_sym.
Qed.

Lemma fmt_set_right_merge_merge b v : fmt_right_merge (fmt_set_right_merge b v) = v.
Proof.
  unfold fmt_right_merge, fmt_set_right_merge. destruct v.
  - rewrite Z.lor_spec, testbit_1. apply orb_true_r.
  - rewrite Z.ldiff_spec, testbit_1. apply andb_false_r.
Qed.

Lemma fmt_set_right_merge_other b v n :
  n <> 0 -> Z.testbit (fmt_set_right_merge b v) n = Z.testbit b n.
Proof.
  intros Hn. unfold fmt_set_right_merge.
  assert (E : (n =? 0) = false) by (apply Z.eqb_neq; exact Hn).
  destruct v.
  - rewrite Z.lor_spec, testbit_1, E. apply orb_false_r.
  - rewrite Z.ldiff_spec, testbit_1, E. apply andb_true_r.
Qed.

Lemma auto_expand_in_range t row col :
  0 <= row < row_cnt t -> 0 <= col < col_cnt t -> auto_expand e t row col = Some t.
Proof.
  intros Hr Hc. unfold auto_expand. destruct (Z.leb_spec (col_cnt t) col); [lia|].
  cbn [mbind option_bind]. destruct (Z.leb_spec (row_cnt t) row); [lia|]. reflexivity.
Qed.

(** The lazy allocation and the write of a changed format byte, on a table
    that holds the target. *)
Lemma format_write_spec t row col (f : Z -> Z) :
  table_wf t -> 0 <= row < row_cnt t -> 0 <= col < col_cnt t ->
  exists p t1 d,
    load (cell_data t) (row * col_cnt t + col) = Some p
    /\ ensure_cell t (row * col_cnt t + col)
       = Some (t1, mk_cell (cell_format p) (cell_text p))
    /\ store (cell_data t1) (row * col_cnt t + col)
             (Some (mk_cell (f (cell_format p)) (cell_text p))) = Some d
    /\ table_wf (set_cell_data t1 d)
    /\ col_cnt t1 = col_cnt t /\ row_cnt t1 = row_cnt t
    /\ row_h t1 = row_h t /\ col_w t1 = col_w t
    /\ load d (row * col_cnt t + col)
       = Some (Some (mk_cell (f (cell_format p)) (cell_text p)))
    /\ (forall j, j <> row * col_cnt t + col -> load d j = load (cell_data t) j).
Proof.
  intros Hwf Hrow Hcol.
  pose proof (cell_in_range t row col Hwf Hrow Hcol) as Hidx.
  set (cell := row * col_cnt t + col) in *.
  destruct (load_lt_Some _ _ Hidx) as (p & Ep).
  assert (Hens : exists t1, ensure_cell t cell
                   = Some (t1, mk_cell (cell_format p) (cell_text p))
            /\ length (cell_data t1) = length (cell_data t)
            /\ (forall j, j <> cell -> load (cell_data t1) j = load (cell_data t) j)
            /\ row_h t1 = row_h t /\ col_w t1 = col_w t
            /\ col_cnt t1 = col_cnt t /\ row_cnt t1 = row_cnt t).
  { unfold ensure_cell. rewrite Ep. cbn [mbind option_bind]. destruct p as [c|].
    - exists t. destruct c. cbn. repeat split; reflexivity.
    - destruct (store_spec (cell_data t) cell (Some (mk_cell 0 EmptyString)) Hidx)
        as (d & Ed & Hl & _ & Hother).
      rewrite Ed. cbn [mbind option_bind]. exists (set_cell_data t d). cbn.
      repeat split; auto. }
  destruct Hens as (t1 & E1 & Hl1 & Hother1 & Hrh1 & Hcw1 & Hcc1 & Hrc1).
  destruct (store_spec (cell_data t1) cell
              (Some (mk_cell (f (cell_format p)) (cell_text p))) ltac:(lia))
    as (d & Ed & Hl & Hat & Hother).
  exists p, t1, d. split; [exact Ep|]. split; [exact E1|]. split; [exact Ed|].
  split.
  { unfold table_wf in *; cbn. rewrite Hl, Hl1, Hrh1, Hcw1, Hcc1, Hrc1. exact Hwf. }
  repeat (split; [assumption|]).
  intros j Hj. rewrite Hother by exact Hj. apply Hother1. exact Hj.
Qed.

Lemma other_cell_index t row col r c :
  0 <= col < col_cnt t -> 0 <= c < col_cnt t -> (r <> row \/ c <> col) ->
  r * col_cnt t + c <> row * col_cnt t + col.
Proof.
  intros Hcol Hc Hne Heq. apply cell_index_inj in Heq; [|lia..].
  destruct Heq, Hne; contradiction.
Qed.

(** The flags of the format byte that the text setters save are those of the
    cell: for a [NULL] cell both are cleared, whatever the uninitialised byte
    held. *)
Lemma saved_format_flags t row col p :
  fmt_crop (saved_format e t row col p) = fmt_crop (cell_format p)
  /\ fmt_right_merge (saved_format e t row col p) = fmt_right_merge (cell_format p).
Proof.
  destruct p as [c|]; cbn [saved_format cell_format]; [split; reflexivity|].
  destruct fmt_flags_zero as [-> ->]. split.
  - apply fmt_set_crop_crop.
  - unfold fmt_right_merge. rewrite fmt_set_crop_other by lia.
    apply fmt_set_right_merge_merge.
Qed.

(** Overwriting the text of a cell inside the table keeps its crop and merge
    flags, as the getters return them, and every other cell, with the plain
    and with the formatted setter; the format byte of a cell that was
    allocated is kept as a whole. *)
Theorem set_cell_value_keeps_format t row col txt :
  table_wf t -> fits16 (row_cnt t) (col_cnt t) ->
  0 <= row < row_cnt t -> 0 <= col < col_cnt t ->
  let kept t' :=
    lv_table_get_cell_value t' row col = Some txt
    /\ lv_table_get_cell_crop t' row col = lv_table_get_cell_crop t row col
    /\ lv_table_get_cell_merge_right t' row col
       = lv_table_get_cell_merge_right t row col
    /\ (forall c, load (cell_data t) (row * col_cnt t + col) = Some (Some c) ->
          load (cell_data t') (row * col_cnt t + col)
          = Some (Some (mk_cell (format_byte c) txt)))
    /\ col_cnt t' = col_cnt t /\ row_cnt t' = row_cnt t
    /\ (forall r c, 0 <= r < row_cnt t -> 0 <= c < col_cnt t ->
          r <> row \/ c <> col -> cell_getters t' r c = cell_getters t r c) in
  (exists t', lv_table_set_cell_value e t row col txt = Some t' /\ kept t')
  /\ (exists t', lv_table_set_cell_value_fmt e t row col txt = Some t' /\ kept t').
Proof.
  intros Hwf Hfit Hrow Hcol kept.
  destruct (write_text_spec e t row col txt Hwf Hfit Hrow Hcol)
    as (t' & p & E & Hwf' & Hcc & Hrc & Ep & Hat & Hother).
  assert (Hkept : kept t').
  { assert (Hviews : cell_getters t' row col
                     = (Some txt, lv_table_get_cell_crop t row col,
                        lv_table_get_cell_merge_right t row col)).
    { pose proof (cell_getters_in_range t row col Hrow Hcol) as Hold.
      rewrite cell_getters_in_range by lia. rewrite Hcc, Hat.
      unfold cell_getters in Hold. rewrite Ep in Hold.
      injection Hold as _ Hcrop Hmerge. rewrite Hcrop, Hmerge.
      cbn [mbind option_bind cell_text cell_format format_byte text].
      destruct (saved_format_flags t row col p) as [-> ->]. reflexivity. }
    unfold cell_getters in Hviews. injection Hviews as Hv Hcr Hmg.
    unfold kept. split; [assumption|]. split; [assumption|]. split; [assumption|].
    split.
    { intros c Ec. rewrite Ec in Ep. injection Ep as <-. exact Hat. }
    split; [assumption|]. split; [assumption|].
    intros r c Hr Hc Hne. apply cell_getters_same_load; try lia.
    rewrite Hcc. apply Hother. apply other_cell_index; assumption. }
  split; exists t'; (split; [|exact Hkept]).
  - unfold lv_table_set_cell_value. rewrite auto_expand_in_range by assumption. exact E.
  - unfold lv_table_set_cell_value_fmt.
    destruct (Z.leb_spec (col_cnt t) col); [lia|].
    destruct (Z.leb_spec (row_cnt t) row); [lia|]. exact E.
Qed.

(** Inside the table [lv_table_set_cell_merge_right] completes and then the
    merge getter returns the flag; the text and the crop flag of the cell and
    every other cell are as before. *)
Theorem set_cell_merge_right_round_trip t row col en :
  table_wf t -> fits16 (row_cnt t) (col_cnt t) ->
  0 <= row < row_cnt t -> 0 <= col < col_cnt t ->
  exists t', lv_table_set_cell_merge_right e t row col en = Some t'
    /\ lv_table_get_cell_merge_right t' row col = Some en
    /\ lv_table_get_cell_crop t' row col = lv_table_get_cell_crop t row col
    /\ lv_table_get_cell_value t' row col = lv_table_get_cell_value t row col
    /\ col_cnt t' = col_cnt t /\ row_cnt t' = row_cnt t
    /\ (forall r c, 0 <= r < row_cnt t -> 0 <= c < col_cnt t ->
          r <> row \/ c <> col -> cell_getters t' r c = cell_getters t r c).
Proof.
  intros Hwf Hfit Hrow Hcol.
  destruct (format_write_spec t row col
              (fun b => fmt_set_right_merge b (if en then true else false))
              Hwf Hrow Hcol)
    as (p & t1 & d & Ep & E1 & Ed & Hwf2 & Hc1 & Hr1 & _ & _ & Hat & Hother).
  destruct (refr_size_total e _ Hwf2) as (t' & E & Hsame & _).
  { cbn. rewrite Hc1, Hr1. exact Hfit. }
  destruct Hsame as (Hcc & Hrc & Hcd & _). cbn in Hcc, Hrc, Hcd.
  exists t'. split.
  { unfold lv_table_set_cell_merge_right. rewrite auto_expand_in_range by assumption.
    cbn [mbind option_bind]. rewrite E1. cbn [mbind option_bind format_byte text].
    rewrite Ed. exact E. }
  assert (Hviews : cell_getters t' row col
                   = (lv_table_get_cell_value t row col,
                      lv_table_get_cell_crop t row col, Some en)).
  { pose proof (cell_getters_in_range t row col Hrow Hcol) as Hold.
    rewrite cell_getters_in_range by lia. rewrite Hcc, Hc1, Hcd, Hat.
    unfold cell_getters in Hold. rewrite Ep in Hold.
    injection Hold as Hval Hcrop _. rewrite Hval, Hcrop.
    cbn [mbind option_bind cell_text cell_format format_byte text].
    rewrite fmt_set_right_merge_merge. unfold fmt_crop.
    rewrite fmt_set_right_merge_other by lia. destruct en; reflexivity. }
  unfold cell_getters in Hviews. injection Hviews as Hv Hcr Hmg.
  split; [assumption|]. split; [assumption|]. split; [assumption|].
  split; [congruence|]. split; [congruence|].
  intros r c Hr Hc Hne. apply cell_getters_same_load; try lia.
  rewrite Hcd, Hcc, Hc1. apply Hother. apply other_cell_index; assumption.
Qed.

Lemma flag_setters_spec t row col v :
  table_wf t -> 0 <= row < 65535 -> 0 <= col < 65535 ->
  fits16 (Z.max (row_cnt t) (row + 1)) (Z.max (col_cnt t) (col + 1)) ->
  (exists t', lv_table_set_cell_crop e t row col v = Some t'
     /\ col_cnt t' = Z.max (col_cnt t) (col + 1)
     /\ row_cnt t' = Z.max (row_cnt t) (row + 1)
     /\ lv_table_get_cell_crop t' row col = Some v)
  /\ (exists t', lv_table_set_cell_merge_right e t row col v = Some t'
        /\ col_cnt t' = Z.max (col_cnt t) (col + 1)
        /\ row_cnt t' = Z.max (row_cnt t) (row + 1)
        /\ lv_table_get_cell_merge_right t' row col = Some v).
Proof.
  intros Hwf Hrow Hcol Hfit.
  destruct (auto_expand_spec e t row col Hwf Hrow Hcol Hfit) as (t0 & E0 & Hwf0 & Hc0 & Hr0).
  split.
  - destruct (format_write_spec t0 row col (fun b => fmt_set_crop b v)
                Hwf0 ltac:(lia) ltac:(lia))
      as (p & t1 & d & Ep & E1 & Ed & Hwf2 & Hc1 & Hr1 & _ & _ & Hat & _).
    exists (set_cell_data t1 d). split.
    { unfold lv_table_set_cell_crop. rewrite E0. cbn [mbind option_bind].
      rewrite E1. cbn [mbind option_bind format_byte text]. rewrite Ed. reflexivity. }
    cbn [col_cnt row_cnt set_cell_data]. split; [congruence|]. split; [congruence|].
    unfold lv_table_get_cell_crop. cbn [col_cnt row_cnt cell_data set_cell_data].
    rewrite Hc1, Hr1.
    destruct (Z.leb_spec (row_cnt t0) row); [lia|].
    destruct (Z.leb_spec (col_cnt t0) col); [lia|]. cbn [orb].
    rewrite Hat. cbn [mbind option_bind format_byte]. now rewrite fmt_set_crop_crop.
  - destruct (format_write_spec t0 row col
                (fun b => fmt_set_right_merge b (if v then true else false))
                Hwf0 ltac:(lia) ltac:(lia))
      as (p & t1 & d & Ep & E1 & Ed & Hwf2 & Hc1 & Hr1 & _ & _ & Hat & _).
    destruct (refr_size_total e _ Hwf2) as (t' & E & Hsame & _).
    { cbn. rewrite Hc1, Hr1, Hc0, Hr0. exact Hfit. }
    destruct Hsame as (Hcc & Hrc & Hcd & _). cbn in Hcc, Hrc, Hcd.
    exists t'. split.
    { unfold lv_table_set_cell_merge_right. rewrite E0. cbn [mbind option_bind].
      rewrite E1. cbn [mbind option_bind format_byte text]. rewrite Ed. exact E. }
    split; [congruence|]. split; [congruence|].
    unfold lv_table_get_cell_merge_right. rewrite Hcc, Hrc, Hcd, Hc1, Hr1.
    destruct (Z.leb_spec (row_cnt t0) row); [lia|].
    destruct (Z.leb_spec (col_cnt t0) col); [lia|]. cbn [orb].
    rewrite Hat. cbn [mbind option_bind format_byte].
    rewrite fmt_set_right_merge_merge. destruct v; reflexivity.
Qed.



(** *** Invariants of the setters *)

Lemma wf_refr_size t t' : table_wf t -> refr_size e t = Some t' -> table_wf t'.
Proof. intros Hwf E. eapply same_cells_wf; [apply (refr_size_same e _ _ E) | exact Hwf]. Qed.

Lemma wf_store_cells t d i x :
  table_wf t -> store (cell_data t) i x = Some d -> table_wf (set_cell_data t d).
Proof.
  intros Hwf E. apply store_Some_inv in E as [_ ->].
  unfold table_wf in *; cbn. rewrite length_insert. exact Hwf.
Qed.

Lemma wf_set_col_cnt t n t' :
  table_wf t -> 0 <= n -> lv_table_set_col_cnt e t n = Some t' -> table_wf t'.
Proof.
  intros Hwf Hn E.
  destruct (set_col_cnt_remap e t n Hwf Hn) as (t1 & E1 & Hwf1 & _).
  rewrite E1 in E. eapply wf_refr_size; eassumption.
Qed.

Lemma wf_set_row_cnt t n t' :
  table_wf t -> 0 <= n -> lv_table_set_row_cnt e t n = Some t' -> table_wf t'.
Proof.
  intros Hwf Hn E.
  destruct (set_row_cnt_resize t n Hwf Hn) as (t1 & E1 & Hwf1 & _).
  rewrite E1 in E. eapply wf_refr_size; eassumption.
Qed.

Lemma wrap16_nonneg x : 0 <= wrap16 x.
Proof. pose proof (wrap16_range x) as H. unfold is_u16 in H. lia. Qed.

Lemma wf_auto_expand t row col t' :
  table_wf t -> auto_expand e t row col = Some t' -> table_wf t'.
Proof.
  intros Hwf E. unfold auto_expand in E.
  destruct (col_cnt t <=? col).
  - destruct (lv_table_set_col_cnt e t _) as [t1|] eqn:E1; [|discriminate].
    cbn [mbind option_bind] in E.
    pose proof (wf_set_col_cnt _ _ _ Hwf (wrap16_nonneg _) E1) as Hwf1.
    destruct (row_cnt t1 <=? row); [|now injection E as <-].
    eapply wf_set_row_cnt; [exact Hwf1 | apply wrap16_nonneg | exact E].
  - cbn [mbind option_bind] in E.
    destruct (row_cnt t <=? row); [|now injection E as <-].
    eapply wf_set_row_cnt; [exact Hwf | apply wrap16_nonneg | exact E].
Qed.

Lemma wf_write_text t row col txt t' :
  table_wf t -> write_text e t row col txt = Some t' -> table_wf t'.
Proof.
  intros Hwf E. unfold write_text in E.
  destruct (load _ _) as [p|]; [|discriminate]. cbn [mbind option_bind] in E.
  destruct (store _ _ _) as [d|] eqn:Es; [|discriminate]. cbn [mbind option_bind] in E.
  eapply wf_refr_size; [|exact E]. eapply wf_store_cells; eassumption.
Qed.

Lemma wf_ensure_cell t cell t1 c :
  table_wf t -> ensure_cell t cell = Some (t1, c) -> table_wf t1.
Proof.
  intros Hwf E. unfold ensure_cell in E.
  destruct (load _ _) as [[c0|]|]; cbn [mbind option_bind] in E; try discriminate.
  - now injection E as <- _.
  - destruct (store _ _ _) as [d|] eqn:Es; [|discriminate]. cbn in E.
    injection E as <- _. eapply wf_store_cells; eassumption.
Qed.

Lemma wf_run_table_op t op t' :
  table_wf t -> table_op_u16 op -> run_table_op e t op = Some t' -> table_wf t'.
Proof.
  intros Hwf Hu E. destruct op as [n|n|c w|r c txt|r c txt|r c b|r c b];
    cbn [run_table_op] in E; cbn [table_op_u16] in Hu.
  - apply (wf_set_row_cnt t n t' Hwf); [unfold is_u16 in Hu; lia | exact E].
  - apply (wf_set_col_cnt t n t' Hwf); [unfold is_u16 in Hu; lia | exact E].
  - unfold lv_table_set_col_width in E.
    assert (Hexp : forall t1,
              (if col_cnt t <=? c then lv_table_set_col_cnt e t (wrap16 (c + 1))
               else Some t) = Some t1 -> table_wf t1).
    { intros t1 E1. destruct (col_cnt t <=? c); [|now injection E1 as <-].
      eapply wf_set_col_cnt; [exact Hwf | apply wrap16_nonneg | exact E1]. }
    destruct (if col_cnt t <=? c then _ else _) as [t1|]; [|discriminate].
    cbn [mbind option_bind] in E. specialize (Hexp t1 eq_refl).
    destruct (store _ _ _) as [cw|] eqn:Es; [|discriminate]. cbn [mbind option_bind] in E.
    eapply wf_refr_size; [|exact E]. apply store_Some_inv in Es as [_ ->].
    unfold table_wf in *; cbn. rewrite length_insert. exact Hexp.
  - unfold lv_table_set_cell_value in E.
    destruct (auto_expand e t r c) as [t1|] eqn:E1; [|discriminate].
    cbn [mbind option_bind] in E.
    eapply wf_write_text; [|exact E]. eapply wf_auto_expand; eassumption.
  - unfold lv_table_set_cell_value_fmt in E.
    destruct (col_cnt t <=? c); [now injection E as <-|].
    destruct (row_cnt t <=? r).
    + destruct (lv_table_set_row_cnt e t _) as [t1|] eqn:E1; [|discriminate].
      cbn [mbind option_bind] in E. eapply wf_write_text; [|exact E].
      eapply wf_set_row_cnt; [exact Hwf | apply wrap16_nonneg | exact E1].
    + cbn [mbind option_bind] in E. eapply wf_write_text; eassumption.
  - unfold lv_table_set_cell_crop in E.
    destruct (auto_expand e t r c) as [t1|] eqn:E1; [|discriminate].
    cbn [mbind option_bind] in E.
    pose proof (wf_auto_expand _ _ _ _ Hwf E1) as Hwf1.
    destruct (ensure_cell t1 _) as [[t2 c2]|] eqn:E2; [|discriminate].
    cbn [mbind option_bind] in E.
    pose proof (wf_ensure_cell _ _ _ _ Hwf1 E2) as Hwf2.
    destruct (store _ _ _) as [d|] eqn:Es; [|discriminate]. cbn in E.
    injection E as <-. eapply wf_store_cells; eassumption.
  - unfold lv_table_set_cell_merge_right in E.
    destruct (auto_expand e t r c) as [t1|] eqn:E1; [|discriminate].
    cbn [mbind option_bind] in E.
    pose proof (wf_auto_expand _ _ _ _ Hwf E1) as Hwf1.
    destruct (ensure_cell t1 _) as [[t2 c2]|] eqn:E2; [|discriminate].
    cbn [mbind option_bind] in E.
    pose proof (wf_ensure_cell _ _ _ _ Hwf1 E2) as Hwf2.
    destruct (store _ _ _) as [d|] eqn:Es; [|discriminate]. cbn [mbind option_bind] in E.
    eapply wf_refr_size; [|exact E]. eapply wf_store_cells; eassumption.
Qed.

(** Whatever setters are called on a new table, when they complete the
    arrays have the sizes the counts say: one width per column, one height
    per row, one cell pointer per row and column. *)
Theorem setters_keep_sizes ops t' :
  Forall table_op_u16 ops ->
  run_table_ops e (lv_table_constructor e) ops = Some t' ->
  0 <= col_cnt t' /\ 0 <= row_cnt t'
  /\ Z.of_nat (length (col_w t')) = col_cnt t'
  /\ Z.of_nat (length (row_h t')) = row_cnt t'
  /\ Z.of_nat (length (cell_data t')) = row_cnt t' * col_cnt t'.
Proof.
  intros Hu E.
  assert (Hwf0 : table_wf (lv_table_constructor e)).
  { unfold table_wf, lv_table_constructor.
    cbn [col_cnt row_cnt cell_data row_h col_w length]. lia. }
  assert (Hgen : forall ops t, Forall table_op_u16 ops -> table_wf t ->
            run_table_ops e t ops = Some t' -> table_wf t').
  { clear. induction ops as [|op ops IH]; intros t Hu Hwf E; cbn in E.
    - now injection E as <-.
    - apply Forall_cons in Hu as [Hu1 Hu2].
      destruct (run_table_op e t op) as [t1|] eqn:E1; [|discriminate].
      cbn [mbind option_bind] in E.
      eapply IH; [exact Hu2| |exact E]. eapply wf_run_table_op; eassumption. }
  pose proof (Hgen ops _ Hu Hwf0 E) as (? & ? & ? & ? & ?). tauto.
Qed.

Lemma refreshing_op_ends t op t' :
  refreshes op -> table_op_fits t op -> run_table_op e t op = Some t' ->
  exists t1, refr_size e t1 = Some t'.
Proof.
  intros Hop Hfit E.
  destruct op as [n|n|c w|r c txt|r c txt|r c b|r c b]; cbn [run_table_op] in E;
    cbn [table_op_fits] in Hfit; try contradiction.
  - unfold lv_table_set_row_cnt in E. eauto.
  - unfold lv_table_set_col_cnt in E.
    destruct (if _ <? _ then _ else _) as [w|]; [|discriminate].
    cbn [mbind option_bind] in E.
    destruct (remap_rows _ _ _ _ _ _ _) as [new|]; [|discriminate].
    cbn [mbind option_bind] in E. eauto.
  - unfold lv_table_set_col_width in E.
    destruct (if _ <=? _ then _ else _) as [t1|]; [|discriminate].
    cbn [mbind option_bind] in E.
    destruct (store _ _ _) as [cw|]; [|discriminate]. cbn [mbind option_bind] in E.
    eauto.
  - unfold lv_table_set_cell_value, write_text in E.
    destruct (auto_expand e t r c) as [t1|]; [|discriminate].
    cbn [mbind option_bind] in E.
    destruct (load _ _) as [p|]; [|discriminate]. cbn [mbind option_bind] in E.
    destruct (store _ _ _) as [d|]; [|discriminate]. cbn [mbind option_bind] in E.
    eauto.
  - unfold lv_table_set_cell_value_fmt, write_text in E.
    destruct (Z.leb_spec (col_cnt t) c); [lia|].
    destruct (if row_cnt t <=? r then _ else _) as [t1|]; [|discriminate].
    cbn [mbind option_bind] in E.
    destruct (load _ _) as [p|]; [|discriminate]. cbn [mbind option_bind] in E.
    destruct (store _ _ _) as [d|]; [|discriminate]. cbn [mbind option_bind] in E.
    eauto.
  - unfold lv_table_set_cell_merge_right in E.
    destruct (auto_expand e t r c) as [t1|]; [|discriminate].
    cbn [mbind option_bind] in E.
    destruct (ensure_cell t1 _) as [[t2 c2]|]; [|discriminate].
    cbn [mbind option_bind] in E.
    destruct (store _ _ _) as [d|]; [|discriminate]. cbn [mbind option_bind] in E.
    eauto.
Qed.

Lemma table_op_completes t op :
  table_wf t -> table_op_fits t op -> exists t', run_table_op e t op = Some t'.
Proof.
  intros Hwf Hfit. pose proof Hwf as (Hc & Hr & Hd & Hh & Hw).
  destruct op as [n|n|c w|r c txt|r c txt|r c b|r c b];
    cbn [run_table_op]; cbn [table_op_fits] in Hfit.
  - destruct Hfit as (Hn & Hfit).
    destruct (set_row_cnt_spec e t n Hwf ltac:(lia) Hfit) as (t' & E & _). eauto.
  - destruct Hfit as (Hn & Hfit).
    destruct (set_col_cnt_spec e t n Hwf ltac:(lia) Hfit) as (t' & E & _). eauto.
  - destruct Hfit as (Hcol & Hfit).
    destruct (set_col_width_spec t c w Hwf Hcol Hfit) as (t' & E & _). eauto.
  - destruct Hfit as (Hrow & Hcol & Hfit).
    destruct (auto_expand_spec e t r c Hwf Hrow Hcol Hfit) as (t1 & E1 & Hwf1 & Hc1 & Hr1).
    unfold lv_table_set_cell_value. rewrite E1. cbn [mbind option_bind].
    destruct (write_text_spec e t1 r c txt Hwf1) as (t' & p & E & _); try lia.
    { unfold fits16. rewrite Hc1, Hr1. exact Hfit. }
    eauto.
  - destruct Hfit as (Hrow & Hcol & Hfit).
    unfold lv_table_set_cell_value_fmt.
    destruct (Z.leb_spec (col_cnt t) c); [lia|].
    assert (Hrows : exists t1,
              (if row_cnt t <=? r then lv_table_set_row_cnt e t (wrap16 (r + 1))
               else Some t) = Some t1
              /\ table_wf t1 /\ col_cnt t1 = col_cnt t
              /\ row_cnt t1 = Z.max (row_cnt t) (r + 1)).
    { destruct (Z.leb_spec (row_cnt t) r).
      - rewrite wrap16_id by (unfold is_u16; lia).
        destruct (set_row_cnt_spec e t (r + 1) Hwf ltac:(lia))
          as (t1 & E & Hwf1 & Hc1 & Hr1 & _).
        { unfold fits16. replace (r + 1) with (Z.max (row_cnt t) (r + 1)) by lia.
          exact Hfit. }
        exists t1. split; [exact E|]. split; [exact Hwf1|]. split; lia.
      - exists t. split; [reflexivity|]. split; [exact Hwf|]. split; lia. }
    destruct Hrows as (t1 & E1 & Hwf1 & Hc1 & Hr1). rewrite E1. cbn [mbind option_bind].
    destruct (write_text_spec e t1 r c txt Hwf1) as (t' & p & E & _); try lia.
    { unfold fits16. rewrite Hc1, Hr1. exact Hfit. }
    eauto.
  - destruct Hfit as (Hrow & Hcol & Hfit).
    destruct (flag_setters_spec t r c b Hwf Hrow Hcol Hfit) as [(t' & E & _) _].
    eauto.
  - destruct Hfit as (Hrow & Hcol & Hfit).
    destruct (flag_setters_spec t r c b Hwf Hrow Hcol Hfit) as [_ (t' & E & _)].
    eauto.
Qed.

(** Every setter but [lv_table_set_cell_crop] completes, on arguments that
    stay inside its [uint16_t] arithmetic, and leaves the stored height of
    every row equal to the computed height of the row. *)
Theorem refreshing_setters_store_heights t op :
  table_wf t -> refreshes op -> table_op_fits t op ->
  exists t', run_table_op e t op = Some t'
    /\ forall i, 0 <= i < row_cnt t' -> load (row_h t') i = get_row_height e t' i.
Proof.
  intros Hwf Hop Hfit.
  destruct (table_op_completes t op Hwf Hfit) as (t' & E).
  exists t'. split; [exact E|].
  destruct (refreshing_op_ends t op t' Hop Hfit E) as (t1 & E1).
  intros i Hi. apply (refr_size_heights e _ _ E1).
  destruct (refr_size_same e _ _ E1) as (_ & Hrc & _). lia.
Qed.


(** *** Row heights *)

Lemma row_loop_ge t row_start fuel :
  heights_fit e t ->
  forall cell col h h',
    fits_coord h -> row_loop e fuel t row_start cell col h = Some h' -> h <= h'.
Proof.
  intros (Hline & Htxt).
  induction fuel as [|fuel IH]; intros cell col h h' Hh; cbn [row_loop].
  - destruct (cell <? row_start + col_cnt t); [discriminate|]. intros [= <-]. lia.
  - destruct (cell <? row_start + col_cnt t); [|intros [= <-]; lia].
    destruct (load (cell_data t) cell) as [[c|]|] eqn:Ec; cbn [mbind option_bind];
      [|apply IH; exact Hh|discriminate].
    destruct (load (col_w t) col) as [w|]; cbn [mbind option_bind]; [|discriminate].
    destruct (merge_chain _ t cell col 0 w) as [[cm w']|]; cbn [mbind option_bind];
      [|discriminate].
    destruct (fmt_crop (format_byte c)).
    + rewrite to_coord_id by (apply fits_coord_max; assumption).
      intros Hrec%IH; [lia | apply fits_coord_max; assumption].
    + pose proof (Htxt cell c (to_coord (w' - (cell_left e + cell_right e))) Ec) as Hc.
      rewrite to_coord_id by (apply fits_coord_max; assumption).
      intros Hrec%IH; [lia | apply fits_coord_max; assumption].
Qed.

(** When the heights it compares are coordinates, the height of a row is at
    least the height of a line of the font plus the top and bottom paddings
    of a cell. *)
Theorem row_height_at_least_a_line t row h :
  heights_fit e t ->
  get_row_height e t row = Some h ->
  line_height e + cell_top e + cell_bottom e <= h.
Proof.
  intros Hfit. pose proof Hfit as (Hline & _). unfold get_row_height.
  rewrite to_coord_id by exact Hline. apply row_loop_ge; assumption.
Qed.

Lemma merge_chain_unmerged t cell col c w fuel :
  load (cell_data t) cell = Some (Some c) ->
  fmt_right_merge (format_byte c) = false ->
  (col < col_cnt t - 1 -> fuel <> O) ->
  merge_chain fuel t cell col 0 w = Some (0, w).
Proof.
  intros Ec Hm Hfuel. destruct fuel as [|fuel]; cbn [merge_chain]; rewrite Z.add_0_l.
  - destruct (Z.ltb_spec col (col_cnt t - 1)); [|reflexivity].
    exfalso. now apply Hfuel.
  - destruct (col <? col_cnt t - 1); [|reflexivity].
    rewrite (Z.add_0_r cell), Ec. cbn [mbind option_bind]. now rewrite Hm.
Qed.

Lemma row_loop_unmerged t row_start :
  0 <= row_start -> 0 <= col_cnt t ->
  row_start + col_cnt t <= Z.of_nat (length (cell_data t)) ->
  row_start + col_cnt t < 65536 ->
  Z.of_nat (length (col_w t)) = col_cnt t ->
  (forall c cl, 0 <= c < col_cnt t ->
     load (cell_data t) (row_start + c) = Some (Some cl) ->
     fmt_right_merge (format_byte cl) = false) ->
  heights_fit e t -> widths_fit e t ->
  forall fuel cell col h,
    row_start <= cell <= row_start + col_cnt t -> col = cell - row_start ->
    row_start + col_cnt t - cell <= Z.of_nat fuel ->
    line_height e + cell_top e + cell_bottom e <= h -> fits_coord h ->
    row_loop e fuel t row_start cell col h
    = Some (foldl (fun h pw => Z.max (cell_height e pw.1 pw.2) h) h
              (zip (take (Z.to_nat (row_start + col_cnt t - cell))
                         (drop (Z.to_nat cell) (cell_data t)))
                   (drop (Z.to_nat col) (col_w t)))).
Proof.
  intros Hrs Hcc Hdata H16 Hw Hnomerge (Hline & Htxt) Hwidths.
  induction fuel as [|fuel IH]; intros cell col h Hcell -> Hfuel Hfloor Hh.
  - cbn [row_loop]. destruct (Z.ltb_spec cell (row_start + col_cnt t)); [lia|].
    replace (Z.to_nat (row_start + col_cnt t - cell)) with O by lia. reflexivity.
  - cbn [row_loop].
    destruct (Z.ltb_spec cell (row_start + col_cnt t)) as [Hlt|Hge].
    2:{ replace (Z.to_nat (row_start + col_cnt t - cell)) with O by lia. reflexivity. }
    destruct (load_lt_Some (cell_data t) cell ltac:(lia)) as (p & Ep).
    destruct (load_lt_Some (col_w t) (cell - row_start) ltac:(lia)) as (w & Ew).
    assert (Hdrop : drop (Z.to_nat cell) (cell_data t)
                    = p :: drop (S (Z.to_nat cell)) (cell_data t)).
    { apply drop_S. unfold load in Ep. destruct (Z.leb_spec 0 cell); [exact Ep | lia]. }
    assert (Hdropw : drop (Z.to_nat (cell - row_start)) (col_w t)
                     = w :: drop (S (Z.to_nat (cell - row_start))) (col_w t)).
    { apply drop_S. unfold load in Ew.
      destruct (Z.leb_spec 0 (cell - row_start)); [exact Ew | lia]. }
    replace (Z.to_nat (row_start + col_cnt t - cell))
      with (S (Z.to_nat (row_start + col_cnt t - (cell + 1)))) by lia.
    rewrite Hdrop, Hdropw. cbn [take zip zip_with foldl fst snd].
    replace (S (Z.to_nat cell)) with (Z.to_nat (cell + 1)) by lia.
    replace (S (Z.to_nat (cell - row_start)))
      with (Z.to_nat (cell - row_start + 1)) by lia.
    assert (Hstep : forall h1, line_height e + cell_top e + cell_bottom e <= h1 ->
              fits_coord h1 ->
              row_loop e fuel t row_start (wrap16 (cell + 1))
                       (wrap16 (cell - row_start + 1)) h1
              = Some (foldl (fun h pw => Z.max (cell_height e pw.1 pw.2) h) h1
                        (zip (take (Z.to_nat (row_start + col_cnt t - (cell + 1)))
                                   (drop (Z.to_nat (cell + 1)) (cell_data t)))
                             (drop (Z.to_nat (cell - row_start + 1)) (col_w t))))).
    { intros h1 Hh1 Hf1. rewrite !wrap16_id by (unfold is_u16; lia).
      apply IH; [lia..|exact Hf1]. }
    rewrite Ep. cbn [mbind option_bind]. destruct p as [c|].
    + rewrite Ew. cbn [mbind option_bind].
      rewrite (merge_chain_unmerged t cell (cell - row_start) c w).
      * cbn [mbind option_bind cell_height].
        rewrite !Z.add_0_r. rewrite (wrap16_id cell), (wrap16_id (cell - row_start))
          by (unfold is_u16; lia).
        destruct (fmt_crop (format_byte c)).
        -- rewrite to_coord_id by (apply fits_coord_max; assumption).
           apply Hstep; [lia | apply fits_coord_max; assumption].
        -- rewrite (to_coord_id (w - _)) by (eapply Hwidths; exact Ew).
           pose proof (Htxt cell c (w - (cell_left e + cell_right e)) Ep) as Hc.
           rewrite to_coord_id by (apply fits_coord_max; assumption).
           apply Hstep; [lia | apply fits_coord_max; assumption].
      * exact Ep.
      * apply (Hnomerge (cell - row_start)); [lia|].
        replace (row_start + (cell - row_start)) with cell by lia. exact Ep.
      * lia.
    + cbn [cell_height]. rewrite Z.max_r by lia. apply Hstep; [lia | exact Hh].
Qed.

(** In a row without a merged cell every cell counts once: when the heights
    and the widths it works with are coordinates, the height of the row is
    the largest of what its cells ask, a line for an empty or a cropped cell
    and the measured height of the text, in the width of the column less the
    paddings, for any other. *)
Theorem unmerged_row_height_is_max t row :
  table_wf t -> fits16 (row_cnt t) (col_cnt t) -> 0 <= row < row_cnt t ->
  (forall c cl, 0 <= c < col_cnt t ->
     load (cell_data t) (row * col_cnt t + c) = Some (Some cl) ->
     fmt_right_merge (format_byte cl) = false) ->
  heights_fit e t -> widths_fit e t ->
  get_row_height e t row = Some (max_cell_height e (row_cells t row) (col_w t)).
Proof.
  intros (Hc & Hr & Hd & Hh & Hw) Hfit Hrow Hnomerge Hheights Hwidths.
  pose proof Hheights as (Hline & _).
  unfold get_row_height, fits16, max_cell_height, row_cells in *.
  assert (Hle : row * col_cnt t + col_cnt t <= row_cnt t * col_cnt t) by nia.
  assert (H0 : 0 <= row * col_cnt t) by nia.
  rewrite wrap16_id by (unfold is_u16; lia).
  rewrite to_coord_id by exact Hline.
  rewrite (row_loop_unmerged t (row * col_cnt t)); try lia; try assumption.
  change (Z.to_nat 0) with O. rewrite drop_0.
  replace (row * col_cnt t + col_cnt t - row * col_cnt t) with (col_cnt t) by lia.
  reflexivity.
Qed.

(** A cell merged with its right neighbour is measured in the sum of the
    two column widths, when that sum is a coordinate and the chain ends at
    the neighbour: the neighbour is in the last column, or is empty, or is
    not merged further.  In general the width is the sum converted to a
    coordinate. *)
Theorem merged_pair_width t cell col c0 w w1 :
  0 <= col -> col + 1 < col_cnt t -> col_cnt t <= 65536 ->
  load (cell_data t) cell = Some (Some c0) ->
  fmt_right_merge (format_byte c0) = true ->
  load (col_w t) (col + 1) = Some w1 ->
  (col + 2 = col_cnt t
   \/ load (cell_data t) (cell + 1) = Some None
   \/ exists c1, load (cell_data t) (cell + 1) = Some (Some c1)
                 /\ fmt_right_merge (format_byte c1) = false) ->
  merge_chain (Z.to_nat (col_cnt t)) t cell col 0 w = Some (1, to_coord (w + w1))
  /\ (fits_coord (w + w1) ->
      merge_chain (Z.to_nat (col_cnt t)) t cell col 0 w = Some (1, w + w1)).
Proof.
  intros Hcol Hnext Hmax E0 Hm0 Ew1 Hend.
  cut (merge_chain (Z.to_nat (col_cnt t)) t cell col 0 w = Some (1, to_coord (w + w1))).
  { intros E. split; [exact E|]. intros Hf. rewrite E, to_coord_id by exact Hf.
    reflexivity. }
  destruct (Z.to_nat (col_cnt t)) as [|[|fuel]] eqn:Hf; [lia..|].
  cbn [merge_chain]. rewrite Z.add_0_l.
  destruct (Z.ltb_spec col (col_cnt t - 1)); [|lia].
  rewrite (Z.add_0_r cell), E0. cbn [mbind option_bind]. rewrite Hm0.
  rewrite (Z.add_0_r col), Ew1. cbn [mbind option_bind].
  change (wrap16 (0 + 1)) with 1.
  destruct (Z.ltb_spec (1 + col) (col_cnt t - 1)) as [Hmore|]; [|reflexivity].
  destruct Hend as [Hlast | [Enull | (c1 & E1 & Hm1)]]; [lia| |].
  - rewrite Enull. reflexivity.
  - rewrite E1. cbn [mbind option_bind]. rewrite Hm1. reflexivity.
Qed.

End Env.

(** *** The pressed cell *)

Lemma foldr_add_snoc l x : foldr Z.add 0 (l ++ [x]) = foldr Z.add 0 l + x.
Proof. induction l as [|y l IH]; cbn; lia. Qed.

Lemma prefix_sum_succ sizes k w :
  0 <= k -> load sizes k = Some w ->
  prefix_sum sizes (k + 1) = prefix_sum sizes k + w.
Proof.
  intros Hk E. unfold prefix_sum, load in *.
  destruct (Z.leb_spec 0 k); [|lia].
  replace (Z.to_nat (k + 1)) with (S (Z.to_nat k)) by lia.
  rewrite (take_S_r _ _ _ E). apply foldr_add_snoc.
Qed.

Lemma scan_sizes_spec sizes cnt x :
  Z.of_nat (length sizes) = cnt -> cnt < 65536 -> sums_fit sizes ->
  forall fuel idx tmp,
    0 <= idx <= cnt -> tmp = prefix_sum sizes idx ->
    cnt - idx <= Z.of_nat fuel ->
    (forall j, 0 <= j < idx -> prefix_sum sizes (j + 1) <= x) ->
    exists k, scan_sizes fuel sizes idx cnt tmp x = Some k
      /\ idx <= k <= cnt
      /\ (k < cnt -> x < prefix_sum sizes (k + 1))
      /\ (forall j, 0 <= j < k -> prefix_sum sizes (j + 1) <= x).
Proof.
  intros Hlen H16 Hsums.
  induction fuel as [|fuel IH]; intros idx tmp Hidx -> Hfuel Hbefore; cbn [scan_sizes].
  - destruct (Z.ltb_spec idx cnt); [lia|].
    exists idx. split; [reflexivity|]. split; [lia|]. split; [lia | exact Hbefore].
  - destruct (Z.ltb_spec idx cnt) as [Hlt|Hge].
    2:{ exists idx. split; [reflexivity|]. split; [lia|]. split; [lia | exact Hbefore]. }
    destruct (load_lt_Some sizes idx ltac:(lia)) as (w & Ew).
    rewrite Ew. cbn [mbind option_bind].
    rewrite <- (prefix_sum_succ sizes idx w) by (lia || exact Ew).
    rewrite to_coord_id by (apply Hsums; lia).
    destruct (Z.ltb_spec x (prefix_sum sizes (idx + 1))) as [Hhit|Hmiss].
    + exists idx. split; [reflexivity|]. split; [lia|]. split; [intros _; exact Hhit|].
      exact Hbefore.
    + rewrite wrap16_id by (unfold is_u16; lia).
      destruct (IH (idx + 1) (prefix_sum sizes (idx + 1)) ltac:(lia) eq_refl ltac:(lia))
        as (k & E & Hk & Hin & Hout).
      { intros j Hj. destruct (Z.eq_dec j idx) as [->|]; [exact Hmiss|].
        apply Hbefore. lia. }
      exists k. split; [exact E|]. split; [lia|]. split; assumption.
Qed.

(** For a pointer or a button, [lv_table_get_pressed_cell] returns the first
    column whose right edge is beyond the point, and the first row whose
    lower edge is below it, measured from the padded corner of the table,
    when the running sums of the widths and of the heights are coordinates; a
    point beyond the last column or row gives the column or row count, still
    with [LV_RES_OK].  For any other device the result is [LV_RES_INV] and
    both indices are [0xFFFF]. *)
Theorem pressed_cell_is_first_beyond_point t i :
  table_wf t -> col_cnt t < 65536 -> row_cnt t < 65536 ->
  sums_fit (col_w t) -> sums_fit (row_h t) ->
  let x := pressed_x i in
  let y := pressed_y i in
  (indev_type i = Roller.LV_INDEV_TYPE_POINTER
   \/ indev_type i = Roller.LV_INDEV_TYPE_BUTTON ->
   exists row col,
     lv_table_get_pressed_cell t i true true = Some (LV_RES_OK, Some row, Some col)
     /\ 0 <= col <= col_cnt t
     /\ (col < col_cnt t -> x < prefix_sum (col_w t) (col + 1))
     /\ (forall j, 0 <= j < col -> prefix_sum (col_w t) (j + 1) <= x)
     /\ 0 <= row <= row_cnt t
     /\ (row < row_cnt t -> y < prefix_sum (row_h t) (row + 1))
     /\ (forall j, 0 <= j < row -> prefix_sum (row_h t) (j + 1) <= y))
  /\ (indev_type i <> Roller.LV_INDEV_TYPE_POINTER ->
      indev_type i <> Roller.LV_INDEV_TYPE_BUTTON ->
      lv_table_get_pressed_cell t i true true
      = Some (LV_RES_INV, Some 65535, Some 65535)).
Proof.
  intros (Hc & Hr & Hd & Hh & Hw) Hc16 Hr16 Hcs Hrs x y.
  destruct (scan_sizes_spec (col_w t) (col_cnt t) x Hw Hc16 Hcs
              (Z.to_nat (col_cnt t)) 0 0 ltac:(lia) eq_refl ltac:(lia))
    as (col & Ecol & Hcol & Hcin & Hcout); [intros; lia|].
  destruct (scan_sizes_spec (row_h t) (row_cnt t) y Hh Hr16 Hrs
              (Z.to_nat (row_cnt t)) 0 0 ltac:(lia) eq_refl ltac:(lia))
    as (row & Erow & Hrow & Hrin & Hrout); [intros; lia|].
  split.
  - intros Hdev. exists row, col.
    assert (Hrun : lv_table_get_pressed_cell t i true true
                   = Some (LV_RES_OK, Some row, Some col)).
    { unfold lv_table_get_pressed_cell. cbv zeta. fold (pressed_x i) (pressed_y i).
      fold x y. destruct Hdev as [-> | ->]; rewrite Ecol, Erow; reflexivity. }
    split; [exact Hrun|]. split; [lia|]. split; [exact Hcin|]. split; [exact Hcout|].
    split; [lia|]. split; [exact Hrin | exact Hrout].
  - intros Hp Hb. unfold lv_table_get_pressed_cell.
    destruct (indev_type i); try reflexivity; contradiction.
Qed.


Lemma sum_loop_spec sizes n :
  sums_fit sizes ->
  forall i acc,
  0 <= i -> i + Z.of_nat n <= Z.of_nat (length sizes) -> acc = prefix_sum sizes i ->
  sum_loop n i sizes acc = Some (prefix_sum sizes (i + Z.of_nat n)).
Proof.
  intros Hsums. induction n as [|n IH]; intros i acc Hi Hlen ->; cbn [sum_loop].
  - now rewrite Z.add_0_r.
  - destruct (load_lt_Some sizes i ltac:(lia)) as (w & Ew).
    rewrite Ew. cbn [mbind option_bind].
    rewrite <- (prefix_sum_succ sizes i w) by (lia || exact Ew).
    rewrite to_coord_id by (apply Hsums; lia).
    rewrite (IH (i + 1)); [f_equal; f_equal; lia | lia | lia | reflexivity].
Qed.

Lemma prefix_sum_mono sizes :
  (forall j w, load sizes j = Some w -> 0 <= w) ->
  forall n j, 0 <= j -> j + Z.of_nat n <= Z.of_nat (length sizes) ->
    prefix_sum sizes j <= prefix_sum sizes (j + Z.of_nat n).
Proof.
  intros Hpos. induction n as [|n IH]; intros j Hj Hlen.
  - rewrite Z.add_0_r. lia.
  - destruct (load_lt_Some sizes (j + Z.of_nat n) ltac:(lia)) as (w & Ew).
    replace (j + Z.of_nat (S n)) with (j + Z.of_nat n + 1) by lia.
    rewrite (prefix_sum_succ sizes _ w) by (lia || exact Ew).
    specialize (IH j Hj ltac:(lia)). specialize (Hpos _ _ Ew). lia.
Qed.

Lemma scan_sizes_outside sizes cnt x :
  Z.of_nat (length sizes) = cnt -> cnt < 65536 -> sums_fit sizes ->
  (forall j w, load sizes j = Some w -> 0 <= w) ->
  prefix_sum sizes cnt <= x ->
  scan_sizes (Z.to_nat cnt) sizes 0 cnt 0 x = Some cnt.
Proof.
  intros Hlen H16 Hsums Hpos Hout.
  destruct (scan_sizes_spec sizes cnt x Hlen H16 Hsums (Z.to_nat cnt) 0 0
              ltac:(lia) eq_refl ltac:(lia)) as (k & E & Hk & Hin & _); [intros; lia|].
  rewrite E. f_equal.
  destruct (Z.eq_dec k cnt) as [|Hne]; [assumption|]. exfalso.
  specialize (Hin ltac:(lia)).
  pose proof (prefix_sum_mono sizes Hpos (Z.to_nat (cnt - (k + 1))) (k + 1)
                ltac:(lia) ltac:(lia)) as Hm.
  replace (k + 1 + Z.of_nat (Z.to_nat (cnt - (k + 1)))) with cnt in Hm by lia. lia.
Qed.

(** When the running sums of the widths and of the heights are coordinates,
    the self size of a table is the sum of its column widths and the sum of
    its row heights.  With widths and heights that are not negative, a
    pointer at or beyond that size gets the column count and the row count
    as the pressed cell, indices of no cell, and [LV_RES_OK]. *)
Theorem press_beyond_self_size t i :
  table_wf t -> col_cnt t < 65536 -> row_cnt t < 65536 ->
  sums_fit (col_w t) -> sums_fit (row_h t) ->
  (forall j w, load (col_w t) j = Some w -> 0 <= w) ->
  (forall j h, load (row_h t) j = Some h -> 0 <= h) ->
  indev_type i = Roller.LV_INDEV_TYPE_POINTER ->
  exists w h, get_self_size t = Some (w, h)
    /\ w = prefix_sum (col_w t) (col_cnt t)
    /\ h = prefix_sum (row_h t) (row_cnt t)
    /\ (w <= pressed_x i -> h <= pressed_y i ->
        lv_table_get_pressed_cell t i true true
        = Some (LV_RES_OK, Some (row_cnt t), Some (col_cnt t))).
Proof.
  intros (Hc & Hr & Hd & Hh & Hw) Hc16 Hr16 Hcs Hrs Hwpos Hhpos Hdev.
  exists (prefix_sum (col_w t) (col_cnt t)), (prefix_sum (row_h t) (row_cnt t)).
  split.
  { unfold get_self_size.
    rewrite (sum_loop_spec (col_w t) _ Hcs 0 0), (sum_loop_spec (row_h t) _ Hrs 0 0)
      by (try reflexivity; lia).
    cbn [mbind option_bind]. rewrite !Z.add_0_l, !Z2Nat.id by lia. reflexivity. }
  split; [reflexivity|]. split; [reflexivity|].
  intros Hx Hy. unfold lv_table_get_pressed_cell. rewrite Hdev. cbv zeta.
  fold (pressed_x i) (pressed_y i).
  rewrite (scan_sizes_outside (col_w t) (col_cnt t)) by assumption.
  rewrite (scan_sizes_outside (row_h t) (row_cnt t)) by assumption.
  reflexivity.
Qed.

(** *** The theorems on the examples *)

Lemma set_row_cnt_keeps_rows_witness :
  ((fits16 3 (col_cnt two_by_two)
    → ∃ t' : lv_table_t, lv_table_set_row_cnt example_env two_by_two 3 = Some t')
   ∧ ∀ t' : lv_table_t,
       lv_table_set_row_cnt example_env two_by_two 3 = Some t'
       → row_cnt t' = 3
         ∧ col_cnt t' = col_cnt two_by_two
           ∧ table_wf t'
             ∧ (∀ r c : Z,
                  0 ≤ r < row_cnt two_by_two `min` 3
                  → 0 ≤ c < col_cnt two_by_two
                    → cell_getters t' r c = cell_getters two_by_two r c)
               ∧ ∀ r c : Z,
                   row_cnt two_by_two ≤ r < 3
                   → 0 ≤ c < col_cnt two_by_two
                     → cell_getters t' r c = (Some ""%string, Some false, Some false)).
Proof.
  apply (set_row_cnt_keeps_rows example_env two_by_two 3).
  - unfold table_wf; cbn; lia.
  - lia.
Defined.

Lemma set_col_cnt_keeps_columns_witness :
  (fits16 (row_cnt two_by_two) 1 ->
   exists t', lv_table_set_col_cnt example_env two_by_two 1 = Some t')
  /\ (forall t', lv_table_set_col_cnt example_env two_by_two 1 = Some t' ->
        col_cnt t' = 1 /\ row_cnt t' = row_cnt two_by_two /\ table_wf t'
        /\ (forall r c, 0 <= r < row_cnt two_by_two ->
              0 <= c < Z.min (col_cnt two_by_two) 1 ->
              cell_getters t' r c = cell_getters two_by_two r c)
        /\ (forall r c, 0 <= r < row_cnt two_by_two -> col_cnt two_by_two <= c < 1 ->
              cell_getters t' r c = (Some EmptyString, Some false, Some false))).
Proof.
  apply (set_col_cnt_keeps_columns example_env two_by_two 1).
  - unfold table_wf; cbn; lia.
  - lia.
Defined.

Lemma set_col_cnt_widths_default_witness :
  (fits16 (row_cnt two_by_two) 3 ->
   exists t', lv_table_set_col_cnt example_env two_by_two 3 = Some t')
  /\ (forall t', lv_table_set_col_cnt example_env two_by_two 3 = Some t' ->
        (forall c, 0 <= c < Z.min (col_cnt two_by_two) 3 ->
           lv_table_get_col_width t' c = lv_table_get_col_width two_by_two c)
        /\ (forall c, col_cnt two_by_two <= c < 3 ->
              lv_table_get_col_width t' c = Some (LV_DPI_DEF example_env))).
Proof.
  apply (set_col_cnt_widths_default example_env two_by_two 3).
  - unfold table_wf; cbn; lia.
  - lia.
Defined.


Lemma set_cell_value_keeps_format_witness :
  let kept t' :=
    lv_table_get_cell_value t' 1 1 = Some "z"%string
    /\ lv_table_get_cell_crop t' 1 1 = lv_table_get_cell_crop two_by_two 1 1
    /\ lv_table_get_cell_merge_right t' 1 1
       = lv_table_get_cell_merge_right two_by_two 1 1
    /\ (forall c, load (cell_data two_by_two) (1 * col_cnt two_by_two + 1)
                  = Some (Some c) ->
          load (cell_data t') (1 * col_cnt two_by_two + 1)
          = Some (Some (mk_cell (format_byte c) "z")))
    /\ col_cnt t' = col_cnt two_by_two /\ row_cnt t' = row_cnt two_by_two
    /\ (forall r c, 0 <= r < row_cnt two_by_two -> 0 <= c < col_cnt two_by_two ->
          r <> 1 \/ c <> 1 -> cell_getters t' r c = cell_getters two_by_two r c) in
  (exists t', lv_table_set_cell_value example_env two_by_two 1 1 "z" = Some t'
              /\ kept t')
  /\ (exists t', lv_table_set_cell_value_fmt example_env two_by_two 1 1 "z" = Some t'
                 /\ kept t').
Proof.
  apply (set_cell_value_keeps_format example_env two_by_two 1 1 "z"%string).
  - unfold table_wf; cbn; lia.
  - unfold fits16; cbn; lia.
  - cbn; lia.
  - cbn; lia.
Defined.

Lemma set_cell_merge_right_round_trip_witness :
  (∃ t' : lv_table_t,
     lv_table_set_cell_merge_right example_env two_by_two 1 1 true = Some t'
     ∧ lv_table_get_cell_merge_right t' 1 1 = Some true
       ∧ lv_table_get_cell_crop t' 1 1 = lv_table_get_cell_crop two_by_two 1 1
         ∧ lv_table_get_cell_value t' 1 1 = lv_table_get_cell_value two_by_two 1 1
           ∧ col_cnt t' = col_cnt two_by_two
             ∧ row_cnt t' = row_cnt two_by_two
               ∧ ∀ r c : Z,
                   0 ≤ r < row_cnt two_by_two
                   → 0 ≤ c < col_cnt two_by_two
                     → r ≠ 1 ∨ c ≠ 1 → cell_getters t' r c = cell_getters two_by_two r c).
Proof.
  apply (set_cell_merge_right_round_trip example_env two_by_two 1 1 true).
  - unfold table_wf; cbn; lia.
  - unfold fits16; cbn; lia.
  - cbn; lia.
  - cbn; lia.
Defined.


Lemma setters_keep_sizes_witness :
  (0 ≤ col_cnt cropped_head_table
   ∧ 0 ≤ row_cnt cropped_head_table
     ∧ Z.of_nat (length (col_w cropped_head_table)) = col_cnt cropped_head_table
       ∧ Z.of_nat (length (row_h cropped_head_table)) = row_cnt cropped_head_table
         ∧ Z.of_nat (length (cell_data cropped_head_table)) =
           row_cnt cropped_head_table * col_cnt cropped_head_table).
Proof.
  apply (setters_keep_sizes example_env example_setters cropped_head_table).
  - repeat constructor.
  - reflexivity.
Defined.

Lemma refreshing_setters_store_heights_witness :
  exists t',
    run_table_op example_env cropped_cell_table (OpSetCellMergeRight 0 0 true) = Some t'
    /\ forall i, 0 <= i < row_cnt t' ->
         load (row_h t') i = get_row_height example_env t' i.
Proof.
  apply (refreshing_setters_store_heights
           example_env cropped_cell_table (OpSetCellMergeRight 0 0 true)).
  - unfold table_wf; cbn; lia.
  - exact I.
  - cbn; lia.
Defined.

Lemma row_height_at_least_a_line_witness :
  line_height example_env + cell_top example_env + cell_bottom example_env <= 10.
Proof.
  apply (row_height_at_least_a_line example_env merged_head_table 0 10).
  - split; [unfold fits_coord; cbn; lia|];
    intros i c w E;
    assert (i = 0 \/ i = 1) as [-> | ->] by (apply load_Some_lt in E; cbn in E; lia);
    vm_compute in E; try discriminate E;
    injection E as <-; unfold fits_coord; cbn; lia.
  - reflexivity.
Defined.

Lemma unmerged_row_height_is_max_witness :
  get_row_height example_env two_by_two 0
  = Some (max_cell_height example_env (row_cells two_by_two 0) (col_w two_by_two)).
Proof.
  apply (unmerged_row_height_is_max example_env two_by_two 0).
  - unfold table_wf; cbn; lia.
  - unfold fits16; cbn; lia.
  - cbn; lia.
  - intros c cl Hc E;
    assert (c = 0 \/ c = 1) as [-> | ->] by (cbn in Hc; lia); vm_compute in E;
    [injection E as <-; reflexivity | discriminate].
  - split; [unfold fits_coord; cbn; lia|];
    intros i c w E;
    assert (i = 0 \/ i = 1 \/ i = 2 \/ i = 3) as [-> | [-> | [-> | ->]]]
      by (apply load_Some_lt in E; cbn in E; lia);
    vm_compute in E; try discriminate E;
    injection E as <-; unfold fits_coord; cbn; lia.
  - intros j w E;
    assert (j = 0 \/ j = 1) as [-> | ->] by (apply load_Some_lt in E; cbn in E; lia);
    vm_compute in E; injection E as <-; unfold fits_coord; cbn; lia.
Defined.

Lemma merged_pair_width_witness :
  merge_chain (Z.to_nat (col_cnt merged_head_table)) merged_head_table 0 0 0 100
  = Some (1, to_coord (100 + 100))
  /\ (fits_coord (100 + 100) ->
      merge_chain (Z.to_nat (col_cnt merged_head_table)) merged_head_table 0 0 0 100
      = Some (1, 100 + 100)).
Proof.
  apply (merged_pair_width merged_head_table 0 0 (mk_cell 1 "a") 100 100).
  - lia.
  - cbn; lia.
  - cbn; lia.
  - reflexivity.
  - reflexivity.
  - reflexivity.
  - left; reflexivity.
Defined.

Lemma pressed_cell_is_first_beyond_point_witness :
  let x := pressed_x (pointer_at 150 15) in
  let y := pressed_y (pointer_at 150 15) in
  (indev_type (pointer_at 150 15) = Roller.LV_INDEV_TYPE_POINTER
   \/ indev_type (pointer_at 150 15) = Roller.LV_INDEV_TYPE_BUTTON ->
   exists row col,
     lv_table_get_pressed_cell two_by_two (pointer_at 150 15) true true
     = Some (LV_RES_OK, Some row, Some col)
     /\ 0 <= col <= col_cnt two_by_two
     /\ (col < col_cnt two_by_two -> x < prefix_sum (col_w two_by_two) (col + 1))
     /\ (forall j, 0 <= j < col -> prefix_sum (col_w two_by_two) (j + 1) <= x)
     /\ 0 <= row <= row_cnt two_by_two
     /\ (row < row_cnt two_by_two -> y < prefix_sum (row_h two_by_two) (row + 1))
     /\ (forall j, 0 <= j < row -> prefix_sum (row_h two_by_two) (j + 1) <= y))
  /\ (indev_type (pointer_at 150 15) <> Roller.LV_INDEV_TYPE_POINTER ->
      indev_type (pointer_at 150 15) <> Roller.LV_INDEV_TYPE_BUTTON ->
      lv_table_get_pressed_cell two_by_two (pointer_at 150 15) true true
      = Some (LV_RES_INV, Some 65535, Some 65535)).
Proof.
  apply (pressed_cell_is_first_beyond_point two_by_two (pointer_at 150 15)).
  - unfold table_wf; cbn; lia.
  - cbn; lia.
  - cbn; lia.
  - intros k Hk;
    assert (k = 0 \/ k = 1 \/ k = 2) as [-> | [-> | ->]] by (cbn in Hk; lia);
    unfold fits_coord; vm_compute; (split; [intros H; discriminate H | reflexivity]).
  - intros k Hk;
    assert (k = 0 \/ k = 1 \/ k = 2) as [-> | [-> | ->]] by (cbn in Hk; lia);
    unfold fits_coord; vm_compute; (split; [intros H; discriminate H | reflexivity]).
Defined.

Lemma press_beyond_self_size_witness :
  exists w h,
    get_self_size two_by_two = Some (w, h)
    /\ w = prefix_sum (col_w two_by_two) (col_cnt two_by_two)
    /\ h = prefix_sum (row_h two_by_two) (row_cnt two_by_two)
    /\ (w <= pressed_x (pointer_at 250 30) -> h <= pressed_y (pointer_at 250 30) ->
        lv_table_get_pressed_cell two_by_two (pointer_at 250 30) true true
        = Some (LV_RES_OK, Some (row_cnt two_by_two), Some (col_cnt two_by_two))).
Proof.
  apply (press_beyond_self_size two_by_two (pointer_at 250 30)).
  - unfold table_wf; cbn; lia.
  - cbn; lia.
  - cbn; lia.
  - intros k Hk;
    assert (k = 0 \/ k = 1 \/ k = 2) as [-> | [-> | ->]] by (cbn in Hk; lia);
    unfold fits_coord; vm_compute; (split; [intros H; discriminate H | reflexivity]).
  - intros k Hk;
    assert (k = 0 \/ k = 1 \/ k = 2) as [-> | [-> | ->]] by (cbn in Hk; lia);
    unfold fits_coord; vm_compute; (split; [intros H; discriminate H | reflexivity]).
  - intros j w E;
    assert (j = 0 \/ j = 1) as [-> | ->] by (apply load_Some_lt in E; cbn in E; lia);
    vm_compute in E; injection E as <-; lia.
  - intros j w E;
    assert (j = 0 \/ j = 1) as [-> | ->] by (apply load_Some_lt in E; cbn in E; lia);
    vm_compute in E; injection E as <-; lia.
  - reflexivity.
Defined.

End TableMore.
